(** * Request dispatch and manifest indexing: a shallow embedding

    The development follows the two source files of the server core:

    - [listen.ts]: the route registry ([handleRoute], [getRoute]), the
      middleware list ([useMiddleware]), the channel registry
      ([activeSocketConnections]) and the per-request dispatcher
      ([listenAndServe]);
    - the manifest indexer: [pathToPattern], [indexRoutes], [indexStatic].

    JavaScript strings are embedded as [string], JavaScript numbers that
    are HTTP statuses as [Z] (with [option Z] where [NaN] can arise),
    [Headers] and [Map] objects as [gmap], and the mutable request context
    as an explicit state that every callback threads through. *)

From Stdlib Require Import ZArith Ascii String List Bool Lia.
From stdpp Require Import base option list strings pretty gmap.

Local Open Scope Z_scope.

(** ** JavaScript string primitives used by the sources *)

Module JS.

Definition chars (s : string) : list ascii := list_ascii_of_string s.
Definition str (l : list ascii) : string := string_of_list_ascii l.

Definition len (s : string) : Z := Z.of_nat (String.length s).

(** [s.startsWith(p)] *)
Definition startsWith (p s : string) : bool := String.prefix p s.

(** [s.endsWith(p)] *)
Definition endsWith (p s : string) : bool :=
  String.prefix (String.rev p) (String.rev s).

(** [s.slice(b, e)], with the negative indices counted from the end. *)
Definition slice (s : string) (b e : Z) : string :=
  let n := len s in
  let from := if b <? 0 then Z.max (n + b) 0 else Z.min b n in
  let to := if e <? 0 then Z.max (n + e) 0 else Z.min e n in
  String.substring (Z.to_nat from) (Z.to_nat (Z.max (to - from) 0)) s.

(** [s.slice(b)] *)
Definition slice_from (s : string) (b : Z) : string := slice s b (len s).

(** [s.split(c)] for a one-character separator. *)
Fixpoint split_chars (c : ascii) (cur : list ascii) (l : list ascii)
  : list string :=
  match l with
  | [] => [str (rev cur)]
  | x :: r =>
      if Ascii.eqb x c then str (rev cur) :: split_chars c [] r
      else split_chars c (x :: cur) r
  end.

Definition split (c : ascii) (s : string) : list string :=
  split_chars c [] (chars s).

(** [parts.join(sep)] *)
Fixpoint join (sep : string) (parts : list string) : string :=
  match parts with
  | [] => ""
  | [p] => p
  | p :: r => p +:+ sep +:+ join sep r
  end.

(** [s.includes(sub)] *)
Fixpoint includes_chars (sub : string) (l : list ascii) : bool :=
  String.prefix sub (str l) ||
  match l with
  | [] => false
  | _ :: r => includes_chars sub r
  end.

Definition includes (sub s : string) : bool := includes_chars sub (chars s).

(** [list.includes(x)] on an array of strings. *)
Definition array_includes (l : list string) (x : string) : bool :=
  existsb (String.eqb x) l.

(** [s.replace(/suffix$/, by)] for a literal suffix. *)
Definition replace_suffix (suffix by_ s : string) : string :=
  if endsWith suffix s
  then slice s 0 (len s - len suffix) +:+ by_
  else s.

(** [s.replace(/^prefix/, "")] for a literal prefix. *)
Definition strip_prefix (p s : string) : string :=
  if startsWith p s then slice_from s (len p) else s.

Definition is_digit (c : ascii) : bool :=
  let n := nat_of_ascii c in (48 <=? n)%nat && (n <=? 57)%nat.

Definition is_upper (c : ascii) : bool :=
  let n := nat_of_ascii c in (65 <=? n)%nat && (n <=? 90)%nat.

Definition is_lower (c : ascii) : bool :=
  let n := nat_of_ascii c in (97 <=? n)%nat && (n <=? 122)%nat.

(** [Number(s)] on a string of decimal digits; [None] is [NaN]. The
    empty string converts to 0, as in JavaScript. *)
Definition digits_value (l : list ascii) : Z :=
  fold_left (fun acc c => 10 * acc + (Z.of_nat (nat_of_ascii c) - 48)) l 0.

Definition toNumber (s : string) : option Z :=
  if forallb is_digit (chars s) then Some (digits_value (chars s)) else None.

(** The elements that a [for ... of] loop gets through when its body
    throws at the first element that fails [test]. *)
Fixpoint take_while {A} (test : A -> bool) (l : list A) : list A :=
  match l with
  | x :: r => if test x then x :: take_while test r else []
  | [] => []
  end.

End JS.

(** ** The platform's [Headers]: names and values as [set] takes them

    [Headers.set(name, value)] strips the HTTP whitespace around the
    value and throws a [TypeError] unless the name is a token and the
    stripped value holds no NUL, line feed or carriage return; names are
    kept in lower case. Strings are byte strings here, so the conversion
    of both arguments to [ByteString] always succeeds. *)

Module Headers.

Definition is_whitespace (c : ascii) : bool :=
  existsb (Nat.eqb (nat_of_ascii c)) [9; 10; 13; 32]%nat.

Fixpoint strip_leading (l : list ascii) : list ascii :=
  match l with
  | c :: r => if is_whitespace c then strip_leading r else l
  | [] => []
  end.

Definition normalize (value : string) : string :=
  JS.str (rev (strip_leading (rev (strip_leading (JS.chars value))))).

Definition valid_value (value : string) : bool :=
  forallb (fun c => negb (existsb (Nat.eqb (nat_of_ascii c)) [0; 10; 13]%nat))
          (JS.chars value).

(** The characters of an HTTP token. *)
Definition is_tchar (c : ascii) : bool :=
  JS.is_upper c || JS.is_lower c || JS.is_digit c
  || existsb (Ascii.eqb c) (JS.chars "!#$%&'*+-.^_`|~").

Definition valid_name (name : string) : bool :=
  negb (String.eqb name "") && forallb is_tchar (JS.chars name).

Definition lower_char (c : ascii) : ascii :=
  if JS.is_upper c then ascii_of_nat (nat_of_ascii c + 32) else c.

Definition lower (name : string) : string :=
  JS.str (map lower_char (JS.chars name)).

(** A value as a [Headers] object holds it. *)
Definition stored (value : string) : bool :=
  String.eqb (normalize value) value && valid_value value.

End Headers.

(** ** The platform's [URLPattern], restricted to pathname patterns

    Both sources build patterns with [new URLPattern({ pathname })], so a
    pattern is represented by the pathname string it was built from. The
    matcher below covers the fragment of the pattern syntax that the
    sources produce: literal segments, [:name] groups (one non-empty
    segment), a final [:name*] group (the rest of the path) and a final
    wildcard [*] or [*?] (anything after the slash; with [?] the slash
    and what follows may be missing). A group name is an identifier; the
    constructor rejects a pattern with an empty or malformed name. The
    characters [[] and []] have no meaning in the pattern syntax: a
    segment such as [[slug]] is literal text. *)

Module URLPattern.

Inductive segment : Type :=
| Literal (text : string)
| Named (name : string)
| Repeated (name : string)
| Wildcard (optional : bool).

Definition groups := gmap string string.

Definition special (c : ascii) : bool :=
  existsb (Ascii.eqb c) (JS.chars "{}()*?+\:").

Definition is_name_char (c : ascii) : bool :=
  JS.is_upper c || JS.is_lower c || JS.is_digit c
  || existsb (Ascii.eqb c) (JS.chars "_$").

Definition is_name (name : string) : bool :=
  match JS.chars name with
  | c :: r => negb (JS.is_digit c) && forallb is_name_char (c :: r)
  | [] => false
  end.

Definition parse_segment (s : string) : option segment :=
  if String.eqb s "*" then Some (Wildcard false)
  else if String.eqb s "*?" then Some (Wildcard true)
  else
    match s with
    | String ":" rest =>
        if JS.endsWith "*" rest then
          let name := JS.slice rest 0 (-1) in
          if is_name name then Some (Repeated name) else None
        else if is_name rest then Some (Named rest)
        else None
    | _ => if existsb special (JS.chars s) then None else Some (Literal s)
    end.

(** The groups that take the rest of the path come last. *)
Fixpoint well_placed (pat : list segment) : bool :=
  match pat with
  | [] | [_] => true
  | (Repeated _ | Wildcard _) :: _ => false
  | _ :: rest => well_placed rest
  end.

(** A pathname pattern is a sequence of [/segment] pieces. *)
Definition parse (pathname : string) : option (list segment) :=
  match JS.split "/" pathname with
  | "" :: segs =>
      pat ← mapM parse_segment segs;
      if well_placed pat then Some pat else None
  | _ => None
  end.

(** Whether [new URLPattern({ pathname })] returns, for the patterns of
    the fragment; [false] is the constructor's [TypeError]. *)
Definition valid (pathname : string) : bool :=
  match parse pathname with Some _ => true | None => false end.

Fixpoint match_segments (pat : list segment) (path : list string)
  : option groups :=
  match pat, path with
  | [], [] => Some ∅
  | [Repeated name], rest =>
      if forallb (fun s => negb (String.eqb s "")) rest
      then Some {[ name := JS.join "/" rest ]}
      else None
  | [Wildcard optional], rest =>
      match rest with
      | [] => if optional then Some {[ "0" := "" ]} else None
      | _ => Some {[ "0" := JS.join "/" rest ]}
      end
  | Literal text :: pat', s :: path' =>
      if String.eqb text s then match_segments pat' path' else None
  | Named name :: pat', s :: path' =>
      if String.eqb s "" then None
      else g ← match_segments pat' path'; Some (<[name := s]> g)
  | _, _ => None
  end.

(** Matching a pathname against a pathname pattern. *)
Definition exec_pathname (pattern path : string) : option groups :=
  pat ← parse pattern;
  match JS.split "/" path with
  | "" :: segs => match_segments pat segs
  | _ => None
  end.

(** The pathname component of an absolute URL string: what follows the
    authority, up to the query or the fragment; the empty path of an
    [http] URL is [/]. *)
Fixpoint skip_scheme (l : list ascii) : list ascii :=
  match l with
  | ":" :: "/" :: "/" :: r => r
  | _ :: r => skip_scheme r
  | [] => []
  end%char.

Fixpoint skip_authority (l : list ascii) : list ascii :=
  match l with
  | [] => []
  | c :: r =>
      if existsb (Ascii.eqb c) (JS.chars "/?#") then l else skip_authority r
  end.

Fixpoint take_path (l : list ascii) : list ascii :=
  match l with
  | [] => []
  | c :: r =>
      if existsb (Ascii.eqb c) (JS.chars "?#") then [] else c :: take_path r
  end.

Definition pathname_of_href (href : string) : string :=
  match take_path (skip_authority (skip_scheme (JS.chars href))) with
  | [] => "/"
  | p => JS.str p
  end.

(** [new URLPattern({ pathname }).exec(href)?.pathname?.groups] *)
Definition exec (pattern href : string) : option groups :=
  exec_pathname pattern (pathname_of_href href).

End URLPattern.

(** ** listen.ts: route registry, channel registry and dispatcher *)

Module HTTPStatus.
Definition OK : Z := 200.
Definition NotModified : Z := 304.
Definition NotFound : Z := 404.
Definition InternalServerError : Z := 500.
Definition NotImplemented : Z := 501.
End HTTPStatus.

(** What the dispatcher consumes from the runtime and from [deps.ts]. *)
Class Platform : Type := {
  JSValue : Type;
  FormData : Type;
  (** [await req.json()] and [await req.formData()]; [None] when the
      promise rejects. *)
  req_json : string -> option JSValue;
  req_formData : string -> option FormData;
  (** [JSON.stringify(v, null, 2)]; [None] when it throws. *)
  JSON_stringify : JSValue -> option string;
  isMapOrSet : JSValue -> bool;
  spread : JSValue -> JSValue;
  HTTPStatusText_get : Z -> option string;
  contentType : string -> option string;
  basename : string -> string;
  (** [Deno.readTextFile] and [Deno.open]; [None]/[false] when they fail. *)
  readTextFile : string -> option string;
  canOpen : string -> bool;
  getCookies : gmap string string -> gmap string string;
  URLSearchParams : string -> list (string * string);
  (** [pattern.exec(href)?.pathname?.groups] for the pattern built from a
      pathname string; [pattern.test(href)] holds exactly when [exec]
      yields a result. *)
  URLPattern_exec : string -> string -> option (gmap string string);
  (** [Deno.upgradeWebSocket(req)] for a request with these headers:
      [false] when it throws its [TypeError]. Besides the [upgrade] header
      it wants a [connection] header that names [upgrade] and a
      [sec-websocket-key] header. *)
  acceptsUpgrade : gmap string string -> bool;
  (** [socket.send(data)] on the socket made by the given handshake:
      [false] when it throws [InvalidStateError] because the socket is
      not open. *)
  canSend : nat -> bool;
  (** A media type is a non-empty header value. *)
  contentType_value :
    forall lookup t,
      contentType lookup = Some t -> t <> "" /\ Headers.stored t = true;
}.

Module Listen.
Section Dispatch.

Context `{Platform}.

Definition RequestMethods : list string :=
  ["POST"; "GET"; "PUT"; "PATCH"; "DELETE"; "*"].

Definition WebSocket := nat.

Inductive Error : Type :=
| TypeError            (* an assignment to a property of a frozen object,
                          a header that [Headers] rejects, a handshake
                          that [Deno.upgradeWebSocket] rejects, a body
                          given with a null-body status *)
| RangeError           (* a response status outside 200..599 *)
| InvalidStateError    (* [send] on a socket that is not open *)
| DecodeError          (* a body that cannot be decoded *)
| StringifyError       (* JSON.stringify threw *)
| IOError              (* a file that cannot be read or opened *)
| Thrown (msg : string).  (* an error raised by a callback *)

(** What [ctx.res.body] holds: a string, the stream that
    [sendFileStream] makes of a file, or a buffer (a typed array), which
    is an object held by reference: its bytes are in the [buffers] of the
    state and can be overwritten in place. *)
Inductive BodyInit : Type :=
| BodyString (s : string)
| BodyStream (filepath : string)
| BodyBuffer (ref : nat).

Inductive RequestBody : Type :=
| Undefined
| JsonBody (v : JSValue)
| TextBody (s : string)
| FormDataBody (f : FormData)
| BlobBody (s : string).

Inductive BodyType : Type := json | text | formData | blob.

Record URL : Type := { href : string; pathname : string; search : string }.

(** The incoming [Request] together with the connection's address. *)
Record Request : Type := {
  rq_method : string;
  rq_hostname : string;
  rq_url : URL;
  rq_headers : gmap string string;
  rq_body : option string;
}.

(** The body that the [Response] constructor extracts: the string, the
    stream, or a copy of the buffer's bytes. *)
Inductive ResponseBody : Type :=
| Text (s : string)
| FileStream (filepath : string)
| Bytes (bytes : string).

Inductive Response : Type :=
| HttpResponse (body : ResponseBody) (status : Z)
    (headers : gmap string string)
| Handshake (socket : WebSocket).

(** [ctx.req] *)
Record Req : Type := {
  method : string;
  ip : string;
  url : URL;
  body : RequestBody;
  bodyType : option BodyType;
  queryParams : list (string * string);
  pathParams : gmap string string;
  cookies : gmap string string;
  headers : gmap string string;
}.

(** [ctx.res]: the data fields; the helper methods are [Op]s below. *)
Record Res : Type := {
  res_body : BodyInit;
  res_status : Z;
  res_headers : gmap string string;
  sent : bool;
}.

(** The request context with the closure variables [socket] and
    [override] of the request, and whether [Object.freeze(ctx.res)] has
    run. *)
Record Context : Type := {
  req : Req;
  res : Res;
  frozen : bool;
  available : bool;
  channel_name : string;
  socket : option WebSocket;
  override : option Response;
}.

Inductive Payload : Type :=
| TextData (s : string)
| BinaryData (bytes : list ascii).

(** The argument of [channel.broadcast]. *)
Inductive Message : Type :=
| StringMessage (s : string)
| BinaryMessage (bytes : list ascii)
| ValueMessage (v : JSValue).

Inductive LogLine : Type :=
| Line (s : string)
| ErrorLine (prefix : string) (err : Error).

(** What a callback can do with the context it receives. *)
Inductive Op : Type :=
| GetReq
| GetRes
| SetBody (b : BodyInit)
| SetStatus (n : Z)
| SetHeaders (h : gmap string string)
| HeadersSet (k v : string)
| HeadersDelete (k : string)
| SendStatus (n : Z)
| SendJSON (data : JSValue)
| SendFile (filepath : string)
| SendFileStream (filepath : string)
| InferContentType (lookup : string)
| MarkForDownload (filename : option string)
| GetAvailable
| Socket
| GetChannelName
| Join (name : string)
| Broadcast (message : Message)
| BufferSet (ref : nat) (bytes : string).

Inductive Reply : Type :=
| Unit
| Raised (err : Error)
| ReqValue (r : Req)
| ResValue (r : Res)
| BoolValue (b : bool)
| StringValue (s : string)
| SocketValue (s : option WebSocket).

(** A callback: client code that reaches the context only through its
    operations, may branch on what they return (a [Raised] reply is an
    exception it may catch or rethrow) and may throw. It assigns neither
    the properties that the [Context] type declares [readonly] ([sent],
    [available], [socket], the channel's [name]) nor the request facet,
    and registers no route or middleware while a request is served. The
    bodies it assigns are strings, file streams and buffers;
    [BufferSet ref bytes] makes the buffer [ref] or overwrites its bytes
    in place ([new Uint8Array(bytes)], [array.set(bytes)]). A stream is
    left for the transport to read: the callback neither locks nor
    cancels it. *)
Inductive Callback : Type :=
| Return
| Throw (err : Error)
| Call (op : Op) (k : Reply -> Callback).

(** The state one request runs in: its context, the module-level channel
    registry, the sockets' [send] calls that went through, the log, the
    handshakes done so far (each names a new socket), the callbacks
    invoked so far and the bytes of the buffers that callbacks hold. *)
Record World : Type := {
  ctx : Context;
  activeSocketConnections : gmap string (list WebSocket);
  upgrades : nat;
  outbox : list (WebSocket * Payload);
  console : list LogLine;
  invoked : list Callback;
  buffers : gmap nat string;
}.

Definition set_ctx (f : Context -> Context) (w : World) : World :=
  {| ctx := f (ctx w);
     activeSocketConnections := activeSocketConnections w;
     upgrades := upgrades w; outbox := outbox w;
     console := console w; invoked := invoked w; buffers := buffers w |}.

Definition set_connections
    (f : gmap string (list WebSocket) -> gmap string (list WebSocket))
    (w : World) : World :=
  {| ctx := ctx w;
     activeSocketConnections := f (activeSocketConnections w);
     upgrades := upgrades w; outbox := outbox w;
     console := console w; invoked := invoked w; buffers := buffers w |}.

Definition set_buffers (f : gmap nat string -> gmap nat string) (w : World)
  : World :=
  {| ctx := ctx w; activeSocketConnections := activeSocketConnections w;
     upgrades := upgrades w; outbox := outbox w;
     console := console w; invoked := invoked w; buffers := f (buffers w) |}.

Definition set_res (f : Res -> Res) (c : Context) : Context :=
  {| req := req c; res := f (res c); frozen := frozen c;
     available := available c; channel_name := channel_name c;
     socket := socket c; override := override c |}.

Definition set_req (f : Req -> Req) (c : Context) : Context :=
  {| req := f (req c); res := res c; frozen := frozen c;
     available := available c; channel_name := channel_name c;
     socket := socket c; override := override c |}.

Definition with_body (b : BodyInit) (r : Res) : Res :=
  {| res_body := b; res_status := res_status r;
     res_headers := res_headers r; sent := sent r |}.

Definition with_status (n : Z) (r : Res) : Res :=
  {| res_body := res_body r; res_status := n;
     res_headers := res_headers r; sent := sent r |}.

Definition with_headers (h : gmap string string) (r : Res) : Res :=
  {| res_body := res_body r; res_status := res_status r;
     res_headers := h; sent := sent r |}.

Definition with_sent (b : bool) (r : Res) : Res :=
  {| res_body := res_body r; res_status := res_status r;
     res_headers := res_headers r; sent := b |}.

Definition with_channel_name (name : string) (c : Context) : Context :=
  {| req := req c; res := res c; frozen := frozen c;
     available := available c; channel_name := name;
     socket := socket c; override := override c |}.

Definition with_upgrade (s : WebSocket) (c : Context) : Context :=
  {| req := req c; res := res c; frozen := frozen c;
     available := available c; channel_name := channel_name c;
     socket := Some s; override := Some (Handshake s) |}.

Definition freeze (c : Context) : Context :=
  {| req := req c; res := res c; frozen := true;
     available := available c; channel_name := channel_name c;
     socket := socket c; override := override c |}.

(** *** Computations that may throw

    A thrown error keeps the changes made before it. *)

Definition M (A : Type) : Type := World -> (Error + A) * World.

Definition ret {A} (a : A) : M A := fun w => (inr a, w).
Definition throw {A} (e : Error) : M A := fun w => (inl e, w).
Definition bind {A B} (m : M A) (k : A -> M B) : M B :=
  fun w => match m w with
           | (inr a, w') => k a w'
           | (inl e, w') => (inl e, w')
           end.
Definition try_catch {A} (m : M A) (handler : Error -> M A) : M A :=
  fun w => match m w with
           | (inr a, w') => (inr a, w')
           | (inl e, w') => handler e w'
           end.
Definition modify (f : World -> World) : M unit := fun w => (inr tt, f w).
Definition gets {A} (f : World -> A) : M A := fun w => (inr (f w), w).

Notation "'let*' x ':=' m 'in' k" := (bind m (fun x => k))
  (at level 10, x name, m at level 100, k at level 200).
Notation "m1 >> m2" := (bind m1 (fun _ => m2))
  (at level 100, m2 at level 200, right associativity).

(** *** The response facet *)

(** [ctx.res.prop = value]: the module is strict code, so the assignment
    throws once [ctx.res] is frozen. *)
Definition assign (f : Res -> Res) : M unit :=
  fun w => if frozen (ctx w) then (inl TypeError, w)
           else (inr tt, set_ctx (set_res f) w).

(** [ctx.res.headers.set(k, v)] and [.delete(k)] act on the [Headers]
    object that [ctx.res.headers] refers to, not on [ctx.res]: they do
    not depend on the freeze. They throw a [TypeError] for a name that
    is no token, and [set] for a value that holds a NUL, a line feed or a
    carriage return after the whitespace around it is stripped. *)
Definition headers_set (k v : string) : M unit :=
  let v := Headers.normalize v in
  if Headers.valid_name k && Headers.valid_value v then
    modify (set_ctx (set_res (fun r =>
      with_headers (<[Headers.lower k := v]> (res_headers r)) r)))
  else throw TypeError.

Definition headers_delete (k : string) : M unit :=
  if Headers.valid_name k then
    modify (set_ctx (set_res (fun r =>
      with_headers (delete (Headers.lower k) (res_headers r)) r)))
  else throw TypeError.

(** Writing into a buffer: no property of [ctx.res] is assigned. *)
Definition buffer_set (ref : nat) (bytes : string) : M unit :=
  modify (set_buffers (<[ref := bytes]>)).

Definition sendStatus (status : Z) : M unit :=
  assign (with_body
            (BodyString (pretty status +:+ " "
                         +:+ default "" (HTTPStatusText_get status)))) >>
  assign (with_status status).

Definition inferContentType (lookup : string) : M unit :=
  match contentType lookup with
  | Some inferredType =>
      if String.eqb inferredType "" then ret tt
      else headers_set "content-type" inferredType
  | None => ret tt
  end.

Definition sendJSON (data : JSValue) : M unit :=
  let data := if isMapOrSet data then spread data else data in
  match JSON_stringify data with
  | None => throw StringifyError
  | Some s =>
      assign (with_body (BodyString s)) >>
      inferContentType "json" >>
      assign (with_status HTTPStatus.OK)
  end.

Definition sendFile (filepath : string) : M unit :=
  try_catch
    (match readTextFile filepath with
     | None => throw IOError
     | Some s =>
         assign (with_body (BodyString s)) >>
         inferContentType (basename filepath) >>
         assign (with_status HTTPStatus.OK)
     end)
    (fun _ => sendStatus HTTPStatus.NotFound).

Definition sendFileStream (filepath : string) : M unit :=
  try_catch
    (if canOpen filepath then
       assign (with_body (BodyStream filepath)) >>
       inferContentType (basename filepath) >>
       assign (with_status HTTPStatus.OK)
     else throw IOError)
    (fun _ => sendStatus HTTPStatus.NotFound).

Definition dquote : string := String (ascii_of_nat 34) EmptyString.

Definition markForDownload (filename : option string) : M unit :=
  let suffix :=
    match filename with
    | Some f => if String.eqb f "" then ""
                else "; filename=" +:+ dquote +:+ f +:+ dquote
    | None => ""
    end in
  headers_set "content-disposition" ("attachment" +:+ suffix).

(** *** The channel registry: a [Map] from names to insertion-ordered
    [Set]s of sockets *)

Definition set_add (s : WebSocket) (l : list WebSocket) : list WebSocket :=
  if bool_decide (s ∈ l) then l else l ++ [s].

Definition set_delete (s : WebSocket) (l : list WebSocket) : list WebSocket :=
  filter (fun x => x <> s) l.

Definition removeSocketFromChannel (name : string) (s : WebSocket) : M unit :=
  modify (set_connections (fun m =>
    match m !! name with
    | None => m
    | Some _ => alter (set_delete s) name m
    end)).

Definition addSocketToChannel (name : string) (s : WebSocket) : M unit :=
  modify (set_connections (fun m =>
    let m := match m !! name with
             | None => <[name := []]> m
             | Some _ => m
             end in
    alter (set_add s) name m)).

(** *** [ctx.upgrade] *)

(** An object reference is truthy, [undefined] is not. *)
Definition truthy {A} (o : option A) : bool :=
  match o with Some _ => true | None => false end.

(** [Deno.upgradeWebSocket(req)]: when the runtime accepts the request
    as a handshake, creates the socket of this handshake and the
    handshake response, which the caller keeps in [socket] and
    [override]; it throws otherwise. The source neither tests nor
    catches that failure. *)
Definition upgradeWebSocket : M WebSocket :=
  fun w =>
    if acceptsUpgrade (headers (req (ctx w))) then
      let s := upgrades w in
      (inr s,
       {| ctx := with_upgrade s (ctx w);
          activeSocketConnections := activeSocketConnections w;
          upgrades := S (upgrades w); outbox := outbox w;
          console := console w; invoked := invoked w;
          buffers := buffers w |})
    else (inl TypeError, w).

Definition upgrade_socket : M (option WebSocket) :=
  fun w =>
    let c := ctx w in
    if negb (available c) then (inr None, w)
    else if truthy (socket c) || sent (res c) then (inr (socket c), w)
    else (let* s := upgradeWebSocket in
          addSocketToChannel (channel_name c) s >>
          ret (Some s)) w.

Definition channel_join (name : string) : M unit :=
  let* s := upgrade_socket in
  match s with
  | Some s =>
      let* current := gets (fun w => channel_name (ctx w)) in
      removeSocketFromChannel current s >>
      addSocketToChannel name s
  | None => ret tt
  end >>
  modify (set_ctx (with_channel_name name)).

(** The socket of the request itself is connecting until its handshake
    response has been handed to the transport. *)
Definition connecting (w : World) (s : WebSocket) : bool :=
  bool_decide (socket (ctx w) = Some s) && negb (sent (res (ctx w))).

Definition sendable (w : World) (s : WebSocket) : bool :=
  canSend s && negb (connecting w s).

(** [s.send(data)] *)
Definition send (data : Payload) (s : WebSocket) : M unit :=
  fun w =>
    if sendable w s then
      (inr tt,
       {| ctx := ctx w; activeSocketConnections := activeSocketConnections w;
          upgrades := upgrades w; outbox := outbox w ++ [(s, data)];
          console := console w; invoked := invoked w;
          buffers := buffers w |})
    else (inl InvalidStateError, w).

Fixpoint for_each {A} (f : A -> M unit) (l : list A) : M unit :=
  match l with
  | [] => ret tt
  | x :: r => f x >> for_each f r
  end.

(** What is sent for a message: strings and binary data as they are,
    anything else through [JSON.stringify]; [None] when that throws. *)
Definition payload (message : Message) : option Payload :=
  match message with
  | StringMessage s => Some (TextData s)
  | BinaryMessage b => Some (BinaryData b)
  | ValueMessage v => TextData <$> JSON_stringify v
  end.

Definition channel_broadcast (message : Message) : M unit :=
  let* name := gets (fun w => channel_name (ctx w)) in
  let* channel := gets (fun w => activeSocketConnections w !! name) in
  match channel with
  | None => ret tt
  | Some channel =>
      let* data :=
        match payload message with
        | Some data => ret data
        | None => throw StringifyError
        end in
      for_each (send data) channel
  end.

(** *** Running a callback *)

Definition answer {A} (f : A -> Reply) (m : M A) (w : World)
  : Reply * World :=
  match m w with
  | (inr a, w') => (f a, w')
  | (inl e, w') => (Raised e, w')
  end.

Definition perform (op : Op) : World -> Reply * World :=
  match op with
  | GetReq => answer ReqValue (gets (fun w => req (ctx w)))
  | GetRes => answer ResValue (gets (fun w => res (ctx w)))
  | SetBody b => answer (fun _ => Unit) (assign (with_body b))
  | SetStatus n => answer (fun _ => Unit) (assign (with_status n))
  | SetHeaders h => answer (fun _ => Unit) (assign (with_headers h))
  | HeadersSet k v => answer (fun _ => Unit) (headers_set k v)
  | HeadersDelete k => answer (fun _ => Unit) (headers_delete k)
  | SendStatus n => answer (fun _ => Unit) (sendStatus n)
  | SendJSON data => answer (fun _ => Unit) (sendJSON data)
  | SendFile f => answer (fun _ => Unit) (sendFile f)
  | SendFileStream f => answer (fun _ => Unit) (sendFileStream f)
  | InferContentType l => answer (fun _ => Unit) (inferContentType l)
  | MarkForDownload f => answer (fun _ => Unit) (markForDownload f)
  | GetAvailable => answer BoolValue (gets (fun w => available (ctx w)))
  | Socket => answer SocketValue upgrade_socket
  | GetChannelName => answer StringValue (gets (fun w => channel_name (ctx w)))
  | Join name => answer (fun _ => Unit) (channel_join name)
  | Broadcast m => answer (fun _ => Unit) (channel_broadcast m)
  | BufferSet ref bytes => answer (fun _ => Unit) (buffer_set ref bytes)
  end.

Fixpoint run (cb : Callback) (w : World) : (Error + unit) * World :=
  match cb with
  | Return => (inr tt, w)
  | Throw e => (inl e, w)
  | Call op k => let (r, w') := perform op w in run (k r) w'
  end.

(** [await callback(ctx)], noting which callback was started. *)
Definition invoke (cb : Callback) : M unit :=
  fun w =>
    run cb {| ctx := ctx w;
              activeSocketConnections := activeSocketConnections w;
              upgrades := upgrades w; outbox := outbox w;
              console := console w; invoked := invoked w ++ [cb];
              buffers := buffers w |}.

(** *** The route registry and the middleware list *)

(** A registered route: method, the pathname its [URLPattern] was built
    from, callback. *)
Definition Route : Type := string * string * Callback.

Definition handleRoute (routes : list Route)
    (method path : string) (callback : Callback) : list Route :=
  routes ++ [(method, path, callback)].

Definition useMiddleware (middleware : list Callback) (callback : Callback)
  : list Callback :=
  middleware ++ [callback].

Record RouteMatch : Type := {
  callback : Callback;
  matchParams : gmap string string;
}.

Definition URLPattern_test (pattern href : string) : bool :=
  truthy (URLPattern_exec pattern href).

Fixpoint getRoute_from (routes : list Route) (method href : string)
  : option RouteMatch :=
  match routes with
  | [] => None
  | (route_method, pattern, cb) :: rest =>
      if negb (JS.array_includes ["*"; route_method] method)
      then getRoute_from rest method href
      else if negb (URLPattern_test pattern href)
      then getRoute_from rest method href
      else Some {| callback := cb;
                   matchParams := default ∅ (URLPattern_exec pattern href) |}
  end.

Definition getRoute (routes : list Route) (method href : string)
  : option RouteMatch :=
  getRoute_from routes method (JS.replace_suffix "/" "" href).

(** *** The request handler that [listenAndServe] passes to [serve] *)

Definition new_context (rq : Request) : Context :=
  {| req := {| method := rq_method rq;
               ip := rq_hostname rq;
               url := rq_url rq;
               body := Undefined;
               bodyType := None;
               queryParams := URLSearchParams (search (rq_url rq));
               pathParams := ∅;
               cookies := getCookies (rq_headers rq);
               headers := rq_headers rq |};
     res := {| res_body := BodyString "";
               res_status := HTTPStatus.OK;
               res_headers := ∅;
               sent := false |};
     frozen := false;
     available := bool_decide (rq_headers rq !! "upgrade" = Some "websocket");
     channel_name := "";
     socket := None;
     override := None |}.

Definition with_request_body (b : RequestBody) (t : BodyType) (r : Req) : Req :=
  {| method := method r; ip := ip r; url := url r;
     body := b; bodyType := Some t;
     queryParams := queryParams r; pathParams := pathParams r;
     cookies := cookies r; headers := headers r |}.

Definition with_pathParams (g : gmap string string) (r : Req) : Req :=
  {| method := method r; ip := ip r; url := url r;
     body := body r; bodyType := bodyType r;
     queryParams := queryParams r; pathParams := g;
     cookies := cookies r; headers := headers r |}.

Definition log (l : LogLine) : M unit :=
  modify (fun w =>
    {| ctx := ctx w; activeSocketConnections := activeSocketConnections w;
       upgrades := upgrades w; outbox := outbox w;
       console := console w ++ [l]; invoked := invoked w;
       buffers := buffers w |}).

Definition set_request_body (b : RequestBody) (t : BodyType) : M unit :=
  modify (set_ctx (set_req (with_request_body b t))).

Definition decode_body (rq : Request) : M unit :=
  match rq_body rq with
  | None => ret tt
  | Some raw =>
      let contentType := default "" (rq_headers rq !! "content-type") in
      let isJSON := JS.includes "application/json" contentType in
      let isText := JS.includes "text/plain" contentType in
      let isFormData :=
        JS.includes "application/x-www-form-urlencoded" contentType
        || JS.includes "multipart/form-data" contentType in
      if isJSON then
        match req_json raw with
        | Some v => set_request_body (JsonBody v) json
        | None => throw DecodeError
        end
      else if isText then
        set_request_body (TextBody raw) text
      else if isFormData then
        match req_formData raw with
        | Some f => set_request_body (FormDataBody f) formData
        | None => throw DecodeError
        end
      else set_request_body (BlobBody raw) blob
  end.

(** The body of the [try] block. *)
Definition attempt (routes : list Route) (middleware : list Callback)
    (rq : Request) : M unit :=
  let* r := gets (fun w => req (ctx w)) in
  log (Line ("[" +:+ ip r +:+ "] " +:+ method r +:+ " "
             +:+ pathname (url r))) >>
  decode_body rq >>
  let* r := gets (fun w => req (ctx w)) in
  match getRoute routes (method r) (href (url r)) with
  | Some route =>
      modify (set_ctx (set_req (with_pathParams (matchParams route)))) >>
      invoke (callback route)
  | None => sendStatus HTTPStatus.NotFound
  end >>
  for_each invoke middleware.

Definition handle (routes : list Route) (middleware : list Callback)
    (rq : Request) : M unit :=
  let* r := gets (fun w => req (ctx w)) in
  if JS.array_includes RequestMethods (method r) then
    try_catch (attempt routes middleware rq)
      (fun err =>
         log (ErrorLine ("[" +:+ ip r +:+ "]") err) >>
         sendStatus HTTPStatus.InternalServerError)
  else sendStatus HTTPStatus.NotImplemented.

(** [ctx.res.sent = true; Object.freeze(ctx.res)] *)
Definition finalize (w : World) : World :=
  set_ctx (fun c => freeze (set_res (with_sent true) c)) w.

(** The statuses with which a response has no body. *)
Definition null_body_status (status : Z) : bool :=
  existsb (Z.eqb status) [101; 103; 204; 205; 304].

(** [new Response(body, { status, headers })] for a body that is not
    [null]: the status is taken as an unsigned 16-bit number and must be
    in 200..599 ([RangeError]; the runtime lets 101 pass this test) and
    no null-body status ([TypeError]); the headers are copied, and a
    body that is a string brings its content type unless the headers
    have one. *)
Definition Response_new (buffers : gmap nat string) (body : BodyInit)
    (status : Z) (headers : gmap string string) : Error + Response :=
  let status := status mod 65536 in
  if ((status <? 200) || (599 <? status)) && negb (status =? 101)
  then inl RangeError
  else if null_body_status status then inl TypeError
  else
    inr match body with
        | BodyString s =>
            HttpResponse (Text s) status
              match headers !! "content-type" with
              | Some _ => headers
              | None =>
                  <["content-type" := "text/plain;charset=UTF-8"]> headers
              end
        | BodyStream filepath =>
            HttpResponse (FileStream filepath) status headers
        | BodyBuffer ref =>
            HttpResponse (Bytes (default "" (buffers !! ref))) status headers
        end.

(** [override ?? new Response(ctx.res.body, { status, headers })] *)
Definition response_of (w : World) : Error + Response :=
  match override (ctx w) with
  | Some r => inr r
  | None => Response_new (buffers w) (res_body (res (ctx w)))
              (res_status (res (ctx w))) (res_headers (res (ctx w)))
  end.

(** One request, served against the channel registry [connections] after
    [n] handshakes: the response handed to the transport, or the error
    with which the handler given to [serve] rejects, and the state the
    request leaves behind. *)
Definition new_world (rq : Request)
    (connections : gmap string (list WebSocket)) (n : nat) : World :=
  {| ctx := new_context rq;
     activeSocketConnections := connections;
     upgrades := n; outbox := []; console := []; invoked := [];
     buffers := ∅ |}.

Definition listenAndServe (routes : list Route) (middleware : list Callback)
    (rq : Request) (connections : gmap string (list WebSocket)) (n : nat)
  : (Error + Response) * World :=
  let w :=
    finalize (snd (handle routes middleware rq (new_world rq connections n))) in
  (response_of w, w).

(** The callbacks a request is meant to reach: the handler of the route
    it resolves to, if any, then the middleware. *)
Definition pipeline (routes : list Route) (middleware : list Callback)
    (rq : Request) : list Callback :=
  match getRoute routes (rq_method rq) (href (rq_url rq)) with
  | Some route => callback route :: middleware
  | None => middleware
  end.

(** What the [try] block does before it calls the first of them: it logs
    the request line, decodes the body and resolves the route, whose
    parameters it stores; without a route it presets the response to
    404. *)
Definition prepare (routes : list Route) (rq : Request) : M unit :=
  let* r := gets (fun w => req (ctx w)) in
  log (Line ("[" +:+ ip r +:+ "] " +:+ method r +:+ " "
             +:+ pathname (url r))) >>
  decode_body rq >>
  let* r := gets (fun w => req (ctx w)) in
  match getRoute routes (method r) (href (url r)) with
  | Some route =>
      modify (set_ctx (set_req (with_pathParams (matchParams route))))
  | None => sendStatus HTTPStatus.NotFound
  end.

(** A world in which [ctx.upgrade.socket()] performs no handshake. *)
Definition settled (w : World) : bool :=
  negb (available (ctx w)) || truthy (socket (ctx w)) || sent (res (ctx w))
  || negb (acceptsUpgrade (headers (req (ctx w)))).

(** What the accessor does then: it returns the socket it has, if any,
    or throws as the rejected handshake does. *)
Definition settled_outcome (w : World) : Error + option WebSocket :=
  if negb (available (ctx w)) then inr None
  else if truthy (socket (ctx w)) || sent (res (ctx w))
  then inr (socket (ctx w))
  else inl TypeError.

(** What a step may change: never the [sent], frozen and [available]
    flags nor the record of invoked callbacks; the body and the status
    only before the response is frozen; the socket only by a handshake. *)
Record stable (w w' : World) : Prop := {
  stable_frozen : frozen (ctx w') = frozen (ctx w);
  stable_sent : sent (res (ctx w')) = sent (res (ctx w));
  stable_available : available (ctx w') = available (ctx w);
  stable_invoked : invoked w' = invoked w;
  stable_method : method (req (ctx w')) = method (req (ctx w));
  stable_url : url (req (ctx w')) = url (req (ctx w));
  stable_headers : headers (req (ctx w')) = headers (req (ctx w));
  stable_res :
    frozen (ctx w) = true ->
    res_body (res (ctx w')) = res_body (res (ctx w))
    /\ res_status (res (ctx w')) = res_status (res (ctx w));
  stable_socket :
    settled w = true ->
    socket (ctx w') = socket (ctx w) /\ upgrades w' = upgrades w;
}.

Definition respects {A} (m : M A) : Prop := forall w, stable w (snd (m w)).

(** Whether [decode_body] gets through: only [req.json()] and
    [req.formData()] can reject. *)
Definition decodes (rq : Request) : bool :=
  match rq_body rq with
  | None => true
  | Some raw =>
      let contentType := default "" (rq_headers rq !! "content-type") in
      if JS.includes "application/json" contentType
      then truthy (req_json raw)
      else if JS.includes "text/plain" contentType then true
      else if JS.includes "application/x-www-form-urlencoded" contentType
              || JS.includes "multipart/form-data" contentType
      then truthy (req_formData raw)
      else true
  end.

(** The part of the state that the upgrade and the channels live in. *)
Record same_channels (w w' : World) : Prop := {
  same_connections : activeSocketConnections w' = activeSocketConnections w;
  same_upgrades : upgrades w' = upgrades w;
  same_socket : socket (ctx w') = socket (ctx w);
  same_override : override (ctx w') = override (ctx w);
  same_channel_name : channel_name (ctx w') = channel_name (ctx w);
  same_available : available (ctx w') = available (ctx w);
}.

(** A property of that part only. *)
Definition channel_determined (P : World -> Prop) : Prop :=
  forall w w', same_channels w w' -> P w -> P w'.

Definition keeps (P : World -> Prop) {A} (m : M A) : Prop :=
  forall w, P w -> P (snd (m w)).

(** A computation that stays out of that part. *)
Definition quiet {A} (m : M A) : Prop :=
  forall w, same_channels w (snd (m w)).

(** [override] is the handshake response of [socket], or both are unset. *)
Definition handshake_consistent (w : World) : Prop :=
  override (ctx w) = Handshake <$> socket (ctx w).

(** Every registered socket comes from an earlier handshake. *)
Definition registered_before (connections : gmap string (list WebSocket))
    (n : nat) : Prop :=
  forall name members s,
    connections !! name = Some members -> s ∈ members -> (s < n)%nat.

(** The socket of the request, once there is one, is a member of the
    channel the context names and of no other. *)
Definition in_current_channel_only (w : World) : Prop :=
  forall s, socket (ctx w) = Some s ->
    available (ctx w) = true
    /\ (s < upgrades w)%nat
    /\ (exists members,
          activeSocketConnections w !! channel_name (ctx w) = Some members
          /\ s ∈ members)
    /\ (forall name members,
          activeSocketConnections w !! name = Some members ->
          s ∈ members -> name = channel_name (ctx w)).

Definition channels_wf (w : World) : Prop :=
  registered_before (activeSocketConnections w) (upgrades w)
  /\ in_current_channel_only w.

(** Nothing of the upgrade has happened: the state of a request that
    cannot upgrade. *)
Definition not_upgraded (connections : gmap string (list WebSocket))
    (n : nat) (w : World) : Prop :=
  available (ctx w) = false
  /\ activeSocketConnections w = connections
  /\ upgrades w = n
  /\ socket (ctx w) = None
  /\ override (ctx w) = None.

End Dispatch.
End Listen.

(** ** The manifest indexer: [pathToPattern], [indexRoutes], [indexStatic] *)

Module Indexer.

(** The callback of [path.split("/").map(...)]. In the branch for a
    [[name]] part the template literal is an expression statement: its
    value is dropped and control reaches [return part]. *)
Definition map_part (part : string) : string :=
  if JS.endsWith "]" part then
    if JS.startsWith "[..." part then ":" +:+ JS.slice part 4 (-1) +:+ "*"
    else
      let _named :=
        if JS.startsWith "[" part then ":" +:+ JS.slice part 1 (-1) else "" in
      part
  else part.

(** [s.replace(/(^\/*|\/+)/g, "/")]: the leading run of slashes (empty or
    not) becomes one slash, and so does every later run. *)
Fixpoint squeeze (after_slash : bool) (l : list ascii) : list ascii :=
  match l with
  | [] => []
  | c :: r =>
      if Ascii.eqb c "/" then
        if after_slash then squeeze true r else c :: squeeze true r
      else c :: squeeze false r
  end.

Definition normalize_slashes (s : string) : string :=
  JS.str ("/"%char :: squeeze true (JS.chars s)).

(** [s.replace(/\/_(middleware|data)$/, "/*?")] *)
Definition replace_marker (s : string) : string :=
  if JS.endsWith "/_middleware" s
  then JS.replace_suffix "/_middleware" "/*?" s
  else JS.replace_suffix "/_data" "/*?" s.

(** The pathname that [pathToPattern] hands to [new URLPattern]. *)
Definition pathToPattern (path : string) : string :=
  normalize_slashes
    (replace_marker
       (JS.replace_suffix "/index" ""
          (JS.join "/" (map map_part (JS.split "/" path))))).

(** [pathToPattern(pathname.slice(0, -ext.length))], for [ext] the
    result of [extname(pathname)]. *)
Definition route_pattern (pathname ext : string) : string :=
  pathToPattern (JS.slice pathname 0 (- JS.len ext)).

(** *** [indexRoutes]: the role of a route file *)

(** The part of [pathname] after its last slash, when it has a slash. The
    three filename patterns end in [[^/]+$] and match no slash after their
    first one, so they can only match there. *)
Definition last_segment (pathname : string) : option string :=
  match JS.split "/" pathname with
  | [] | [_] => None
  | segs => last segs
  end.

Fixpoint span_digits (l : list ascii) : list ascii * list ascii :=
  match l with
  | c :: r =>
      if JS.is_digit c
      then let (d, rest) := span_digits r in (c :: d, rest)
      else ([], l)
  | [] => ([], [])
  end.

(** [pathname.match(/\/_(\d+)+\.[^/]+$/)?.[1]]: the digits of
    [_<digits>.<ext>]. *)
Definition match_status (pathname : string) : option string :=
  seg ← last_segment pathname;
  match JS.chars seg with
  | ("_" :: r)%char =>
      match span_digits r with
      | ((_ :: _) as d, ("." :: _ :: _)%char) => Some (JS.str d)
      | _ => None
      end
  | _ => None
  end.

(** [/\/_<marker>\.[^/]+$/.test(pathname)] for [marker] in [data],
    [middleware]. *)
Definition test_marker (marker pathname : string) : bool :=
  match last_segment pathname with
  | Some seg =>
      JS.startsWith ("_" +:+ marker +:+ ".") seg
      && (JS.len ("_" +:+ marker +:+ ".") <? JS.len seg)
  | None => false
  end.

(** [isErrorStatus] of [std/http/http_status.ts]: a status from 400 up to
    599; [NaN] is none. *)
Definition isErrorStatus (status : option Z) : bool :=
  match status with
  | Some n => (400 <=? n) && (n <? 600)
  | None => false
  end.

(** [+s], for [s] a string of digits or [undefined]. *)
Definition unary_plus (s : option string) : option Z := s ≫= JS.toNumber.

(** [s?.[1]]: the second character of the string, or [undefined]. *)
Definition second_char (s : option string) : option string :=
  s ≫= fun s => (fun c => String c EmptyString) <$> String.get 1 s.

Definition isData : string -> bool := test_marker "data".
Definition isMiddleware : string -> bool := test_marker "middleware".

(** [isErrorStatus(+status?.[1])] *)
Definition isErrorHandler (pathname : string) : bool :=
  isErrorStatus (unary_plus (second_char (match_status pathname))).

(** Which hook a route file ends up in. *)
Inductive Registration : Type :=
| AsMiddleware                       (* useMiddleware(exports) *)
| AsData                             (* useData(exports) *)
| AsErrorHandler (status : option Z) (* useErrorHandler({.., status}) *)
| AsPage.                            (* the route's handlers and data *)

(** The branch that one iteration of the loop of [indexRoutes] takes
    for a path name: [None] is [continue], otherwise the hook that the
    iteration ends in when the steps before it do not throw.
    [ignorePattern] is [manifest.ignorePattern?.test]. *)
Definition indexRoute (ignorePattern : option (string -> bool))
    (pathname : string) : option Registration :=
  let status := match_status pathname in
  if negb (isData pathname || isMiddleware pathname || isErrorHandler pathname)
     && match ignorePattern with
        | Some test => test pathname
        | None => false
        end
  then None
  else if isMiddleware pathname then Some AsMiddleware
  else if isData pathname then Some AsData
  else if isErrorHandler pathname then Some (AsErrorHandler (unary_plus status))
  else Some AsPage.

(** A file of the walk. *)
Record File : Type := {
  file_pathname : string;
  file_type : string;
  file_etag : string;
  file_content : string;
}.

(** What the loop body consumes from the manifest and from the
    libraries. *)
Class Loader : Type := {
  extname : string -> string;
  (** [JSON.parse], [parseYaml] and [parseToml], by the extension they
      are called for, on the content of a file: [false] when the parser
      throws. *)
  parses : string -> string -> bool;
  (** Whether, with the data of the file merged into the exports of
      [manifest.routes], [exports.pattern] is a [URLPattern]. *)
  exportsPattern : File -> bool;
  (** Whether [new URLPattern({ pathname })] returns. *)
  URLPattern_accepts : string -> bool;
  (** [hasFrontmatter(body)], and whether [extractFrontmatter(body)]
      returns. *)
  hasFrontmatter : string -> bool;
  extractsFrontmatter : string -> bool;
}.

Inductive IndexError : Type :=
| DataError          (* the JSON, YAML or TOML parser threw *)
| PatternError       (* the URLPattern constructor threw *)
| FrontMatterError.  (* the front matter could not be extracted *)

Section Routes.

Context `{Loader}.

(** The steps between the skip test and the hooks: the data of a
    [.json], [.yaml] or [.toml] file is parsed, the default pattern is
    built unless the exports bring one, the front matter is extracted.
    [Some] is the error of the first step that throws. *)
Definition load (file : File) : option IndexError :=
  let ext := extname (file_pathname file) in
  if existsb (String.eqb ext) [".json"; ".yaml"; ".toml"]
     && negb (parses ext (file_content file))
  then Some DataError
  else if negb (exportsPattern file)
          && negb (URLPattern_accepts (route_pattern (file_pathname file) ext))
  then Some PatternError
  else if hasFrontmatter (file_content file)
          && negb (extractsFrontmatter (file_content file))
  then Some FrontMatterError
  else None.

(** One iteration of the loop: it throws, skips the file or reaches a
    hook. The hooks themselves are taken to return. *)
Definition indexFile (ignorePattern : option (string -> bool)) (file : File)
  : IndexError + option Registration :=
  match indexRoute ignorePattern (file_pathname file) with
  | None => inr None
  | Some role =>
      match load file with
      | Some e => inl e
      | None => inr (Some role)
      end
  end.

(** The loop: the registrations made, in order, and the error that
    ended it, if any. An error leaves the files after it unvisited; what
    was registered before stays registered. *)
Fixpoint indexRoutes (ignorePattern : option (string -> bool))
    (files : list File) : list (string * Registration) * option IndexError :=
  match files with
  | [] => ([], None)
  | file :: rest =>
      match indexFile ignorePattern file with
      | inl e => ([], Some e)
      | inr None => indexRoutes ignorePattern rest
      | inr (Some role) =>
          let (registered, e) := indexRoutes ignorePattern rest in
          ((file_pathname file, role) :: registered, e)
      end
  end.

End Routes.

(** *** [indexStatic]: the handler of a static asset *)

(** [ctx.url], with its [searchParams] as the list of pairs they hold. *)
Record URL : Type := {
  origin : string;
  pathname : string;
  searchParams : list (string * string);
  hash : string;
}.

Record Response : Type := {
  status : Z;
  headers : gmap string string;
  body : option string;
}.

Definition searchParams_get (key : string) (u : URL) : option string :=
  snd <$> List.find (fun p => String.eqb (fst p) key) (searchParams u).

Definition searchParams_delete (key : string) (u : URL) : URL :=
  {| origin := origin u; pathname := pathname u;
     searchParams :=
       List.filter (fun p => negb (String.eqb (fst p) key)) (searchParams u);
     hash := hash u |}.

Definition hex_digit (n : nat) : ascii :=
  nth n (JS.chars "0123456789ABCDEF") "0"%char.

(** The form-urlencoded serializer on one byte. *)
Definition urlencode_byte (c : ascii) : list ascii :=
  if Ascii.eqb c " " then ["+"%char]
  else if JS.is_upper c || JS.is_lower c || JS.is_digit c
          || existsb (Ascii.eqb c) (JS.chars "*-._")
  then [c]
  else ["%"%char; hex_digit (nat_of_ascii c / 16);
        hex_digit (nat_of_ascii c mod 16)].

Definition urlencode (s : string) : string :=
  JS.str (flat_map urlencode_byte (JS.chars s)).

(** [url.href] once the search parameters have been changed: the query
    is serialized anew from the pairs left, and there is no [?] when no
    pair is left. *)
Definition href (u : URL) : string :=
  origin u +:+ pathname u
  +:+ match searchParams u with
      | [] => ""
      | ps =>
          "?" +:+ JS.join "&"
                    (map (fun p => urlencode (fst p) +:+ "=" +:+ urlencode (snd p))
                         ps)
      end
  +:+ hash u.

(** [Response.redirect(url)] *)
Definition redirect (u : URL) : Response :=
  {| status := 302; headers := {[ "location" := href u ]}; body := None |}.

Definition etagsMatch (a b : string) : bool :=
  String.eqb (JS.strip_prefix "W/" a) (JS.strip_prefix "W/" b).

Section Static.

Variables BUILD_ID INTERNAL_PREFIX : string.

Definition cacheKey : string := INTERNAL_PREFIX +:+ "_cache_id".
Definition cacheControl : string := "public, max-age=31536000, immutable".

(** A string is truthy unless it is empty. *)
Definition nonempty (s : option string) : bool :=
  match s with
  | Some s => negb (String.eqb s "")
  | None => false
  end.

(** The [handler] registered for [file]: [req_headers] are the request's
    headers, [url] is [ctx.url]. *)
Definition handler (file : File) (req_headers : gmap string string)
    (url : URL) : Response :=
  let cacheId := searchParams_get cacheKey url in
  let headers : gmap string string :=
    <["etag" := file_etag file]>
      (<["vary" := "If-None-Match"]> {[ "content-type" := file_type file ]}) in
  if nonempty cacheId && negb (bool_decide (cacheId = Some BUILD_ID)) then
    redirect (searchParams_delete cacheKey url)
  else
    let headers :=
      if nonempty cacheId then <["cache-control" := cacheControl]> headers
      else headers in
    if etagsMatch (file_etag file) (default "" (req_headers !! "if-none-match"))
    then {| status := HTTPStatus.NotModified; headers := headers;
            body := None |}
    else {| status := HTTPStatus.OK; headers := headers;
            body := Some (file_content file) |}.

(** What [indexStatic] registers for a file, unless the file is ignored;
    the files are the assets as their processors left them. *)
Record StaticRoute : Type := {
  method : string;
  pattern : string;
  route_handler : gmap string string -> URL -> Response;
  initialisesResponse : bool;
}.

Definition indexStatic (ignorePattern : option (string -> bool))
    (files : list File) : list StaticRoute :=
  omap (fun file =>
          if match ignorePattern with
             | Some test => test (file_pathname file)
             | None => false
             end
          then None
          else Some {| method := "GET";
                       pattern := pathToPattern (file_pathname file);
                       route_handler := handler file;
                       initialisesResponse := true |})
       files.

End Static.
End Indexer.

(** ** Notions used in the statements *)

Module Examples.

Import Listen.

Definition statusText (n : Z) : option string :=
  if n =? 200 then Some "OK"
  else if n =? 404 then Some "Not Found"
  else if n =? 500 then Some "Internal Server Error"
  else if n =? 501 then Some "Not Implemented"
  else None.

Definition mediaType (lookup : string) : option string :=
  if String.eqb lookup "json" then Some "application/json; charset=UTF-8"
  else None.

(** Its results are header values. *)
Definition mediaType_value (lookup t : string) :
  mediaType lookup = Some t -> t <> "" /\ Headers.stored t = true.
Proof.
  unfold mediaType. destruct (String.eqb lookup "json"); [|discriminate].
  intros [= <-]. split; [discriminate | reflexivity].
Qed.

(** A header that names [name] among its comma-separated options,
    whatever the case. *)
Definition has_option (name : string) (value : option string) : bool :=
  match value with
  | Some v =>
      existsb (fun o => String.eqb (Headers.lower (Headers.normalize o)) name)
              (JS.split "," v)
  | None => false
  end.

(** The test that [Deno.upgradeWebSocket] makes on the request. *)
Definition handshake (headers : gmap string string) : bool :=
  has_option "websocket" (headers !! "upgrade")
  && has_option "upgrade" (headers !! "connection")
  && truthy (headers !! "sec-websocket-key").

(** A runtime with strings for JSON values, no files, the pathname
    fragment of [URLPattern], and in which the sockets of the handshakes
    before the eighth are closed and the others open. *)
Definition platform : Platform :=
  {| JSValue := string;
     FormData := string;
     req_json := Some;
     req_formData := Some;
     JSON_stringify := Some;
     isMapOrSet := fun _ => false;
     spread := fun v => v;
     HTTPStatusText_get := statusText;
     contentType := mediaType;
     basename := fun f => f;
     readTextFile := fun _ => None;
     canOpen := fun _ => false;
     getCookies := fun _ => ∅;
     URLSearchParams := fun _ => [];
     URLPattern_exec := URLPattern.exec;
     acceptsUpgrade := handshake;
     canSend := fun s => (7 <=? s)%nat;
     contentType_value := mediaType_value |}.

(** The headers of a complete handshake request. *)
Definition upgrade_headers : gmap string string :=
  {[ "upgrade" := "websocket"; "connection" := "Upgrade";
     "sec-websocket-key" := "dGhlIHNhbXBsZSBub25jZQ==" ]}.

Definition request (method path : string) (headers : gmap string string)
  : @Request :=
  {| rq_method := method;
     rq_hostname := "127.0.0.1";
     rq_url := {| href := "http://localhost:3000" +:+ path;
                  pathname := path; search := "" |};
     rq_headers := headers;
     rq_body := None |}.

(** A callback that does not catch what an operation throws. *)
Definition rethrow (r : @Reply platform) (k : @Callback platform)
  : @Callback platform :=
  match r with
  | Raised e => Throw e
  | _ => k
  end.

Definition hello : @Callback platform :=
  Call (SetBody (BodyString "hello")) (fun _ => Return).

Definition failing : @Callback platform :=
  Call (SetBody (BodyString "partial")) (fun _ => Throw (Thrown "boom")).

Definition powered_by : @Callback platform :=
  Call (HeadersSet "x-powered-by" "nadder") (fun _ => Return).

Definition open_socket : @Callback platform :=
  Call Socket (fun r => rethrow r Return).

Definition download : @Callback platform :=
  Call (MarkForDownload None) (fun _ => Return).

Definition hello_routes : list (@Route platform) :=
  handleRoute [] "GET" "/a" hello.

Definition any_routes : list (@Route platform) :=
  handleRoute [] "*" "/a" hello.

Definition failing_routes : list (@Route platform) :=
  handleRoute [] "GET" "/a" failing.

Definition socket_routes : list (@Route platform) :=
  handleRoute [] "GET" "/ws" open_socket.

Definition one_middleware : list (@Callback platform) :=
  useMiddleware [] powered_by.

Definition binary : @Callback platform :=
  Call (BufferSet 0 "abc") (fun _ =>
    Call (SetBody (BodyBuffer 0)) (fun _ => Return)).

Definition overwrite : @Callback platform :=
  Call (BufferSet 0 "xyz") (fun _ => Return).

Definition binary_routes : list (@Route platform) :=
  handleRoute [] "GET" "/bin" binary.

Definition rooms : gmap string (list WebSocket) :=
  {[ "room1" := [7; 8]%nat ]}.

Definition join_room1 : @Callback platform :=
  Call (Join "room1") (fun r => rethrow r Return).

Definition join_routes : list (@Route platform) :=
  handleRoute [] "GET" "/ws" join_room1.

(** The same runtime, except that no request body parses as JSON. *)
Definition rejecting_platform : Platform :=
  {| JSValue := string;
     FormData := string;
     req_json := fun _ => None;
     req_formData := Some;
     JSON_stringify := Some;
     isMapOrSet := fun _ => false;
     spread := fun v => v;
     HTTPStatusText_get := statusText;
     contentType := mediaType;
     basename := fun f => f;
     readTextFile := fun _ => None;
     canOpen := fun _ => false;
     getCookies := fun _ => ∅;
     URLSearchParams := fun _ => [];
     URLPattern_exec := URLPattern.exec;
     acceptsUpgrade := handshake;
     canSend := fun s => (7 <=? s)%nat;
     contentType_value := mediaType_value |}.

Definition broken_json : @Request :=
  {| rq_method := "POST";
     rq_hostname := "127.0.0.1";
     rq_url := {| href := "http://localhost:3000/a";
                  pathname := "/a"; search := "" |};
     rq_headers := {[ "content-type" := "application/json" ]};
     rq_body := Some "{" |}.

(** [extname]: from the last dot of the last segment, unless that dot
    comes first. *)
Definition ext_of (pathname : string) : string :=
  let seg := rev (JS.chars (default "" (last (JS.split "/" pathname)))) in
  let tail := JS.take_while (fun c => negb (Ascii.eqb c ".")) seg in
  match drop (length tail) seg with
  | _ :: _ :: _ => JS.str ("."%char :: rev tail)
  | _ => ""
  end.

(** A manifest without exports, with parsers that reject the content
    [{] and the pathname fragment of [URLPattern]. *)
Definition loader : Indexer.Loader :=
  {| Indexer.extname := ext_of;
     Indexer.parses := fun _ content => negb (String.eqb content "{");
     Indexer.exportsPattern := fun _ => false;
     Indexer.URLPattern_accepts := URLPattern.valid;
     Indexer.hasFrontmatter := JS.startsWith "---";
     Indexer.extractsFrontmatter := fun _ => true |}.

Definition route_file (pathname content : string) : Indexer.File :=
  {| Indexer.file_pathname := pathname;
     Indexer.file_type := "";
     Indexer.file_etag := "";
     Indexer.file_content := content |}.

Definition style_css : Indexer.File :=
  {| Indexer.file_pathname := "/style.css";
     Indexer.file_type := "text/css";
     Indexer.file_etag := "abc";
     Indexer.file_content := "body { margin: 0 }" |}.

Definition style_url (params : list (string * string)) : Indexer.URL :=
  {| Indexer.origin := "http://localhost:3000";
     Indexer.pathname := "/style.css";
     Indexer.searchParams := params;
     Indexer.hash := "" |}.

End Examples.

(** The conditional response of a static asset: 304 without a body when
    the [if-none-match] header (the empty string when absent) matches the
    asset's ETag up to a leading [W/], 200 with the content otherwise; the
    ETag header is set in both. *)
Definition conditional_response (file : Indexer.File)
    (req_headers : gmap string string) (r : Indexer.Response) : Prop :=
  Indexer.headers r !! "etag" = Some (Indexer.file_etag file)
  /\ if Indexer.etagsMatch (Indexer.file_etag file)
          (default "" (req_headers !! "if-none-match"))
     then Indexer.status r = 304 /\ Indexer.body r = None
     else Indexer.status r = 200
          /\ Indexer.body r = Some (Indexer.file_content file).

(** A 3xx response whose [location] is the URL's path without any query. *)
Definition redirects_to_bare_path (url : Indexer.URL) (r : Indexer.Response)
  : Prop :=
  300 <= Indexer.status r < 400
  /\ Indexer.headers r !! "location"
     = Some (Indexer.origin url +:+ Indexer.pathname url).

(** ** The manifest indexer *)

Lemma append_empty_r (s : string) : s +:+ "" = s.
Proof.
  induction s as [|c s IH]; [reflexivity|].
  change (String c (s +:+ "") = String c s). now rewrite IH.
Qed.

Lemma single_digit_toNumber (c : ascii) (n : Z) :
  JS.toNumber (String c EmptyString) = Some n -> 0 <= n <= 9.
Proof.
  unfold JS.toNumber. cbn [JS.chars list_ascii_of_string forallb].
  destruct (JS.is_digit c) eqn:Hd; cbn [andb]; [|discriminate].
  intros [= <-]. unfold JS.digits_value. cbn [fold_left].
  unfold JS.is_digit in Hd. apply andb_prop in Hd as [Hlo Hhi].
  apply Nat.leb_le in Hlo, Hhi. lia.
Qed.

(** The value tested by [isErrorStatus] is the number of one character. *)
Lemma isErrorHandler_false (pathname : string) :
  Indexer.isErrorHandler pathname = false.
Proof.
  unfold Indexer.isErrorHandler, Indexer.second_char, Indexer.unary_plus.
  destruct (Indexer.match_status pathname) as [s|]; cbn; [|reflexivity].
  destruct (String.get 1 s) as [c|]; cbn; [|reflexivity].
  destruct (JS.toNumber (String c EmptyString)) as [n|] eqn:Hn; [|reflexivity].
  apply single_digit_toNumber in Hn. cbn.
  destruct (400 <=? n) eqn:Hle; [|reflexivity].
  apply Z.leb_le in Hle. lia.
Qed.

(** A part that is not a [[...name]] part is left as it is. *)
Lemma map_part_not_repeated (part : string) :
  JS.startsWith "[..." part = false -> Indexer.map_part part = part.
Proof.
  intros Hns. unfold Indexer.map_part. rewrite Hns.
  destruct (JS.endsWith "]" part); reflexivity.
Qed.

(** The sibling branch for [[...name]] parts does return its pattern. *)
Example pathToPattern_repeated :
  Indexer.pathToPattern "/docs/[...path]" = "/docs/:path*".
Proof. reflexivity. Qed.

Example pathToPattern_marker :
  Indexer.pathToPattern "/admin/_middleware" = "/admin/*?".
Proof. reflexivity. Qed.

(** That pattern matches the paths below [/admin]. *)
Example middleware_pattern_matches_below :
  URLPattern.valid "/admin/*?" = true
  /\ URLPattern.exec_pathname "/admin/*?" "/admin/users/1"
     = Some {[ "0" := "users/1" ]}
  /\ URLPattern.exec_pathname "/admin/*?" "/other" = None.
Proof. repeat split; vm_compute; reflexivity. Qed.

(** C4 (the code differs): for the route file [/blog/[slug]/index.md]
    [pathToPattern] elides the final [index] segment but leaves [[slug]]
    as it is: the pathname of the pattern is [/blog/[slug]], which is
    literal text for [URLPattern]; it matches the path [/blog/[slug]] only
    and not [/blog/hello-world], whereas [/blog/:slug] would extract
    [slug = hello-world]. *)
Theorem pathToPattern_named_part_stays_literal :
  Indexer.route_pattern "/blog/[slug]/index.md" ".md" = "/blog/[slug]"
  /\ URLPattern.exec_pathname "/blog/[slug]" "/blog/hello-world" = None
  /\ URLPattern.exec_pathname "/blog/[slug]" "/blog/[slug]" = Some ∅
  /\ URLPattern.exec_pathname "/blog/:slug" "/blog/hello-world"
     = Some {[ "slug" := "hello-world" ]}.
Proof. repeat split; vm_compute; reflexivity. Qed.

(** C7 (the code differs): no route file is classified as an error
    handler. For [/_404.md] the status [404] is captured, but the test is
    made on its second character, so the file is indexed as a page, and
    skipped like a page when the ignore pattern matches it; [_data] and
    [_middleware] files do register regardless of the ignore pattern. *)
Theorem status_file_indexed_as_page :
  Indexer.match_status "/_404.md" = Some "404"
  /\ Indexer.isErrorHandler "/_404.md" = false
  /\ Indexer.indexRoute None "/_404.md" = Some Indexer.AsPage
  /\ Indexer.indexRoute (Some (fun _ => true)) "/_404.md" = None
  /\ Indexer.indexRoute (Some (fun _ => true)) "/_data.json"
     = Some Indexer.AsData
  /\ Indexer.indexRoute (Some (fun _ => true)) "/_middleware.ts"
     = Some Indexer.AsMiddleware.
Proof. repeat split; vm_compute; reflexivity. Qed.

(** No file at all reaches [useErrorHandler]. *)
Lemma indexRoute_never_error_handler ignorePattern pathname status :
  Indexer.indexRoute ignorePattern pathname
  <> Some (Indexer.AsErrorHandler status).
Proof.
  unfold Indexer.indexRoute. rewrite isErrorHandler_false.
  repeat match goal with
         | |- context [if ?b then _ else _] => destruct b
         end; discriminate.
Qed.

Section StaticFacts.

Variables BUILD_ID INTERNAL_PREFIX : string.

Implicit Types (file : Indexer.File) (url : Indexer.URL).
Implicit Types (req_headers : gmap string string).

Lemma handler_fresh file req_headers url :
  Indexer.nonempty
    (Indexer.searchParams_get (Indexer.cacheKey INTERNAL_PREFIX) url)
  && negb (bool_decide
             (Indexer.searchParams_get (Indexer.cacheKey INTERNAL_PREFIX) url
              = Some BUILD_ID))
  = false ->
  conditional_response file req_headers
    (Indexer.handler BUILD_ID INTERNAL_PREFIX file req_headers url).
Proof.
  intros Hguard. unfold Indexer.handler.
  rewrite Hguard. unfold conditional_response.
  split.
  - destruct (Indexer.etagsMatch _ _);
      destruct (Indexer.nonempty _); cbn [Indexer.headers];
      rewrite ?(lookup_insert_ne _ "cache-control" "etag") by discriminate;
      apply lookup_insert_eq.
  - destruct (Indexer.etagsMatch _ _); cbn; split; reflexivity.
Qed.

(** C5 (amended): when the request's cache-id parameter is absent, empty
    or equal to the current build id, the handler answers 304 with no
    body if the [if-none-match] header (the empty string when absent)
    equals the asset's ETag up to a leading [W/] on either side, and 200
    with the asset's content otherwise; the ETag header is set in both. *)
Theorem handler_conditional_response file req_headers url :
  Indexer.searchParams_get (Indexer.cacheKey INTERNAL_PREFIX) url
    = None
  \/ Indexer.searchParams_get (Indexer.cacheKey INTERNAL_PREFIX) url
    = Some ""
  \/ Indexer.searchParams_get (Indexer.cacheKey INTERNAL_PREFIX) url
    = Some BUILD_ID ->
  conditional_response file req_headers
    (Indexer.handler BUILD_ID INTERNAL_PREFIX file req_headers url).
Proof.
  intros Hid. apply handler_fresh.
  destruct Hid as [-> | [-> | ->]]; cbn; try reflexivity.
  rewrite bool_decide_eq_true_2 by reflexivity. apply andb_false_r.
Qed.

(** C6 (amended): when the request carries a non-empty cache-id value
    that differs from the current build id, the handler answers with a
    302 redirect to the request URL without its cache-id parameters, the
    other query parameters being kept; when the cache-id parameters are
    the whole query (and there is no fragment), that is the bare path. *)
Theorem handler_stale_cache_redirect file req_headers url cacheId :
  Indexer.searchParams_get (Indexer.cacheKey INTERNAL_PREFIX) url
    = Some cacheId ->
  cacheId <> "" ->
  cacheId <> BUILD_ID ->
  let r :=
    Indexer.handler BUILD_ID INTERNAL_PREFIX file req_headers url in
  let target :=
    Indexer.searchParams_delete (Indexer.cacheKey INTERNAL_PREFIX) url in
  Indexer.status r = 302
  /\ Indexer.body r = None
  /\ Indexer.headers r !! "location" = Some (Indexer.href target)
  /\ Indexer.searchParams_get (Indexer.cacheKey INTERNAL_PREFIX)
       target = None
  /\ Indexer.origin target = Indexer.origin url
  /\ Indexer.pathname target = Indexer.pathname url
  /\ (Indexer.searchParams target = [] -> Indexer.hash url = "" ->
      redirects_to_bare_path url r).
Proof.
  intros Hget Hne Hstale r target. subst r.
  unfold Indexer.handler. rewrite Hget.
  assert (Indexer.nonempty (Some cacheId) = true) as ->.
  { cbn. destruct (String.eqb_spec cacheId ""); [contradiction|].
    reflexivity. }
  rewrite bool_decide_eq_false_2 by congruence.
  cbn [andb negb]. fold target.
  assert (Hloc : Indexer.headers (Indexer.redirect target) !! "location"
                 = Some (Indexer.href target)) by apply lookup_insert_eq.
  split; [reflexivity|]. split; [reflexivity|]. split; [exact Hloc|].
  split.
  { unfold Indexer.searchParams_get, target, Indexer.searchParams_delete.
    cbn [Indexer.searchParams].
    destruct (List.find _ _) as [p|] eqn:Hfind; [|reflexivity].
    apply List.find_some in Hfind as [Hin Hkey].
    apply List.filter_In in Hin as [_ Hnot].
    rewrite Hkey in Hnot. discriminate. }
  split; [reflexivity|]. split; [reflexivity|].
  intros Hempty Hhash. split; [cbn; lia|].
  rewrite Hloc. unfold Indexer.href. rewrite Hempty.
  cbn [target Indexer.searchParams_delete Indexer.origin Indexer.pathname
       Indexer.hash].
  rewrite Hhash, !append_empty_r. reflexivity.
Qed.

End StaticFacts.

(** With a stale cache id the conditional response is not given, even
    though the [if-none-match] header equals the ETag: the redirect comes
    first and carries no ETag header. *)
Lemma stale_cache_id_preempts_conditional_response :
  ~ conditional_response Examples.style_css {[ "if-none-match" := "abc" ]}
      (Indexer.handler "NEW" "_nadder" Examples.style_css
         {[ "if-none-match" := "abc" ]}
         (Examples.style_url [("_nadder_cache_id", "OLD")])).
Proof. intros [Hetag _]. vm_compute in Hetag. discriminate. Qed.

Lemma handler_conditional_response_witness :
  Indexer.searchParams_get (Indexer.cacheKey "_nadder")
    (Examples.style_url [("_nadder_cache_id", "NEW")]) = Some "NEW"
  /\ conditional_response Examples.style_css {[ "if-none-match" := "W/abc" ]}
       (Indexer.handler "NEW" "_nadder" Examples.style_css
          {[ "if-none-match" := "W/abc" ]}
          (Examples.style_url [("_nadder_cache_id", "NEW")])).
Proof.
  split; [reflexivity|].
  apply (handler_conditional_response "NEW" "_nadder").
  right; right; reflexivity.
Defined.

(** The weak comparison on the examples of the specification. *)
Example etagsMatch_examples :
  Indexer.etagsMatch "abc" "abc" = true
  /\ Indexer.etagsMatch "abc" "W/abc" = true
  /\ Indexer.etagsMatch "W/abc" "abc" = true
  /\ Indexer.etagsMatch "abc" "xyz" = false.
Proof. repeat split. Qed.

(** An empty cache id differs from the build id, and yet the request is
    answered with the asset (status 200), not with a redirect. *)
Lemma empty_cache_id_not_redirected :
  Indexer.searchParams_get (Indexer.cacheKey "_nadder")
    (Examples.style_url [("_nadder_cache_id", "")]) = Some ""
  /\ "" <> "NEW"
  /\ ~ redirects_to_bare_path (Examples.style_url [("_nadder_cache_id", "")])
         (Indexer.handler "NEW" "_nadder" Examples.style_css ∅
            (Examples.style_url [("_nadder_cache_id", "")])).
Proof.
  split; [reflexivity|]. split; [discriminate|].
  intros [[Hlo _] _]. vm_compute in Hlo. apply Hlo. reflexivity.
Qed.

(** The other parameters of the query survive the redirect. *)
Example redirect_keeps_other_parameters :
  Indexer.headers
    (Indexer.handler "NEW" "_nadder" Examples.style_css ∅
       (Examples.style_url [("v", "1"); ("_nadder_cache_id", "OLD")]))
  !! "location"
  = Some "http://localhost:3000/style.css?v=1".
Proof. vm_compute. reflexivity. Qed.

(** They are serialized anew, in the form-urlencoded way. *)
Example redirect_encodes_other_parameters :
  Indexer.headers
    (Indexer.handler "NEW" "_nadder" Examples.style_css ∅
       (Examples.style_url [("q", "a b&c"); ("_nadder_cache_id", "OLD")]))
  !! "location"
  = Some "http://localhost:3000/style.css?q=a+b%26c".
Proof. vm_compute. reflexivity. Qed.

Lemma handler_stale_cache_redirect_witness :
  redirects_to_bare_path (Examples.style_url [("_nadder_cache_id", "OLD")])
    (Indexer.handler "NEW" "_nadder" Examples.style_css ∅
       (Examples.style_url [("_nadder_cache_id", "OLD")])).
Proof.
  apply (handler_stale_cache_redirect "NEW" "_nadder" Examples.style_css ∅
           (Examples.style_url [("_nadder_cache_id", "OLD")]) "OLD");
    first [reflexivity | discriminate].
Defined.

(** ** The dispatcher *)

Import Listen.

Section ListenFacts.

Context `{Platform}.

Implicit Types (w : World) (cb : Callback) (op : Op).

(** *** What the steps of a callback leave alone *)

Lemma stable_refl w : stable w w.
Proof. split; intros; try split; reflexivity. Qed.

Lemma stable_trans w1 w2 w3 : stable w1 w2 -> stable w2 w3 -> stable w1 w3.
Proof.
  intros H12 H23. split.
  - rewrite (stable_frozen _ _ H23). apply H12.
  - rewrite (stable_sent _ _ H23). apply H12.
  - rewrite (stable_available _ _ H23). apply H12.
  - rewrite (stable_invoked _ _ H23). apply H12.
  - rewrite (stable_method _ _ H23). apply H12.
  - rewrite (stable_url _ _ H23). apply H12.
  - rewrite (stable_headers _ _ H23). apply H12.
  - intros Hf. destruct (stable_res _ _ H12 Hf) as [Hb Hs].
    assert (Hf2 : frozen (ctx w2) = true)
      by (rewrite (stable_frozen _ _ H12); exact Hf).
    destruct (stable_res _ _ H23 Hf2) as [Hb' Hs'].
    split; congruence.
  - intros Hset. destruct (stable_socket _ _ H12 Hset) as [Hsock Hup].
    assert (Hset2 : settled w2 = true).
    { unfold settled in *.
      rewrite (stable_available _ _ H12), (stable_sent _ _ H12),
        (stable_headers _ _ H12), Hsock.
      exact Hset. }
    destruct (stable_socket _ _ H23 Hset2) as [Hsock' Hup'].
    split; congruence.
Qed.

Lemma settled_preserved w w' :
  stable w w' -> settled w = true -> settled w' = true.
Proof.
  intros Hs Hset. unfold settled in *.
  rewrite (stable_available _ _ Hs), (stable_sent _ _ Hs),
    (stable_headers _ _ Hs), (proj1 (stable_socket _ _ Hs Hset)).
  exact Hset.
Qed.

Ltac stable_step :=
  intros w; split; cbn; intros; try split; reflexivity.

Lemma respects_ret {A} (a : A) : respects (ret a).
Proof. intros w. apply stable_refl. Qed.

Lemma respects_throw {A} (e : Error) : respects (@throw _ A e).
Proof. intros w. apply stable_refl. Qed.

Lemma respects_gets {A} (f : World -> A) : respects (gets f).
Proof. intros w. apply stable_refl. Qed.

Lemma respects_bind {A B} (m : M A) (k : A -> M B) :
  respects m -> (forall a, respects (k a)) -> respects (bind m k).
Proof.
  intros Hm Hk w. unfold bind. specialize (Hm w).
  destruct (m w) as [[e|a] w']; cbn in *; [exact Hm|].
  eapply stable_trans; [exact Hm | apply Hk].
Qed.

Lemma respects_try_catch {A} (m : M A) (h : Error -> M A) :
  respects m -> (forall e, respects (h e)) -> respects (try_catch m h).
Proof.
  intros Hm Hh w. unfold try_catch. specialize (Hm w).
  destruct (m w) as [[e|a] w']; cbn in *; [|exact Hm].
  eapply stable_trans; [exact Hm | apply Hh].
Qed.

Lemma respects_assign (f : Res -> Res) :
  (forall r, sent (f r) = sent r) -> respects (assign f).
Proof.
  intros Hf w. unfold assign.
  destruct (frozen (ctx w)) eqn:Hfr; cbn; [apply stable_refl|].
  split; cbn; intros; try split; try reflexivity; congruence.
Qed.

Lemma respects_modify (f : World -> World) :
  (forall w, stable w (f w)) -> respects (modify f).
Proof. intros Hf w. apply Hf. Qed.

Lemma respects_headers_set k v : respects (headers_set k v).
Proof.
  unfold headers_set. cbv zeta.
  destruct (_ && _); [stable_step | apply respects_throw].
Qed.

Lemma respects_headers_delete k : respects (headers_delete k).
Proof.
  unfold headers_delete.
  destruct (Headers.valid_name k); [stable_step | apply respects_throw].
Qed.

Lemma respects_buffer_set ref bytes : respects (buffer_set ref bytes).
Proof. stable_step. Qed.

Lemma respects_log l : respects (log l).
Proof. stable_step. Qed.

Lemma respects_send data s : respects (send data s).
Proof.
  intros w. unfold send.
  destruct (sendable w s); [|apply stable_refl].
  split; cbn; intros; try split; reflexivity.
Qed.

Lemma respects_removeSocketFromChannel name s :
  respects (removeSocketFromChannel name s).
Proof. stable_step. Qed.

Lemma respects_addSocketToChannel name s :
  respects (addSocketToChannel name s).
Proof. stable_step. Qed.

Lemma respects_for_each {A} (f : A -> M unit) (l : list A) :
  (forall a, respects (f a)) -> respects (for_each f l).
Proof.
  intros Hf. induction l as [|a l IH]; cbn [for_each].
  - apply respects_ret.
  - apply respects_bind; [apply Hf | intros _; exact IH].
Qed.

Create HintDb respects.

#[local] Hint Resolve respects_ret respects_throw respects_gets
  respects_headers_set respects_headers_delete respects_buffer_set
  respects_log respects_send
  respects_removeSocketFromChannel respects_addSocketToChannel : respects.

Ltac respects :=
  repeat first
    [ apply respects_bind; [|intros ?]
    | apply respects_try_catch; [|intros ?]
    | apply respects_assign; intros ?; reflexivity
    | apply respects_for_each; intros ?
    | solve [auto with respects]
    | match goal with
      | |- respects (match ?x with _ => _ end) => destruct x
      | |- respects (if ?b then _ else _) => destruct b
      end ].

Lemma respects_sendStatus n : respects (sendStatus n).
Proof. unfold sendStatus. respects. Qed.

Lemma respects_inferContentType l : respects (inferContentType l).
Proof. unfold inferContentType. respects. Qed.

Lemma respects_markForDownload f : respects (markForDownload f).
Proof. unfold markForDownload. respects. Qed.

#[local] Hint Resolve respects_sendStatus respects_inferContentType
  respects_markForDownload : respects.

Lemma respects_sendJSON data : respects (sendJSON data).
Proof. unfold sendJSON. cbv zeta. respects. Qed.

Lemma respects_sendFile f : respects (sendFile f).
Proof. unfold sendFile. respects. Qed.

Lemma respects_sendFileStream f : respects (sendFileStream f).
Proof. unfold sendFileStream. respects. Qed.

Lemma respects_upgrade_socket : respects upgrade_socket.
Proof.
  intros w. unfold upgrade_socket. cbv zeta.
  destruct (available (ctx w)) eqn:Hav; cbn [negb]; [|apply stable_refl].
  destruct (truthy (socket (ctx w)) || sent (res (ctx w))) eqn:Hs;
    [apply stable_refl|].
  unfold bind, upgradeWebSocket.
  destruct (acceptsUpgrade (headers (req (ctx w)))) eqn:Hacc;
    [|apply stable_refl].
  split; cbn; intros; try split; try reflexivity.
  all: unfold settled in *; rewrite Hav, Hacc in *; cbn [negb orb] in *;
    rewrite orb_false_r in *; congruence.
Qed.

#[local] Hint Resolve respects_sendJSON respects_sendFile
  respects_sendFileStream respects_upgrade_socket : respects.

Lemma respects_channel_join name : respects (channel_join name).
Proof. unfold channel_join. respects. stable_step. Qed.

Lemma respects_channel_broadcast m : respects (channel_broadcast m).
Proof. unfold channel_broadcast. respects. Qed.

Lemma snd_answer {A} (f : A -> Reply) (m : M A) w :
  snd (answer f m w) = snd (m w).
Proof. unfold answer. destruct (m w) as [[e|a] w']; reflexivity. Qed.

Lemma perform_stable op w : stable w (snd (perform op w)).
Proof.
  destruct op; cbn [perform]; rewrite snd_answer;
    first
      [ apply respects_gets | apply respects_headers_set
      | apply respects_headers_delete | apply respects_buffer_set
      | apply respects_sendStatus
      | apply respects_sendJSON | apply respects_sendFile
      | apply respects_sendFileStream | apply respects_inferContentType
      | apply respects_markForDownload | apply respects_upgrade_socket
      | apply respects_channel_join | apply respects_channel_broadcast
      | apply respects_assign; intros ?; reflexivity ].
Qed.

Lemma run_stable cb w : stable w (snd (run cb w)).
Proof.
  revert w. induction cb as [| e | op k IH]; intros w; cbn [run].
  - apply stable_refl.
  - apply stable_refl.
  - destruct (perform op w) as [r w'] eqn:Hp.
    eapply stable_trans; [|apply IH].
    replace w' with (snd (perform op w)) by (rewrite Hp; reflexivity).
    apply perform_stable.
Qed.

(** *** The frozen response *)

Lemma assign_frozen (f : Res -> Res) w :
  frozen (ctx w) = true -> assign f w = (inl TypeError, w).
Proof. intros Hf. unfold assign. rewrite Hf. reflexivity. Qed.

Lemma sendStatus_frozen n w :
  frozen (ctx w) = true -> sendStatus n w = (inl TypeError, w).
Proof.
  intros Hf. unfold sendStatus, bind. rewrite assign_frozen by exact Hf.
  reflexivity.
Qed.

Lemma sendStatus_unfrozen n w :
  frozen (ctx w) = false ->
  fst (sendStatus n w) = inr tt
  /\ res_status (res (ctx (snd (sendStatus n w)))) = n
  /\ res_headers (res (ctx (snd (sendStatus n w)))) = res_headers (res (ctx w)).
Proof.
  intros Hf. unfold sendStatus, bind, assign. rewrite Hf. cbn. rewrite Hf.
  cbn. repeat split.
Qed.

Lemma finalize_flags w :
  sent (res (ctx (finalize w))) = true /\ frozen (ctx (finalize w)) = true.
Proof. split; reflexivity. Qed.

(** C9 (amended): once a request is finalized ([sent] is true and the
    response facet frozen), whatever code still holds the context cannot
    change the facet's [body], [status] or [sent] properties nor replace
    its [headers] object: every such assignment, and [sendStatus] with it,
    is rejected with a [TypeError] and changes nothing. The freeze is
    shallow: it does not cover the objects that the properties refer to.
    An entry of the [Headers] object can still be set (a header that
    [Headers] accepts is stored exactly as before the freeze), and the
    bytes of a buffer, be it the one that [body] refers to, can still be
    overwritten while the [body] property stays the same reference. *)
Theorem finalized_response_fields_fixed
    routes middleware rq connections n cb :
  let w := snd (listenAndServe routes middleware rq connections n) in
  let w' := snd (run cb w) in
  sent (res (ctx w)) = true /\ frozen (ctx w) = true
  /\ sent (res (ctx w')) = true /\ frozen (ctx w') = true
  /\ res_body (res (ctx w')) = res_body (res (ctx w))
  /\ res_status (res (ctx w')) = res_status (res (ctx w))
  /\ (forall b, perform (SetBody b) w' = (Raised TypeError, w'))
  /\ (forall s, perform (SetStatus s) w' = (Raised TypeError, w'))
  /\ (forall h, perform (SetHeaders h) w' = (Raised TypeError, w'))
  /\ (forall s, perform (SendStatus s) w' = (Raised TypeError, w'))
  /\ (forall k v,
        if Headers.valid_name k && Headers.valid_value (Headers.normalize v)
        then fst (perform (HeadersSet k v) w') = Unit
             /\ res_headers (res (ctx (snd (perform (HeadersSet k v) w'))))
                !! Headers.lower k
                = Some (Headers.normalize v)
        else perform (HeadersSet k v) w' = (Raised TypeError, w'))
  /\ (forall ref bytes,
        fst (perform (BufferSet ref bytes) w') = Unit
        /\ buffers (snd (perform (BufferSet ref bytes) w')) !! ref
           = Some bytes
        /\ res_body (res (ctx (snd (perform (BufferSet ref bytes) w'))))
           = res_body (res (ctx w'))).
Proof.
  intros w w'.
  assert (Hsent : sent (res (ctx w)) = true) by reflexivity.
  assert (Hfrozen : frozen (ctx w) = true) by reflexivity.
  pose proof (run_stable cb w) as Hs. fold w' in Hs.
  assert (Hfrozen' : frozen (ctx w') = true)
    by (rewrite (stable_frozen _ _ Hs); exact Hfrozen).
  destruct (stable_res _ _ Hs Hfrozen) as [Hbody Hstatus].
  split; [exact Hsent|]. split; [exact Hfrozen|].
  split; [rewrite (stable_sent _ _ Hs); exact Hsent|].
  split; [exact Hfrozen'|]. split; [exact Hbody|]. split; [exact Hstatus|].
  split; [|split; [|split; [|split; [|split]]]].
  - intros b. cbn [perform]. unfold answer.
    rewrite assign_frozen by exact Hfrozen'. reflexivity.
  - intros s. cbn [perform]. unfold answer.
    rewrite assign_frozen by exact Hfrozen'. reflexivity.
  - intros h. cbn [perform]. unfold answer.
    rewrite assign_frozen by exact Hfrozen'. reflexivity.
  - intros s. cbn [perform]. unfold answer.
    rewrite sendStatus_frozen by exact Hfrozen'. reflexivity.
  - intros k v. cbn [perform]. unfold answer, headers_set. cbv zeta.
    destruct (_ && _); [|reflexivity].
    cbn. split; [reflexivity | apply lookup_insert_eq].
  - intros ref bytes. cbn. split; [reflexivity|].
    split; [apply lookup_insert_eq | reflexivity].
Qed.

(** *** The upgrade socket *)

Lemma upgrade_socket_settled w :
  settled w = true -> upgrade_socket w = (settled_outcome w, w).
Proof.
  unfold settled, settled_outcome, upgrade_socket. cbv zeta.
  destruct (available (ctx w)); cbn [negb orb]; [|reflexivity].
  destruct (truthy (socket (ctx w)) || sent (res (ctx w)));
    cbn [orb]; [reflexivity|].
  intros Hacc. apply negb_true_iff in Hacc.
  unfold bind, upgradeWebSocket. rewrite Hacc. reflexivity.
Qed.

Lemma upgrade_socket_settles w :
  let w1 := snd (upgrade_socket w) in
  settled w1 = true /\ fst (upgrade_socket w) = settled_outcome w1.
Proof.
  unfold settled, settled_outcome, upgrade_socket. cbv zeta.
  destruct (available (ctx w)) eqn:Hav; cbn [negb orb].
  - destruct (truthy (socket (ctx w)) || sent (res (ctx w))) eqn:Hs;
      cbn [fst snd].
    + rewrite Hav. cbn [negb orb]. rewrite Hs. split; reflexivity.
    + unfold bind, upgradeWebSocket.
      destruct (acceptsUpgrade (headers (req (ctx w)))) eqn:Hacc.
      * cbn. rewrite Hav. split; reflexivity.
      * cbn [fst snd]. rewrite Hav. cbn [negb orb]. rewrite Hs, Hacc.
        split; reflexivity.
  - cbn [fst snd]. rewrite Hav. split; reflexivity.
Qed.

Lemma settled_outcome_stable w w' :
  stable w w' -> settled w = true -> settled_outcome w' = settled_outcome w.
Proof.
  intros Hs Hset. unfold settled_outcome.
  rewrite (stable_available _ _ Hs), (stable_sent _ _ Hs),
    (proj1 (stable_socket _ _ Hs Hset)).
  reflexivity.
Qed.

Lemma finalize_stable_socket w :
  settled (finalize w) = true
  /\ settled_outcome (finalize w)
     = inr (if available (ctx w) then socket (ctx w) else None)
  /\ available (ctx (finalize w)) = available (ctx w)
  /\ socket (ctx (finalize w)) = socket (ctx w).
Proof.
  unfold settled, settled_outcome. cbn. repeat split.
  - destruct (available (ctx w)), (socket (ctx w)); reflexivity.
  - destruct (available (ctx w)); cbn [negb]; [|reflexivity].
    rewrite orb_true_r. reflexivity.
Qed.

(** C8 (amended): within one request a later call of the upgrade-socket
    accessor, whatever the callbacks did in between, does what the first
    call did and nothing else: it returns the socket that the first call
    returned (or nothing, for a request without the upgrade header), and
    it throws again when the first call threw because the handshake was
    rejected; no second handshake succeeds. After the response is
    finalized the accessor does not throw and performs no handshake: it
    returns the socket obtained before, if there is one, and nothing
    otherwise. *)
Theorem upgrade_socket_idempotent w cb :
  let first := upgrade_socket w in
  let w2 := snd (run cb (snd first)) in
  let w3 := snd (run cb (finalize w)) in
  upgrade_socket w2 = (fst first, w2)
  /\ upgrades w2 = upgrades (snd first)
  /\ upgrade_socket (finalize w2)
     = (match fst first with
        | inr s => inr s
        | inl _ => inr None
        end, finalize w2)
  /\ upgrade_socket w3
     = (inr (if available (ctx w) then socket (ctx w) else None), w3).
Proof.
  intros first w2 w3.
  destruct (upgrade_socket_settles w) as [Hset Hfirst].
  fold first in Hset, Hfirst.
  pose proof (run_stable cb (snd first)) as Hs. fold w2 in Hs.
  pose proof (settled_preserved _ _ Hs Hset) as Hset2.
  pose proof (settled_outcome_stable _ _ Hs Hset) as Hout.
  destruct (stable_socket _ _ Hs Hset) as [Hsock Hup].
  destruct (finalize_stable_socket w2) as (Hset2' & Hout2' & _ & _).
  destruct (finalize_stable_socket w) as (HsetF & HoutF & _ & _).
  pose proof (run_stable cb (finalize w)) as Hs3. fold w3 in Hs3.
  split; [|split; [|split]].
  - rewrite (upgrade_socket_settled _ Hset2), Hout, Hfirst. reflexivity.
  - exact Hup.
  - rewrite (upgrade_socket_settled _ Hset2'), Hout2', Hfirst, <- Hout.
    f_equal. unfold settled_outcome.
    destruct (available (ctx w2)); cbn [negb]; [|reflexivity].
    destruct (socket (ctx w2)) as [s|]; cbn [truthy orb]; [reflexivity|].
    destruct (sent (res (ctx w2))); reflexivity.
  - rewrite (upgrade_socket_settled _ (settled_preserved _ _ Hs3 HsetF)),
      (settled_outcome_stable _ _ Hs3 HsetF), HoutF.
    reflexivity.
Qed.

(** *** Channels *)

Lemma for_each_send data (l : list WebSocket) w :
  let r := for_each (send data) l w in
  fst r = (if forallb (sendable w) l then inr tt else inl InvalidStateError)
  /\ outbox (snd r)
     = outbox w ++ map (fun s => (s, data)) (JS.take_while (sendable w) l)
  /\ ctx (snd r) = ctx w
  /\ activeSocketConnections (snd r) = activeSocketConnections w
  /\ upgrades (snd r) = upgrades w.
Proof.
  revert w. induction l as [|s l IH]; intros w;
    cbn [for_each forallb JS.take_while].
  - cbn. rewrite app_nil_r. repeat split.
  - unfold bind.
    destruct (sendable w s) eqn:Hs; cbn [andb].
    + assert (Hsend : exists w1,
                send data s w = (inr tt, w1)
                /\ outbox w1 = outbox w ++ [(s, data)]
                /\ ctx w1 = ctx w
                /\ activeSocketConnections w1 = activeSocketConnections w
                /\ upgrades w1 = upgrades w
                /\ sendable w1 = sendable w).
      { unfold send. rewrite Hs. eexists. repeat split. }
      destruct Hsend as (w1 & -> & Ho & Hc & Ha & Hu & Hsw).
      destruct (IH w1) as (Hfst & Hout & Hctx & Hconn & Hup).
      rewrite Hsw in Hfst, Hout.
      split; [exact Hfst|].
      split; [|split; [|split]]; [|congruence..].
      rewrite Hout, Ho, <- app_assoc. reflexivity.
    + unfold send. rewrite Hs. cbn. rewrite app_nil_r. repeat split.
Qed.

Lemma channel_broadcast_outbox message data w :
  payload message = Some data ->
  let members :=
    default [] (activeSocketConnections w !! channel_name (ctx w)) in
  outbox (snd (channel_broadcast message w))
  = outbox w
    ++ map (fun s => (s, data)) (JS.take_while (sendable w) members)
  /\ fst (channel_broadcast message w)
     = if forallb (sendable w) members then inr tt
       else inl InvalidStateError.
Proof.
  intros Hp. cbv zeta. unfold channel_broadcast, bind, gets. cbn [fst snd].
  destruct (activeSocketConnections w !! channel_name (ctx w)) as [l|];
    cbn [default].
  - rewrite Hp. cbn [ret].
    destruct (for_each_send data l w) as (Hfst & Hout & _).
    split; assumption.
  - cbn. rewrite app_nil_r. split; reflexivity.
Qed.

(** C10 (amended): [channel.join(name)] leaves [name] as the context's
    channel name whenever the accessor it starts with returns; when the
    accessor throws (the request has the upgrade header, no socket yet
    and its handshake is rejected) [join] throws the same error and
    changes nothing, the name included. When the accessor yields no
    socket because the upgrade header is absent, or the response is
    finalized with no socket obtained before, [join] returns with the
    name set, the connection still has no socket and the registry is as
    it was; a following [channel.broadcast] then sends to the sockets
    registered under [name], in order, up to the first that cannot be
    sent to, at which it throws. *)
Theorem channel_join_renames w name :
  let w1 := snd (channel_join name w) in
  match fst (upgrade_socket w) with
  | inr _ => fst (channel_join name w) = inr tt /\ channel_name (ctx w1) = name
  | inl e => channel_join name w = (inl e, w)
  end
  /\ (available (ctx w) = false
      \/ (sent (res (ctx w)) = true /\ socket (ctx w) = None) ->
      fst (channel_join name w) = inr tt
      /\ channel_name (ctx w1) = name
      /\ fst (upgrade_socket w) = inr None
      /\ upgrades w1 = upgrades w
      /\ activeSocketConnections w1 = activeSocketConnections w
      /\ forall message data,
           payload message = Some data ->
           let members := default [] (activeSocketConnections w !! name) in
           outbox (snd (channel_broadcast message w1))
           = outbox w
             ++ map (fun s => (s, data))
                  (JS.take_while (sendable w) members)
           /\ fst (channel_broadcast message w1)
              = if forallb (sendable w) members then inr tt
                else inl InvalidStateError).
Proof.
  cbv zeta. split.
  - unfold channel_join, bind, upgrade_socket. cbv zeta.
    destruct (available (ctx w)); cbn [negb];
      [destruct (truthy (socket (ctx w)) || sent (res (ctx w)));
       [destruct (socket (ctx w))|]|];
      try (cbn; split; reflexivity).
    unfold bind, upgradeWebSocket.
    destruct (acceptsUpgrade (headers (req (ctx w))));
      cbn; [split; reflexivity | reflexivity].
  - intros Hno.
    assert (Hacc : upgrade_socket w = (inr None, w)).
    { unfold upgrade_socket. cbv zeta.
      destruct Hno as [-> | [-> ->]]; [reflexivity|].
      destruct (available (ctx w)); reflexivity. }
    assert (Hw1 : channel_join name w
                  = (inr tt, set_ctx (with_channel_name name) w)).
    { unfold channel_join, bind. rewrite Hacc. reflexivity. }
    rewrite Hacc, Hw1. cbn [fst snd].
    split; [reflexivity|]. split; [reflexivity|]. split; [reflexivity|].
    split; [reflexivity|]. split; [reflexivity|].
    intros message data Hp.
    exact (channel_broadcast_outbox message data
             (set_ctx (with_channel_name name) w) Hp).
Qed.

(** *** The pipeline of callbacks *)

Lemma bind_inr {A B} (m : M A) (k : A -> M B) w a w' :
  m w = (inr a, w') -> bind m k w = k a w'.
Proof. intros Hm. unfold bind. rewrite Hm. reflexivity. Qed.

Lemma bind_inl {A B} (m : M A) (k : A -> M B) w e w' :
  m w = (inl e, w') -> bind m k w = (inl e, w').
Proof. intros Hm. unfold bind. rewrite Hm. reflexivity. Qed.

Lemma respects_decode_body rq : respects (decode_body rq).
Proof.
  unfold decode_body. cbv zeta.
  repeat match goal with
         | |- respects (match ?x with _ => _ end) => destruct x
         | |- respects (if ?b then _ else _) => destruct b
         end;
    first [apply respects_ret | apply respects_throw | stable_step].
Qed.

Lemma invoke_spec cb w :
  invoked (snd (invoke cb w)) = invoked w ++ [cb]
  /\ frozen (ctx (snd (invoke cb w))) = frozen (ctx w).
Proof.
  unfold invoke.
  match goal with
  | |- context [run cb ?w0] => pose proof (run_stable cb w0) as Hs
  end.
  rewrite (stable_invoked _ _ Hs), (stable_frozen _ _ Hs). split; reflexivity.
Qed.

Lemma for_each_invoke middleware w :
  let r := for_each invoke middleware w in
  invoked (snd r) `prefix_of` invoked w ++ middleware
  /\ (fst r = inr tt -> invoked (snd r) = invoked w ++ middleware)
  /\ frozen (ctx (snd r)) = frozen (ctx w).
Proof.
  revert w. induction middleware as [|cb l IH]; intros w; cbn [for_each].
  - cbn. rewrite app_nil_r. repeat split. reflexivity.
  - destruct (invoke_spec cb w) as [Hinv Hfr].
    destruct (invoke cb w) as [[e|[]] w'] eqn:Hi; cbn [snd] in Hinv, Hfr.
    + rewrite (bind_inl _ _ _ _ _ Hi). cbn [fst snd]. rewrite Hinv.
      repeat split; [|discriminate|exact Hfr].
      apply prefix_app, prefix_cons, prefix_nil.
    + rewrite (bind_inr _ _ _ _ _ Hi).
      destruct (IH w') as (Hpre & Hall & Hfr').
      rewrite Hinv, <- app_assoc in Hpre, Hall. cbn [app] in Hpre, Hall.
      repeat split; [exact Hpre | exact Hall | congruence].
Qed.

Lemma attempt_spec routes middleware rq w :
  method (req (ctx w)) = rq_method rq ->
  url (req (ctx w)) = rq_url rq ->
  invoked w = [] ->
  let r := attempt routes middleware rq w in
  invoked (snd r) `prefix_of` pipeline routes middleware rq
  /\ (fst r = inr tt -> invoked (snd r) = pipeline routes middleware rq)
  /\ frozen (ctx (snd r)) = frozen (ctx w).
Proof.
  intros Hm Hu Hinv. cbv zeta. unfold attempt.
  rewrite (bind_inr _ _ w (req (ctx w)) w) by reflexivity.
  match goal with
  | |- context [bind (log ?l) ?k w] =>
      rewrite (bind_inr (log l) k w tt (snd (log l w))) by reflexivity;
      pose proof (respects_log l w) as Hlog
  end.
  set (wl := snd (log _ w)) in *.
  pose proof (respects_decode_body rq wl) as Hdec.
  destruct (decode_body rq wl) as [[e|[]] wd] eqn:Hd; cbn [snd] in Hdec.
  - rewrite (bind_inl _ _ _ _ _ Hd). cbn [fst snd].
    rewrite (stable_invoked _ _ Hdec), (stable_invoked _ _ Hlog), Hinv.
    repeat split; [apply prefix_nil | discriminate |].
    rewrite (stable_frozen _ _ Hdec). apply (stable_frozen _ _ Hlog).
  - rewrite (bind_inr _ _ _ _ _ Hd).
    rewrite (bind_inr _ _ wd (req (ctx wd)) wd) by reflexivity.
    assert (Hwd : invoked wd = [] /\ frozen (ctx wd) = frozen (ctx w)).
    { rewrite (stable_invoked _ _ Hdec), (stable_invoked _ _ Hlog),
        (stable_frozen _ _ Hdec), (stable_frozen _ _ Hlog).
      split; [exact Hinv | reflexivity]. }
    destruct Hwd as [Hinvd Hfrd].
    rewrite (stable_method _ _ Hdec), (stable_url _ _ Hdec),
      (stable_method _ _ Hlog), (stable_url _ _ Hlog), Hm, Hu.
    unfold pipeline.
    destruct (getRoute routes (rq_method rq) (href (rq_url rq)))
      as [route|].
    + set (wp := set_ctx (set_req (with_pathParams (matchParams route))) wd).
      destruct (invoke_spec (callback route) wp) as [Hi Hfi].
      destruct (invoke (callback route) wp) as [[e|[]] wi] eqn:Hrun;
        cbn [snd invoked set_ctx ctx frozen set_req wp] in Hi, Hfi;
        rewrite Hinvd in Hi; cbn [app] in Hi.
      * rewrite (bind_inl _ _ wd e wi) by exact Hrun. cbn [fst snd].
        rewrite Hi.
        repeat split; [|discriminate|congruence].
        apply prefix_cons, prefix_nil.
      * rewrite (bind_inr _ _ wd tt wi) by exact Hrun.
        destruct (for_each_invoke middleware wi) as (Hpre & Hall & Hfr).
        rewrite Hi in Hpre, Hall. cbn [app] in Hpre, Hall.
        repeat split; [exact Hpre | exact Hall | congruence].
    + pose proof (respects_sendStatus HTTPStatus.NotFound wd) as Hst.
      destruct (sendStatus HTTPStatus.NotFound wd) as [[e|[]] ws] eqn:Hs;
        cbn [snd] in Hst.
      * rewrite (bind_inl _ _ _ _ _ Hs). cbn [fst snd].
        rewrite (stable_invoked _ _ Hst), Hinvd.
        repeat split; [apply prefix_nil | discriminate |].
        rewrite (stable_frozen _ _ Hst). exact Hfrd.
      * rewrite (bind_inr _ _ _ _ _ Hs).
        destruct (for_each_invoke middleware ws) as (Hpre & Hall & Hfr).
        rewrite (stable_invoked _ _ Hst), Hinvd in Hpre, Hall.
        cbn [app] in Hpre, Hall.
        repeat split; [exact Hpre | exact Hall |].
        rewrite Hfr, (stable_frozen _ _ Hst). exact Hfrd.
Qed.

Lemma decode_body_ok rq w :
  decodes rq = true ->
  exists f : Req -> Req,
    decode_body rq w = (inr tt, set_ctx (set_req f) w)
    /\ forall r, method (f r) = method r /\ url (f r) = url r
                 /\ pathParams (f r) = pathParams r.
Proof.
  unfold decodes, decode_body. cbv zeta.
  destruct (rq_body rq) as [raw|].
  - destruct (JS.includes "application/json" _).
    + destruct (req_json raw) as [v|]; [|discriminate]. intros _.
      eexists. split; [reflexivity|]. repeat split.
    + destruct (JS.includes "text/plain" _).
      * intros _. eexists. split; [reflexivity|]. repeat split.
      * destruct (_ || _).
        -- destruct (req_formData raw) as [v|]; [|discriminate]. intros _.
           eexists. split; [reflexivity|]. repeat split.
        -- intros _. eexists. split; [reflexivity|]. repeat split.
  - intros _. exists (fun r => r). split; [|repeat split].
    destruct w as [[[] ? ? ? ? ? ?] ? ? ? ? ?]. reflexivity.
Qed.

Lemma decode_body_fails rq w :
  decodes rq = false -> decode_body rq w = (inl DecodeError, w).
Proof.
  unfold decodes, decode_body. cbv zeta.
  destruct (rq_body rq) as [raw|]; [|discriminate].
  destruct (JS.includes "application/json" _).
  - destruct (req_json raw); [discriminate|reflexivity].
  - destruct (JS.includes "text/plain" _); [discriminate|].
    destruct (_ || _); [|discriminate].
    destruct (req_formData raw); [discriminate|reflexivity].
Qed.

(** The status line that [sendStatus] writes. *)
Lemma sendStatus_unfrozen_body n w :
  frozen (ctx w) = false ->
  res_body (res (ctx (snd (sendStatus n w))))
  = BodyString (pretty n +:+ " " +:+ default "" (HTTPStatusText_get n)).
Proof.
  intros Hf. unfold sendStatus, bind, assign. rewrite Hf. cbn. rewrite Hf.
  reflexivity.
Qed.

Lemma sendStatus_unfrozen_eq n w :
  frozen (ctx w) = false ->
  sendStatus n w
  = (inr tt,
     set_ctx (set_res (with_status n))
       (set_ctx
          (set_res
             (with_body
                (BodyString (pretty n +:+ " "
                             +:+ default "" (HTTPStatusText_get n)))))
          w)).
Proof.
  intros Hf. unfold sendStatus, bind, assign. rewrite Hf. cbn. rewrite Hf.
  reflexivity.
Qed.

Lemma Response_new_string (store : gmap nat string) (s : string)
    (status : Z) (hs : gmap string string) :
  200 <= status <= 599 ->
  null_body_status status = false ->
  hs !! "content-type" = None ->
  Response_new store (BodyString s) status hs
  = inr (HttpResponse (Text s) status
           (<["content-type" := "text/plain;charset=UTF-8"]> hs)).
Proof.
  intros Hrange Hnull Hct. unfold Response_new. cbv zeta.
  rewrite Z.mod_small by lia.
  destruct (status <? 200) eqn:Hlo; [apply Z.ltb_lt in Hlo; lia|].
  destruct (599 <? status) eqn:Hhi; [apply Z.ltb_lt in Hhi; lia|].
  cbn [orb andb]. rewrite Hnull, Hct. reflexivity.
Qed.

Lemma respects_prepare routes rq : respects (prepare routes rq).
Proof.
  unfold prepare.
  apply respects_bind; [apply respects_gets | intros r].
  apply respects_bind; [apply respects_log | intros _].
  apply respects_bind; [apply respects_decode_body | intros _].
  apply respects_bind; [apply respects_gets | intros r'].
  destruct (getRoute _ _ _); [stable_step | apply respects_sendStatus].
Qed.

Lemma bind_assoc {A B C} (m : M A) (k : A -> M B) (k' : B -> M C) w :
  bind (bind m k) k' w = bind m (fun a => bind (k a) k') w.
Proof.
  unfold bind. destruct (m w) as [[e|a] w1]; [reflexivity|].
  destruct (k a w1) as [[e|b] w2]; reflexivity.
Qed.

Lemma bind_cong {A B} (m : M A) (k k' : A -> M B) w :
  (forall a w', m w = (inr a, w') -> k a w' = k' a w') ->
  bind m k w = bind m k' w.
Proof.
  intros Hk. unfold bind. destruct (m w) as [[e|a] w']; [reflexivity|].
  apply Hk. reflexivity.
Qed.

(** The [try] block is that preparation followed by the callbacks. *)
Lemma attempt_prepare routes middleware rq w :
  method (req (ctx w)) = rq_method rq ->
  url (req (ctx w)) = rq_url rq ->
  attempt routes middleware rq w
  = bind (prepare routes rq)
      (fun _ => for_each invoke (pipeline routes middleware rq)) w.
Proof.
  intros Hm Hu. unfold attempt, prepare, pipeline.
  rewrite bind_assoc. apply bind_cong. intros r w1 [= <- <-].
  rewrite bind_assoc. apply bind_cong. intros [] wl Hl.
  rewrite bind_assoc. apply bind_cong. intros [] wd Hd.
  rewrite bind_assoc. apply bind_cong. intros r' w2 [= <- <-].
  match type of Hl with
  | log ?l w = _ => pose proof (respects_log l w) as Hlog
  end.
  pose proof (respects_decode_body rq wl) as Hdec.
  rewrite Hl in Hlog. rewrite Hd in Hdec. cbn [snd] in Hlog, Hdec.
  rewrite (stable_method _ _ Hdec), (stable_url _ _ Hdec),
    (stable_method _ _ Hlog), (stable_url _ _ Hlog), Hm, Hu.
  destruct (getRoute routes (rq_method rq) (href (rq_url rq))) as [route|].
  - rewrite bind_assoc. reflexivity.
  - reflexivity.
Qed.

Lemma prepare_spec routes rq connections n :
  let w0 := new_world rq connections n in
  let ws := snd (prepare routes rq w0) in
  fst (prepare routes rq w0)
  = (if decodes rq then inr tt else inl DecodeError)
  /\ (decodes rq = true ->
      getRoute routes (rq_method rq) (href (rq_url rq)) = None ->
      res_status (res (ctx ws)) = HTTPStatus.NotFound).
Proof.
  cbv zeta. set (w0 := new_world rq connections n). unfold prepare.
  rewrite (bind_inr _ _ w0 (req (ctx w0)) w0) by reflexivity.
  match goal with
  | |- context [bind (log ?l) ?k w0] =>
      rewrite (bind_inr (log l) k w0 tt (snd (log l w0))) by reflexivity;
      set (wl := snd (log l w0))
  end.
  destruct (decodes rq) eqn:Hdec.
  - destruct (decode_body_ok rq wl Hdec) as (f & Hd & Hf).
    rewrite (bind_inr _ _ _ _ _ Hd).
    match goal with
    | |- context [bind (gets ?g) ?k ?w1] =>
        rewrite (bind_inr (gets g) k w1 (g w1) w1) by reflexivity
    end.
    cbn [ctx set_ctx set_req req wl log modify snd].
    destruct (Hf (req (ctx w0))) as (Hfm & Hfu & _). rewrite Hfm, Hfu.
    change (method (req (ctx w0))) with (rq_method rq).
    change (url (req (ctx w0))) with (rq_url rq).
    destruct (getRoute routes (rq_method rq) (href (rq_url rq))) as [route|].
    + split; [reflexivity | discriminate].
    + rewrite sendStatus_unfrozen_eq by reflexivity.
      split; [reflexivity | intros _ _; reflexivity].
  - rewrite (bind_inl _ _ wl DecodeError wl)
      by (apply decode_body_fails, Hdec).
    split; [reflexivity | discriminate].
Qed.

(** Callbacks invoked one after the other: either all return, or one of
    them throws after those before it returned, and it is the last one
    invoked. *)
Lemma for_each_invoke_cases (l : list Callback) w :
  match for_each invoke l w with
  | (inr _, w') => invoked w' = invoked w ++ l
  | (inl e, w') =>
      exists pre cb post w1,
        l = pre ++ cb :: post
        /\ for_each invoke pre w = (inr tt, w1)
        /\ invoke cb w1 = (inl e, w')
        /\ invoked w' = invoked w ++ pre ++ [cb]
  end.
Proof.
  revert w. induction l as [|cb l IH]; intros w; cbn [for_each].
  - cbn. rewrite app_nil_r. reflexivity.
  - unfold bind. destruct (invoke_spec cb w) as [Hinv _].
    destruct (invoke cb w) as [[e|[]] w'] eqn:Hi; cbn [snd] in Hinv.
    + exists [], cb, l, w. repeat split; [exact Hi|].
      rewrite Hinv. reflexivity.
    + specialize (IH w'). destruct (for_each invoke l w') as [[e|[]] w''].
      * destruct IH as (pre & c & post & w1 & -> & Hpre & Hc & Hinv').
        exists (cb :: pre), c, post, w1. split; [reflexivity|]. split.
        { cbn [for_each]. unfold bind. rewrite Hi. exact Hpre. }
        split; [exact Hc|].
        rewrite Hinv', Hinv, <- !app_assoc. reflexivity.
      * rewrite IH, Hinv, <- app_assoc. reflexivity.
Qed.

(** C2 (amended): for a request whose method is in [RequestMethods], the
    callbacks invoked are, in this order and on the one context of the
    request, the handler of the resolved route (if any) and then the
    middleware in registration order, up to the first of them that
    throws. Before them the body is decoded and the route resolved (with
    the response preset to 404 when there is none). If decoding throws,
    no callback is invoked and the status becomes 500. Otherwise, if
    every callback returns, all of them were invoked: all middleware run
    after the handler, also when no route matched. If one throws, the
    callbacks before it returned, it is the last one invoked, the
    callbacks after it are not run, and the status becomes 500. *)
Theorem middleware_runs_unless_thrown routes middleware rq connections n :
  JS.array_includes RequestMethods (rq_method rq) = true ->
  let w0 := new_world rq connections n in
  let ws := snd (prepare routes rq w0) in
  let callbacks := pipeline routes middleware rq in
  let w := snd (listenAndServe routes middleware rq connections n) in
  attempt routes middleware rq w0
  = bind (prepare routes rq) (fun _ => for_each invoke callbacks) w0
  /\ fst (prepare routes rq w0)
     = (if decodes rq then inr tt else inl DecodeError)
  /\ (decodes rq = true ->
      getRoute routes (rq_method rq) (href (rq_url rq)) = None ->
      res_status (res (ctx ws)) = HTTPStatus.NotFound)
  /\ match fst (prepare routes rq w0),
           fst (for_each invoke callbacks ws) with
     | inl _, _ =>
         invoked w = []
         /\ res_status (res (ctx w)) = HTTPStatus.InternalServerError
     | inr _, inr _ => invoked w = callbacks
     | inr _, inl e =>
         exists pre cb post w1,
           callbacks = pre ++ cb :: post
           /\ for_each invoke pre ws = (inr tt, w1)
           /\ fst (invoke cb w1) = inl e
           /\ invoked w = pre ++ [cb]
           /\ res_status (res (ctx w)) = HTTPStatus.InternalServerError
     end.
Proof.
  intros Hmethod w0 ws callbacks w.
  assert (Hatt : attempt routes middleware rq w0
                 = bind (prepare routes rq)
                     (fun _ => for_each invoke callbacks) w0)
    by (apply attempt_prepare; reflexivity).
  destruct (prepare_spec routes rq connections n) as [Hprep Hnf].
  fold w0 in Hprep, Hnf. fold ws in Hnf.
  split; [exact Hatt|]. split; [exact Hprep|]. split; [exact Hnf|].
  pose proof (respects_prepare routes rq w0) as Hst. fold ws in Hst.
  assert (Hinv0 : invoked ws = []) by (rewrite (stable_invoked _ _ Hst); reflexivity).
  destruct (attempt_spec routes middleware rq w0)
    as (_ & _ & Hfr); try reflexivity.
  assert (Hcatch : forall e wa,
            attempt routes middleware rq w0 = (inl e, wa) ->
            invoked w = invoked wa
            /\ res_status (res (ctx w)) = HTTPStatus.InternalServerError).
  { intros e wa Ha. subst w. unfold listenAndServe. cbn [snd]. fold w0.
    unfold handle.
    rewrite (bind_inr _ _ w0 (req (ctx w0)) w0) by reflexivity.
    change (method (req (ctx w0))) with (rq_method rq). rewrite Hmethod.
    unfold try_catch. rewrite Ha in Hfr |- *. cbn [snd] in Hfr.
    match goal with
    | |- context [bind (log ?l) ?k wa] =>
        rewrite (bind_inr (log l) k wa tt (snd (log l wa))) by reflexivity
    end.
    rewrite sendStatus_unfrozen_eq by exact Hfr. split; reflexivity. }
  assert (Hpass : forall wa,
            attempt routes middleware rq w0 = (inr tt, wa) ->
            invoked w = invoked wa).
  { intros wa Ha. subst w. unfold listenAndServe. cbn [snd]. fold w0.
    unfold handle.
    rewrite (bind_inr _ _ w0 (req (ctx w0)) w0) by reflexivity.
    change (method (req (ctx w0))) with (rq_method rq). rewrite Hmethod.
    unfold try_catch. rewrite Ha. reflexivity. }
  unfold bind in Hatt.
  destruct (prepare routes rq w0) as [[e|[]] ws'] eqn:Hp;
    cbn [fst snd] in *; subst ws.
  - destruct (Hcatch _ _ Hatt) as [Hi Hs]. rewrite Hi, Hinv0.
    split; [reflexivity | exact Hs].
  - pose proof (for_each_invoke_cases callbacks ws') as Hcases.
    rewrite <- Hatt in Hcases.
    destruct (attempt routes middleware rq w0) as [[e|[]] wa] eqn:Ha;
      rewrite <- Hatt; cbn [fst].
    + destruct Hcases as (pre & cb & post & w1 & Hl & Hpre & Hcb & Hinv).
      destruct (Hcatch _ _ eq_refl) as [Hi Hs].
      exists pre, cb, post, w1.
      split; [exact Hl|]. split; [exact Hpre|].
      split; [rewrite Hcb; reflexivity|].
      split; [|exact Hs].
      rewrite Hi, Hinv, Hinv0. reflexivity.
    + rewrite (Hpass _ eq_refl), Hcases, Hinv0. reflexivity.
Qed.

(** A method outside [RequestMethods] is answered 501 without decoding
    the body, resolving a route or invoking any callback. *)
Lemma unknown_method_not_implemented routes middleware rq connections n :
  JS.array_includes RequestMethods (rq_method rq) = false ->
  let w := snd (listenAndServe routes middleware rq connections n) in
  fst (listenAndServe routes middleware rq connections n)
  = inr (HttpResponse
           (Text (pretty HTTPStatus.NotImplemented +:+ " "
                  +:+ default ""
                        (HTTPStatusText_get HTTPStatus.NotImplemented)))
           HTTPStatus.NotImplemented
           {[ "content-type" := "text/plain;charset=UTF-8" ]})
  /\ invoked w = []
  /\ console w = []
  /\ body (req (ctx w)) = Undefined
  /\ bodyType (req (ctx w)) = None
  /\ pathParams (req (ctx w)) = ∅
  /\ activeSocketConnections w = connections.
Proof.
  intros Hmethod. unfold listenAndServe, handle. cbv zeta.
  rewrite (bind_inr _ _ _ (req (ctx (new_world rq connections n)))
             (new_world rq connections n)) by reflexivity.
  change (method (req (ctx (new_world rq connections n))))
    with (rq_method rq).
  rewrite Hmethod. rewrite sendStatus_unfrozen_eq by reflexivity.
  split; [|repeat split].
  cbn [fst snd]. unfold response_of. cbn.
  rewrite Response_new_string; [rewrite insert_empty; reflexivity|..];
    first [reflexivity | unfold HTTPStatus.NotImplemented; lia].
Qed.

End ListenFacts.

(** ** The dispatcher on concrete requests *)

#[local] Existing Instance Examples.platform.

(** For a request method other than [*], an entry registered for any
    method is passed over, whatever its pattern. *)
Lemma getRoute_skips_any_entries `{Platform}
    (routes : list Route) (pattern : string) (cb : Callback)
    (method href : string) :
  method <> "*" ->
  getRoute (("*", pattern, cb) :: routes) method href
  = getRoute routes method href.
Proof.
  intros Hm. unfold getRoute. cbn [getRoute_from].
  unfold JS.array_includes. cbn [existsb].
  destruct (String.eqb_spec method "*") as [->|_]; [contradiction|].
  reflexivity.
Qed.

(** Among the entries registered for a method, resolution is by
    registration order: the first entry for [method] whose pattern matches
    wins. *)
Lemma getRoute_from_first_match `{Platform}
    (routes : list Route) (method href : string) :
  method <> "*" ->
  getRoute_from routes method href
  = (fun route : Route =>
       {| callback := snd route;
          matchParams := default ∅ (URLPattern_exec (snd (fst route)) href) |})
    <$> List.find
          (fun route : Route =>
             String.eqb method (fst (fst route))
             && URLPattern_test (snd (fst route)) href)
          routes.
Proof.
  intros Hm. induction routes as [|[[m pattern] cb] routes IH]; [reflexivity|].
  cbn [getRoute_from List.find fst snd].
  unfold JS.array_includes. cbn [existsb].
  destruct (String.eqb_spec method "*") as [->|_]; [contradiction|].
  rewrite orb_false_r. cbn [orb].
  destruct (String.eqb method m); cbn [negb andb]; [|exact IH].
  destruct (URLPattern_test pattern href); cbn [negb]; [reflexivity|exact IH].
Qed.

Lemma rev_app_append (s1 s2 acc : string) :
  String.rev_app (s1 +:+ s2) acc = String.rev_app s2 (String.rev_app s1 acc).
Proof.
  revert acc. induction s1 as [|c s1 IH]; intros acc; [reflexivity|].
  change (String.rev_app (s1 +:+ s2) (String c acc)
          = String.rev_app s2 (String.rev_app s1 (String c acc))).
  apply IH.
Qed.

Lemma length_append (s t : string) :
  String.length (s +:+ t) = (String.length s + String.length t)%nat.
Proof.
  induction s as [|c s IH]; [reflexivity|].
  change (S (String.length (s +:+ t))
          = S (String.length s + String.length t)).
  now rewrite IH.
Qed.

Lemma substring_append (s t : string) :
  String.substring 0 (String.length s) (s +:+ t) = s.
Proof.
  induction s as [|c s IH]; [destruct t; reflexivity|].
  change (String c (String.substring 0 (String.length s) (s +:+ t))
          = String c s).
  now rewrite IH.
Qed.

Lemma replace_suffix_slash (s : string) :
  JS.replace_suffix "/" "" (s +:+ "/") = s.
Proof.
  unfold JS.replace_suffix, JS.endsWith, String.rev.
  rewrite rev_app_append. cbn [String.rev_app String.prefix].
  destruct (ascii_dec "/" "/") as [_|Hne]; [|contradiction].
  unfold JS.slice, JS.len. rewrite length_append. cbn [String.length].
  rewrite append_empty_r.
  replace (Z.of_nat (String.length s + 1) - Z.of_nat 1)
    with (Z.of_nat (String.length s)) by lia.
  cbn [Z.ltb Z.compare].
  destruct (Z.of_nat (String.length s) <? 0) eqn:Hneg;
    [apply Z.ltb_lt in Hneg; lia|].
  rewrite Z.min_l, Z.min_l, Z.sub_0_r, Z.max_l by lia.
  replace (String.prefix "" (String.rev_app s "")) with true
    by (destruct (String.rev_app s ""); reflexivity).
  cbn [Z.to_nat]. rewrite Nat2Z.id. apply substring_append.
Qed.

(** A trailing slash at the end of the URL never changes the result. *)
Lemma getRoute_trailing_slash `{Platform}
    (routes : list Route) (method href : string) :
  JS.endsWith "/" href = false ->
  getRoute routes method (href +:+ "/") = getRoute routes method href.
Proof.
  intros Hend. unfold getRoute. rewrite replace_suffix_slash.
  unfold JS.replace_suffix. rewrite Hend. reflexivity.
Qed.

(** The slash is only looked for at the end of the whole URL: with a
    query after the path it stays, and the pattern [/a] does not match. *)
Example getRoute_trailing_slash_before_query :
  getRoute Examples.hello_routes "GET" "http://localhost:3000/a/?page=2"
  = None
  /\ getRoute Examples.hello_routes "GET" "http://localhost:3000/a?page=2"
     = Some {| callback := Examples.hello; matchParams := ∅ |}.
Proof. split; reflexivity. Qed.

(** C1 (the code differs): a route registered for any method is not
    found by a [GET] request although its pattern matches the path: the
    method test asks whether the request method is [*] or the entry's
    method, so an entry whose method is [*] only ever matches a request
    whose method is [*]. Entries registered for the request's own method
    resolve as claimed, with one trailing slash ignored. *)
Theorem getRoute_misses_route_for_any_method :
  Examples.any_routes = [("*", "/a", Examples.hello)]
  /\ URLPattern_test "/a" "http://localhost:3000/a" = true
  /\ getRoute Examples.any_routes "GET" "http://localhost:3000/a" = None
  /\ getRoute Examples.any_routes "*" "http://localhost:3000/a"
     = Some {| callback := Examples.hello; matchParams := ∅ |}
  /\ getRoute Examples.hello_routes "GET" "http://localhost:3000/a"
     = Some {| callback := Examples.hello; matchParams := ∅ |}
  /\ getRoute Examples.hello_routes "GET" "http://localhost:3000/a/"
     = Some {| callback := Examples.hello; matchParams := ∅ |}
  /\ getRoute Examples.hello_routes "GET" "http://localhost:3000/b" = None.
Proof. repeat split; reflexivity. Qed.

(** C3 (the code differs): the method [*] is none of [POST], [GET],
    [PUT], [PATCH], [DELETE], yet a request with it is not answered 501:
    it passes the test against [RequestMethods], resolves the route
    registered for [GET], and the handler and the middleware run. *)
Theorem star_method_is_dispatched :
  JS.array_includes ["POST"; "GET"; "PUT"; "PATCH"; "DELETE"] "*" = false
  /\ fst (listenAndServe Examples.hello_routes Examples.one_middleware
            (Examples.request "*" "/a" ∅) ∅ 0)
     = inr (HttpResponse (Text "hello") 200
              {[ "content-type" := "text/plain;charset=UTF-8";
                 "x-powered-by" := "nadder" ]})
  /\ invoked (snd (listenAndServe Examples.hello_routes
                     Examples.one_middleware
                     (Examples.request "*" "/a" ∅) ∅ 0))
     = [Examples.hello; Examples.powered_by].
Proof. repeat split; reflexivity. Qed.

(** Other unknown methods do get 501. *)
Example trace_not_implemented :
  fst (listenAndServe Examples.hello_routes Examples.one_middleware
         (Examples.request "TRACE" "/a" ∅) ∅ 0)
  = inr (HttpResponse (Text "501 Not Implemented") 501
           {[ "content-type" := "text/plain;charset=UTF-8" ]}).
Proof. reflexivity. Qed.

(** When the matched handler throws, the registered middleware is not
    run: only the handler was invoked, and the response is the 500 page
    without the middleware's header. *)
Lemma middleware_skipped_when_handler_throws :
  pipeline Examples.failing_routes Examples.one_middleware
    (Examples.request "GET" "/a" ∅)
  = [Examples.failing; Examples.powered_by]
  /\ invoked (snd (listenAndServe Examples.failing_routes
                     Examples.one_middleware
                     (Examples.request "GET" "/a" ∅) ∅ 0))
     = [Examples.failing]
  /\ fst (listenAndServe Examples.failing_routes Examples.one_middleware
            (Examples.request "GET" "/a" ∅) ∅ 0)
     = inr (HttpResponse (Text "500 Internal Server Error") 500
              {[ "content-type" := "text/plain;charset=UTF-8" ]}).
Proof. repeat split; reflexivity. Qed.

(** No route matches [/nope]: the response is preset to 404 and the
    middleware runs. *)
Lemma middleware_runs_unless_thrown_witness :
  JS.array_includes RequestMethods "GET" = true
  /\ invoked (snd (listenAndServe Examples.hello_routes
                     Examples.one_middleware
                     (Examples.request "GET" "/nope" ∅) ∅ 0))
     = [Examples.powered_by]
  /\ fst (listenAndServe Examples.hello_routes Examples.one_middleware
            (Examples.request "GET" "/nope" ∅) ∅ 0)
     = inr (HttpResponse (Text "404 Not Found") 404
              {[ "content-type" := "text/plain;charset=UTF-8";
                 "x-powered-by" := "nadder" ]}).
Proof.
  split; [reflexivity|]. split; [|reflexivity].
  exact (proj2 (proj2 (proj2
           (middleware_runs_unless_thrown Examples.hello_routes
              Examples.one_middleware (Examples.request "GET" "/nope" ∅)
              ∅ 0%nat eq_refl)))).
Defined.

(** A socket obtained while the request was handled is still returned by
    the accessor after the response is finalized. The request is a
    complete handshake, which the runtime accepts. *)
Lemma socket_returned_after_finalization :
  acceptsUpgrade Examples.upgrade_headers = true
  /\ sent (res (ctx (snd (listenAndServe Examples.socket_routes []
                            (Examples.request "GET" "/ws"
                               Examples.upgrade_headers) ∅ 0))))
     = true
  /\ fst (upgrade_socket
            (snd (listenAndServe Examples.socket_routes []
                    (Examples.request "GET" "/ws"
                       Examples.upgrade_headers) ∅ 0)))
     = inr (Some 0%nat)
  /\ fst (upgrade_socket
            (snd (listenAndServe Examples.socket_routes []
                    (Examples.request "GET" "/ws"
                       Examples.upgrade_headers) ∅ 0)))
     <> inr None.
Proof.
  split; [reflexivity|]. split; [reflexivity|]. split; [reflexivity|].
  discriminate.
Qed.

(** With the upgrade header alone the handshake is rejected: the
    accessor throws, the request is answered 500, and after finalization
    the accessor returns nothing. *)
Example rejected_handshake :
  acceptsUpgrade {[ "upgrade" := "websocket" ]} = false
  /\ fst (listenAndServe Examples.socket_routes []
            (Examples.request "GET" "/ws" {[ "upgrade" := "websocket" ]})
            ∅ 0)
     = inr (HttpResponse (Text "500 Internal Server Error") 500
              {[ "content-type" := "text/plain;charset=UTF-8" ]})
  /\ fst (upgrade_socket
            (snd (listenAndServe Examples.socket_routes []
                    (Examples.request "GET" "/ws"
                       {[ "upgrade" := "websocket" ]}) ∅ 0)))
     = inr None.
Proof. repeat split; reflexivity. Qed.

(** After finalization [markForDownload] still adds an entry to the
    headers of the response facet, and the entry can be read back. *)
Lemma frozen_response_headers_still_mutable :
  sent (res (ctx (snd (listenAndServe Examples.hello_routes []
                         (Examples.request "GET" "/a" ∅) ∅ 0))))
  = true
  /\ res_headers
       (res (ctx (snd (listenAndServe Examples.hello_routes []
                         (Examples.request "GET" "/a" ∅) ∅ 0))))
     !! "content-disposition" = None
  /\ res_headers
       (res (ctx (snd (run Examples.download
                         (snd (listenAndServe Examples.hello_routes []
                                 (Examples.request "GET" "/a" ∅) ∅ 0))))))
     !! "content-disposition" = Some "attachment".
Proof. repeat split; reflexivity. Qed.

(** So do the bytes of a buffer that is the body: the response was made
    of the bytes at finalization; overwritten afterwards, the body
    property is the same reference and holds other bytes. *)
Example frozen_response_body_still_mutable :
  fst (listenAndServe Examples.binary_routes []
         (Examples.request "GET" "/bin" ∅) ∅ 0)
  = inr (HttpResponse (Bytes "abc") 200 ∅)
  /\ res_body
       (res (ctx (snd (run Examples.overwrite
                         (snd (listenAndServe Examples.binary_routes []
                                 (Examples.request "GET" "/bin" ∅) ∅ 0))))))
     = BodyBuffer 0
  /\ buffers
       (snd (listenAndServe Examples.binary_routes []
               (Examples.request "GET" "/bin" ∅) ∅ 0))
     !! 0%nat = Some "abc"
  /\ buffers
       (snd (run Examples.overwrite
               (snd (listenAndServe Examples.binary_routes []
                       (Examples.request "GET" "/bin" ∅) ∅ 0))))
     !! 0%nat = Some "xyz".
Proof. repeat split; reflexivity. Qed.

(** A request without the upgrade header joins [room1] and broadcasts:
    the two sockets registered there by other connections, both open,
    receive the message. *)
Lemma channel_join_renames_witness :
  available (ctx (new_world (Examples.request "GET" "/a" ∅) Examples.rooms 9))
  = false
  /\ channel_name
       (ctx (snd (channel_join "room1"
                    (new_world (Examples.request "GET" "/a" ∅)
                       Examples.rooms 9))))
     = "room1"
  /\ outbox
       (snd (channel_broadcast (StringMessage "hi")
               (snd (channel_join "room1"
                       (new_world (Examples.request "GET" "/a" ∅)
                          Examples.rooms 9)))))
     = [(7%nat, TextData "hi"); (8%nat, TextData "hi")].
Proof.
  assert (Hav : available (ctx (new_world (Examples.request "GET" "/a" ∅)
                                  Examples.rooms 9)) = false)
    by reflexivity.
  destruct (proj2 (channel_join_renames
                     (new_world (Examples.request "GET" "/a" ∅)
                        Examples.rooms 9)
                     "room1") (or_introl Hav))
    as (_ & Hname & _ & _ & _ & Hsend).
  split; [exact Hav|]. split; [exact Hname|].
  exact (proj1 (Hsend (StringMessage "hi") (TextData "hi") eq_refl)).
Defined.

(** A request with the upgrade header whose handshake the runtime
    rejects: [join] throws and the channel name is not updated. *)
Lemma join_throws_when_handshake_rejected :
  available (ctx (new_world (Examples.request "GET" "/ws"
                               {[ "upgrade" := "websocket" ]})
                    Examples.rooms 9))
  = true
  /\ fst (channel_join "room1"
            (new_world (Examples.request "GET" "/ws"
                          {[ "upgrade" := "websocket" ]})
               Examples.rooms 9))
     = inl TypeError
  /\ channel_name
       (ctx (snd (channel_join "room1"
                    (new_world (Examples.request "GET" "/ws"
                                  {[ "upgrade" := "websocket" ]})
                       Examples.rooms 9))))
     <> "room1".
Proof.
  split; [reflexivity|]. split; [reflexivity|]. discriminate.
Qed.

(** ** Further properties of the dispatcher *)

Section ChannelFacts.

Context `{Platform}.

Implicit Types (w : World) (cb : Callback) (op : Op).

Lemma same_channels_refl w : same_channels w w.
Proof. split; reflexivity. Qed.

Lemma same_channels_trans w1 w2 w3 :
  same_channels w1 w2 -> same_channels w2 w3 -> same_channels w1 w3.
Proof.
  intros [] []. split; congruence.
Qed.

Ltac quiet_step := intros w; split; reflexivity.

Lemma quiet_ret {A} (a : A) : quiet (ret a).
Proof. quiet_step. Qed.

Lemma quiet_throw {A} (e : Error) : quiet (@throw _ A e).
Proof. quiet_step. Qed.

Lemma quiet_gets {A} (f : World -> A) : quiet (gets f).
Proof. quiet_step. Qed.

Lemma quiet_bind {A B} (m : M A) (k : A -> M B) :
  quiet m -> (forall a, quiet (k a)) -> quiet (bind m k).
Proof.
  intros Hm Hk w. unfold bind. specialize (Hm w).
  destruct (m w) as [[e|a] w']; cbn in *; [exact Hm|].
  eapply same_channels_trans; [exact Hm | apply Hk].
Qed.

Lemma quiet_try_catch {A} (m : M A) (h : Error -> M A) :
  quiet m -> (forall e, quiet (h e)) -> quiet (try_catch m h).
Proof.
  intros Hm Hh w. unfold try_catch. specialize (Hm w).
  destruct (m w) as [[e|a] w']; cbn in *; [|exact Hm].
  eapply same_channels_trans; [exact Hm | apply Hh].
Qed.

Lemma quiet_for_each {A} (f : A -> M unit) (l : list A) :
  (forall a, quiet (f a)) -> quiet (for_each f l).
Proof.
  intros Hf. induction l as [|a l IH]; cbn [for_each].
  - apply quiet_ret.
  - apply quiet_bind; [apply Hf | intros _; exact IH].
Qed.

Lemma quiet_assign (f : Res -> Res) : quiet (assign f).
Proof.
  intros w. unfold assign. destruct (frozen (ctx w)); split; reflexivity.
Qed.

Lemma quiet_headers_set k v : quiet (headers_set k v).
Proof.
  unfold headers_set. cbv zeta. destruct (_ && _); quiet_step.
Qed.

Lemma quiet_headers_delete k : quiet (headers_delete k).
Proof.
  unfold headers_delete. destruct (Headers.valid_name k); quiet_step.
Qed.

Lemma quiet_buffer_set ref bytes : quiet (buffer_set ref bytes).
Proof. quiet_step. Qed.

Lemma quiet_log l : quiet (log l).
Proof. quiet_step. Qed.

Lemma quiet_send data s : quiet (send data s).
Proof.
  intros w. unfold send. destruct (sendable w s); split; reflexivity.
Qed.

Lemma quiet_set_request_body b t : quiet (set_request_body b t).
Proof. quiet_step. Qed.

Create HintDb quiet.

#[local] Hint Resolve quiet_ret quiet_throw quiet_gets quiet_assign
  quiet_headers_set quiet_headers_delete quiet_buffer_set quiet_log
  quiet_send quiet_set_request_body : quiet.

Ltac quiet :=
  repeat first
    [ apply quiet_bind; [|intros ?]
    | apply quiet_try_catch; [|intros ?]
    | apply quiet_for_each; intros ?
    | solve [auto with quiet]
    | match goal with
      | |- quiet (match ?x with _ => _ end) => destruct x
      | |- quiet (if ?b then _ else _) => destruct b
      end ].

Lemma quiet_sendStatus n : quiet (sendStatus n).
Proof. unfold sendStatus. quiet. Qed.

Lemma quiet_inferContentType l : quiet (inferContentType l).
Proof. unfold inferContentType. quiet. Qed.

Lemma quiet_markForDownload f : quiet (markForDownload f).
Proof. unfold markForDownload. quiet. Qed.

#[local] Hint Resolve quiet_sendStatus quiet_inferContentType
  quiet_markForDownload : quiet.

Lemma quiet_sendJSON data : quiet (sendJSON data).
Proof. unfold sendJSON. cbv zeta. quiet. Qed.

Lemma quiet_sendFile f : quiet (sendFile f).
Proof. unfold sendFile. quiet. Qed.

Lemma quiet_sendFileStream f : quiet (sendFileStream f).
Proof. unfold sendFileStream. quiet. Qed.

Lemma quiet_channel_broadcast m : quiet (channel_broadcast m).
Proof. unfold channel_broadcast. quiet. Qed.

Lemma quiet_decode_body rq : quiet (decode_body rq).
Proof. unfold decode_body. cbv zeta. quiet. Qed.

#[local] Hint Resolve quiet_sendJSON quiet_sendFile quiet_sendFileStream
  quiet_channel_broadcast quiet_decode_body : quiet.

(** *** Invariants of the upgrade state

    A property of the upgrade state that the accessor and [join] keep is
    kept by every callback and by the whole request. *)

Section Invariant.

Variable P : World -> Prop.
Hypothesis P_channels : channel_determined P.
Hypothesis P_socket : keeps P upgrade_socket.
Hypothesis P_join : forall name, keeps P (channel_join name).

Lemma quiet_keeps {A} (m : M A) : quiet m -> keeps P m.
Proof. intros Hm w Hw. exact (P_channels _ _ (Hm w) Hw). Qed.

Lemma keeps_bind {A B} (m : M A) (k : A -> M B) :
  keeps P m -> (forall a, keeps P (k a)) -> keeps P (bind m k).
Proof.
  intros Hm Hk w Hw. unfold bind. specialize (Hm w Hw).
  destruct (m w) as [[e|a] w']; cbn in *; [exact Hm|].
  apply Hk, Hm.
Qed.

Lemma keeps_try_catch {A} (m : M A) (h : Error -> M A) :
  keeps P m -> (forall e, keeps P (h e)) -> keeps P (try_catch m h).
Proof.
  intros Hm Hh w Hw. unfold try_catch. specialize (Hm w Hw).
  destruct (m w) as [[e|a] w']; cbn in *; [|exact Hm].
  apply Hh, Hm.
Qed.

Lemma keeps_for_each {A} (f : A -> M unit) (l : list A) :
  (forall a, keeps P (f a)) -> keeps P (for_each f l).
Proof.
  intros Hf. induction l as [|a l IH]; cbn [for_each].
  - intros w Hw. exact Hw.
  - apply keeps_bind; [apply Hf | intros _; exact IH].
Qed.

Lemma keeps_perform op w : P w -> P (snd (perform op w)).
Proof.
  intros Hw. destruct op; cbn [perform]; rewrite snd_answer;
    first [ apply P_socket, Hw | apply P_join, Hw
          | revert w Hw; apply quiet_keeps; auto with quiet ].
Qed.

Lemma keeps_run cb w : P w -> P (snd (run cb w)).
Proof.
  revert w. induction cb as [| e | op k IH]; intros w Hw; cbn [run];
    try exact Hw.
  pose proof (keeps_perform op w Hw) as Hp.
  destruct (perform op w) as [r w']. apply IH, Hp.
Qed.

Lemma keeps_invoke cb : keeps P (invoke cb).
Proof.
  intros w Hw. unfold invoke. apply keeps_run.
  revert Hw. apply P_channels. split; reflexivity.
Qed.

Lemma keeps_attempt routes middleware rq :
  keeps P (attempt routes middleware rq).
Proof.
  unfold attempt.
  apply keeps_bind; [apply quiet_keeps; auto with quiet | intros r].
  apply keeps_bind; [apply quiet_keeps; auto with quiet | intros _].
  apply keeps_bind; [apply quiet_keeps; auto with quiet | intros _].
  apply keeps_bind; [apply quiet_keeps; auto with quiet | intros r'].
  apply keeps_bind; [|intros _; apply keeps_for_each, keeps_invoke].
  destruct (getRoute _ _ _) as [route|].
  - apply keeps_bind; [|intros _; apply keeps_invoke].
    apply quiet_keeps. intros w. split; reflexivity.
  - apply quiet_keeps. auto with quiet.
Qed.

Lemma keeps_handle routes middleware rq :
  keeps P (handle routes middleware rq).
Proof.
  unfold handle.
  apply keeps_bind; [apply quiet_keeps; auto with quiet | intros r].
  destruct (JS.array_includes _ _).
  - apply keeps_try_catch; [apply keeps_attempt | intros e].
    apply quiet_keeps. quiet.
  - apply quiet_keeps. auto with quiet.
Qed.

Lemma keeps_finalize w : P w -> P (finalize w).
Proof. apply P_channels. split; reflexivity. Qed.

Lemma keeps_listenAndServe routes middleware rq connections n :
  P (new_world rq connections n) ->
  P (snd (listenAndServe routes middleware rq connections n)).
Proof.
  intros H0. unfold listenAndServe. cbn [snd].
  apply keeps_finalize, keeps_handle, H0.
Qed.

End Invariant.

(** *** The registry operations *)

Lemma elem_of_set_add (s x : WebSocket) (l : list WebSocket) :
  x ∈ set_add s l <-> x = s \/ x ∈ l.
Proof.
  unfold set_add. destruct (bool_decide (s ∈ l)) eqn:Hin.
  - apply bool_decide_eq_true in Hin. split; [auto|].
    intros [->|Hx]; assumption.
  - rewrite elem_of_app, list_elem_of_singleton. tauto.
Qed.

Lemma elem_of_set_delete (s x : WebSocket) (l : list WebSocket) :
  x ∈ set_delete s l <-> x ∈ l /\ x <> s.
Proof. unfold set_delete. rewrite list_elem_of_filter. tauto. Qed.

Lemma lookup_addSocketToChannel name s w name' :
  activeSocketConnections (snd (addSocketToChannel name s w)) !! name'
  = if decide (name = name')
    then Some (set_add s (default [] (activeSocketConnections w !! name)))
    else activeSocketConnections w !! name'.
Proof.
  cbn. destruct (decide (name = name')) as [<-|Hne].
  - rewrite lookup_alter_eq.
    destruct (activeSocketConnections w !! name) as [l|] eqn:Hl.
    + rewrite Hl. reflexivity.
    + rewrite lookup_insert_eq. reflexivity.
  - rewrite lookup_alter_ne by exact Hne.
    destruct (activeSocketConnections w !! name); [reflexivity|].
    apply lookup_insert_ne, Hne.
Qed.

Lemma lookup_removeSocketFromChannel name s w name' :
  activeSocketConnections (snd (removeSocketFromChannel name s w)) !! name'
  = if decide (name = name')
    then set_delete s <$> activeSocketConnections w !! name
    else activeSocketConnections w !! name'.
Proof.
  cbn. destruct (decide (name = name')) as [<-|Hne].
  - destruct (activeSocketConnections w !! name) as [l|] eqn:Hl.
    + rewrite lookup_alter_eq, Hl. reflexivity.
    + rewrite Hl. reflexivity.
  - destruct (activeSocketConnections w !! name); [|reflexivity].
    apply lookup_alter_ne, Hne.
Qed.

(** *** The handshake and the response *)

Lemma handshake_consistent_channels : channel_determined handshake_consistent.
Proof.
  intros w w' Hs Hw. unfold handshake_consistent in *.
  rewrite (same_override _ _ Hs), (same_socket _ _ Hs). exact Hw.
Qed.

Lemma handshake_consistent_socket : keeps handshake_consistent upgrade_socket.
Proof.
  intros w Hw. unfold upgrade_socket. cbv zeta.
  destruct (negb (available (ctx w))); [exact Hw|].
  destruct (truthy (socket (ctx w)) || sent (res (ctx w))); [exact Hw|].
  unfold bind, upgradeWebSocket.
  destruct (acceptsUpgrade (headers (req (ctx w)))); [reflexivity | exact Hw].
Qed.

Lemma handshake_consistent_join name :
  keeps handshake_consistent (channel_join name).
Proof.
  intros w Hw. unfold channel_join, bind.
  pose proof (handshake_consistent_socket w Hw) as Hw1.
  destruct (upgrade_socket w) as [[e|[s|]] w1]; cbn [snd] in Hw1;
    [exact Hw1 | exact Hw1 | exact Hw1].
Qed.

(** *** A request that cannot upgrade *)

Lemma not_upgraded_channels connections n :
  channel_determined (not_upgraded connections n).
Proof.
  intros w w' [] (Hav & Hc & Hn & Hs & Ho).
  repeat split; congruence.
Qed.

Lemma upgrade_socket_unavailable w :
  available (ctx w) = false -> upgrade_socket w = (inr None, w).
Proof. intros Hav. unfold upgrade_socket. cbv zeta. rewrite Hav. reflexivity. Qed.

Lemma not_upgraded_socket connections n :
  keeps (not_upgraded connections n) upgrade_socket.
Proof.
  intros w Hw. rewrite upgrade_socket_unavailable by apply Hw. exact Hw.
Qed.

Lemma not_upgraded_join connections n name :
  keeps (not_upgraded connections n) (channel_join name).
Proof.
  intros w Hw. unfold channel_join, bind.
  rewrite upgrade_socket_unavailable by apply Hw. exact Hw.
Qed.

(** *** Channel membership *)

Lemma channels_wf_channels : channel_determined channels_wf.
Proof.
  intros w w' Hs [Hreg Hown]. unfold channels_wf, in_current_channel_only.
  rewrite (same_connections _ _ Hs), (same_upgrades _ _ Hs),
    (same_socket _ _ Hs), (same_channel_name _ _ Hs),
    (same_available _ _ Hs).
  split; assumption.
Qed.

Lemma channels_wf_socket : keeps channels_wf upgrade_socket.
Proof.
  intros w [Hreg Hown]. unfold upgrade_socket. cbv zeta.
  destruct (available (ctx w)) eqn:Hav; cbn [negb]; [|split; assumption].
  destruct (truthy (socket (ctx w)) || sent (res (ctx w))) eqn:Hs;
    [split; assumption|].
  apply orb_false_elim in Hs as [Hnone _].
  unfold bind, upgradeWebSocket.
  destruct (acceptsUpgrade (headers (req (ctx w)))); [|split; assumption].
  pose proof (lookup_addSocketToChannel (channel_name (ctx w)) (upgrades w)
                {| ctx := with_upgrade (upgrades w) (ctx w);
                   activeSocketConnections := activeSocketConnections w;
                   upgrades := S (upgrades w); outbox := outbox w;
                   console := console w; invoked := invoked w;
                   buffers := buffers w |}) as Hlook.
  cbn in Hlook. split.
  - intros name members s Hmem Hin. cbn in Hmem |- *.
    rewrite Hlook in Hmem. destruct (decide _) as [<-|Hne].
    + injection Hmem as <-. apply elem_of_set_add in Hin as [->|Hin]; [lia|].
      destruct (activeSocketConnections w !! channel_name (ctx w))
        as [l|] eqn:Hl; cbn in Hin.
      * specialize (Hreg _ _ _ Hl Hin). lia.
      * apply elem_of_nil in Hin. contradiction.
    + specialize (Hreg _ _ _ Hmem Hin). lia.
  - intros s Hsock. cbn in Hsock |- *. injection Hsock as <-.
    split; [exact Hav|]. split; [lia|]. split.
    + eexists. rewrite Hlook, decide_True by reflexivity.
      split; [reflexivity|]. apply elem_of_set_add. left. reflexivity.
    + intros name members Hmem Hin. rewrite Hlook in Hmem.
      destruct (decide _) as [<-|Hne]; [reflexivity|].
      specialize (Hreg _ _ _ Hmem Hin). lia.
Qed.

Lemma upgrade_socket_returns_socket w :
  channels_wf w ->
  upgrade_socket w
  = (inr (socket (ctx (snd (upgrade_socket w)))), snd (upgrade_socket w))
  \/ upgrade_socket w = (inl TypeError, w).
Proof.
  intros [_ Hown]. unfold upgrade_socket. cbv zeta.
  destruct (available (ctx w)) eqn:Hav; cbn [negb].
  - destruct (truthy (socket (ctx w)) || sent (res (ctx w)));
      [left; reflexivity|].
    unfold bind, upgradeWebSocket.
    destruct (acceptsUpgrade (headers (req (ctx w))));
      [left | right]; reflexivity.
  - left. cbn [snd]. destruct (socket (ctx w)) as [s|] eqn:Hs; [|reflexivity].
    destruct (Hown s Hs) as [Htrue _]. congruence.
Qed.

Lemma channels_wf_join name : keeps channels_wf (channel_join name).
Proof.
  intros w Hw. unfold channel_join, bind.
  destruct (upgrade_socket_returns_socket w Hw) as [Hret | Hthrow];
    [rewrite Hret | rewrite Hthrow; exact Hw].
  pose proof (channels_wf_socket w Hw) as [Hreg Hown].
  set (w1 := snd (upgrade_socket w)) in *.
  destruct (socket (ctx w1)) as [s|] eqn:Hsock.
  - destruct (Hown s Hsock) as (Hav & Hlt & [members [Hmem Hin]] & Huniq).
    cbn [gets ret modify fst snd].
    set (w2 := snd (removeSocketFromChannel (channel_name (ctx w1)) s w1)).
    assert (Hlook : forall name',
      activeSocketConnections (snd (addSocketToChannel name s w2)) !! name'
      = if decide (name = name')
        then Some (set_add s (default []
               (if decide (channel_name (ctx w1) = name)
                then set_delete s <$> activeSocketConnections w1
                                       !! channel_name (ctx w1)
                else activeSocketConnections w1 !! name)))
        else if decide (channel_name (ctx w1) = name')
             then set_delete s <$> activeSocketConnections w1
                                    !! channel_name (ctx w1)
             else activeSocketConnections w1 !! name').
    { intros name'. rewrite lookup_addSocketToChannel. unfold w2.
      rewrite !lookup_removeSocketFromChannel. reflexivity. }
    change (channels_wf
              (set_ctx (with_channel_name name)
                 (snd (addSocketToChannel name s w2)))).
    split.
    + intros name' members' x Hmem' Hin'.
      change (activeSocketConnections (snd (addSocketToChannel name s w2))
              !! name' = Some members') in Hmem'.
      change ((x < upgrades w1)%nat).
      rewrite Hlook in Hmem'. destruct (decide (name = name')) as [<-|Hne].
      * injection Hmem' as <-.
        apply elem_of_set_add in Hin' as [->|Hin']; [exact Hlt|].
        destruct (decide (channel_name (ctx w1) = name)) as [Heq|Hneq].
        -- rewrite Hmem in Hin'. cbn in Hin'.
           apply elem_of_set_delete in Hin' as [Hin' _].
           exact (Hreg _ _ _ Hmem Hin').
        -- destruct (activeSocketConnections w1 !! name) as [l|] eqn:Hl;
             cbn in Hin'.
           ++ exact (Hreg _ _ _ Hl Hin').
           ++ apply elem_of_nil in Hin'. contradiction.
      * destruct (decide (channel_name (ctx w1) = name')) as [<-|Hneq].
        -- rewrite Hmem in Hmem'. cbn in Hmem'. injection Hmem' as <-.
           apply elem_of_set_delete in Hin' as [Hin' _].
           exact (Hreg _ _ _ Hmem Hin').
        -- exact (Hreg _ _ _ Hmem' Hin').
    + intros s' Hsock'.
      change (socket (ctx w1) = Some s') in Hsock'.
      rewrite Hsock in Hsock'. injection Hsock' as <-.
      change (available (ctx w1) = true
              /\ (s < upgrades w1)%nat
              /\ (exists members',
                    activeSocketConnections
                      (snd (addSocketToChannel name s w2)) !! name
                    = Some members' /\ s ∈ members')
              /\ (forall name' members',
                    activeSocketConnections
                      (snd (addSocketToChannel name s w2)) !! name'
                    = Some members' -> s ∈ members' -> name' = name)).
      split; [exact Hav|]. split; [exact Hlt|]. split.
      * eexists. rewrite Hlook, decide_True by reflexivity.
        split; [reflexivity|]. apply elem_of_set_add. left. reflexivity.
      * intros name' members' Hmem' Hin'. rewrite Hlook in Hmem'.
        destruct (decide (name = name')) as [<-|Hne]; [reflexivity|].
        destruct (decide (channel_name (ctx w1) = name')) as [<-|Hneq].
        -- rewrite Hmem in Hmem'. cbn in Hmem'. injection Hmem' as <-.
           apply elem_of_set_delete in Hin' as [_ Hin']. contradiction.
        -- exfalso. apply Hneq. symmetry. exact (Huniq _ _ Hmem' Hin').
  - cbn [ret modify fst snd]. split; [exact Hreg|].
    intros s Hs. cbn in Hs. congruence.
Qed.

Lemma response_follows_socket routes middleware rq connections n :
  fst (listenAndServe routes middleware rq connections n)
  = match socket (ctx (snd (listenAndServe routes middleware rq
                              connections n))) with
    | Some s => inr (Handshake s)
    | None =>
        let w := snd (listenAndServe routes middleware rq connections n) in
        Response_new (buffers w) (res_body (res (ctx w)))
          (res_status (res (ctx w))) (res_headers (res (ctx w)))
    end.
Proof.
  pose proof (keeps_listenAndServe handshake_consistent
                handshake_consistent_channels handshake_consistent_socket
                handshake_consistent_join routes middleware rq connections n
                eq_refl) as Hc.
  unfold handshake_consistent in Hc.
  unfold listenAndServe in *. cbn [fst snd] in *.
  unfold response_of. rewrite Hc.
  destruct (socket _); reflexivity.
Qed.

(** X1: the response handed to the transport is the handshake response
    exactly when the request obtained a socket, and otherwise what the
    [Response] constructor makes of the facet's body, status and
    headers. *)
Theorem response_is_handshake_exactly_when_upgraded
    routes middleware rq connections n :
  fst (listenAndServe routes middleware rq connections n)
  = match socket (ctx (snd (listenAndServe routes middleware rq
                              connections n))) with
    | Some s => inr (Handshake s)
    | None =>
        let w := snd (listenAndServe routes middleware rq connections n) in
        Response_new (buffers w) (res_body (res (ctx w)))
          (res_status (res (ctx w))) (res_headers (res (ctx w)))
    end.
Proof. apply response_follows_socket. Qed.

(** X2: a request without the header [upgrade: websocket] never performs
    a handshake and never changes the channel registry, neither while it
    is served nor through code that runs after it is finalized; its
    response is the HTTP response. *)
Theorem no_upgrade_without_header routes middleware rq connections n cb :
  rq_headers rq !! "upgrade" <> Some "websocket" ->
  let w := snd (listenAndServe routes middleware rq connections n) in
  let w' := snd (run cb w) in
  activeSocketConnections w = connections
  /\ upgrades w = n
  /\ socket (ctx w) = None
  /\ fst (listenAndServe routes middleware rq connections n)
     = Response_new (buffers w) (res_body (res (ctx w)))
         (res_status (res (ctx w))) (res_headers (res (ctx w)))
  /\ activeSocketConnections w' = connections
  /\ upgrades w' = n
  /\ socket (ctx w') = None.
Proof.
  intros Hheader w w'.
  assert (H0 : not_upgraded connections n (new_world rq connections n)).
  { repeat split. cbn. apply bool_decide_eq_false_2, Hheader. }
  pose proof (keeps_listenAndServe _ (not_upgraded_channels connections n)
                (not_upgraded_socket connections n)
                (not_upgraded_join connections n)
                routes middleware rq connections n H0) as Hw.
  fold w in Hw.
  pose proof (keeps_run _ (not_upgraded_channels connections n)
                (not_upgraded_socket connections n)
                (not_upgraded_join connections n) cb w Hw) as Hw'.
  fold w' in Hw'.
  destruct Hw as (_ & Hc & Hn & Hs & Ho), Hw' as (_ & Hc' & Hn' & Hs' & _).
  repeat split; try assumption.
  pose proof (response_follows_socket routes middleware rq connections n)
    as Hr.
  fold w in Hr. rewrite Hs in Hr. exact Hr.
Qed.

(** X3: when every socket in the registry comes from an earlier
    handshake, the socket of a request, once it has one, is a member of
    the channel that the context names and of no other channel, after the
    request and after any later callback. *)
Theorem socket_in_current_channel_only
    routes middleware rq connections n cb :
  registered_before connections n ->
  let w := snd (listenAndServe routes middleware rq connections n) in
  let w' := snd (run cb w) in
  in_current_channel_only w
  /\ in_current_channel_only w'
  /\ registered_before (activeSocketConnections w') (upgrades w').
Proof.
  intros Hreg w w'.
  assert (H0 : channels_wf (new_world rq connections n)).
  { split; [exact Hreg|]. intros s Hs. discriminate Hs. }
  pose proof (keeps_listenAndServe _ channels_wf_channels channels_wf_socket
                channels_wf_join routes middleware rq connections n H0)
    as Hw.
  fold w in Hw.
  pose proof (keeps_run _ channels_wf_channels channels_wf_socket
                channels_wf_join cb w Hw) as Hw'.
  fold w' in Hw'.
  destruct Hw as [_ Hown], Hw' as [Hreg' Hown'].
  split; [exact Hown | split; [exact Hown' | exact Hreg']].
Qed.

(** X4: [addSocketToChannel] makes the socket a member of the channel
    (creating it if need be) and adding it again changes nothing;
    [removeSocketFromChannel] takes it out, keeps the other members and
    the other channels, and keeps the channel registered even when it
    becomes empty; removing from a channel that does not exist does
    nothing. *)
Theorem channel_registry_add_remove name s w :
  let w1 := snd (addSocketToChannel name s w) in
  let w2 := snd (removeSocketFromChannel name s w1) in
  (exists members,
     activeSocketConnections w1 !! name = Some members /\ s ∈ members)
  /\ activeSocketConnections (snd (addSocketToChannel name s w1))
     = activeSocketConnections w1
  /\ (exists members,
        activeSocketConnections w2 !! name = Some members
        /\ forall x,
             x ∈ members
             <-> x <> s /\ x ∈ default [] (activeSocketConnections w !! name))
  /\ (forall name', name' <> name ->
        activeSocketConnections w2 !! name'
        = activeSocketConnections w !! name')
  /\ (activeSocketConnections w !! name = None ->
      activeSocketConnections (snd (removeSocketFromChannel name s w))
      = activeSocketConnections w).
Proof.
  intros w1 w2.
  assert (H1 : activeSocketConnections w1 !! name
               = Some (set_add s (default []
                                    (activeSocketConnections w !! name)))).
  { unfold w1. rewrite lookup_addSocketToChannel, decide_True; reflexivity. }
  split; [|split; [|split; [|split]]].
  - eexists. split; [exact H1|]. apply elem_of_set_add. left. reflexivity.
  - apply map_eq. intros name'. rewrite lookup_addSocketToChannel.
    destruct (decide (name = name')) as [<-|Hne]; [|reflexivity].
    rewrite H1. cbn [default]. f_equal. unfold set_add at 1.
    rewrite bool_decide_eq_true_2; [reflexivity|].
    apply elem_of_set_add. left. reflexivity.
  - eexists. split.
    + unfold w2. rewrite lookup_removeSocketFromChannel, decide_True, H1;
        reflexivity.
    + intros x. rewrite elem_of_set_delete, elem_of_set_add. tauto.
  - intros name' Hne. unfold w2, w1.
    rewrite lookup_removeSocketFromChannel, decide_False by congruence.
    rewrite lookup_addSocketToChannel, decide_False by congruence.
    reflexivity.
  - intros Hnone. cbn. rewrite Hnone. reflexivity.
Qed.

(** X5: [channel.broadcast] sends the message to the members of the
    context's current channel in the order in which they joined, once
    each, up to the first member that cannot be sent to: there it throws
    [InvalidStateError] and the members after it get nothing. When every
    member can be sent to, each gets the message once and the call
    returns. It does nothing when the channel does not exist (before
    looking at the message), and throws without sending anything when
    the message cannot be serialized. It never changes the context or
    the registry. The socket of the request itself cannot be sent to
    before the response is finalized: while it is a member of the
    current channel, a broadcast of a message that can be serialized
    throws. *)
Theorem broadcast_fan_out message w :
  ctx (snd (channel_broadcast message w)) = ctx w
  /\ activeSocketConnections (snd (channel_broadcast message w))
     = activeSocketConnections w
  /\ match activeSocketConnections w !! channel_name (ctx w),
           payload message with
     | None, _ =>
         fst (channel_broadcast message w) = inr tt
         /\ outbox (snd (channel_broadcast message w)) = outbox w
     | Some members, Some data =>
         fst (channel_broadcast message w)
         = (if forallb (sendable w) members then inr tt
            else inl InvalidStateError)
         /\ outbox (snd (channel_broadcast message w))
            = outbox w
              ++ map (fun s => (s, data))
                   (JS.take_while (sendable w) members)
     | Some _, None =>
         fst (channel_broadcast message w) = inl StringifyError
         /\ outbox (snd (channel_broadcast message w)) = outbox w
     end
  /\ (forall s members data,
        socket (ctx w) = Some s ->
        sent (res (ctx w)) = false ->
        activeSocketConnections w !! channel_name (ctx w) = Some members ->
        s ∈ members ->
        payload message = Some data ->
        fst (channel_broadcast message w) = inl InvalidStateError).
Proof.
  unfold channel_broadcast, bind, gets. cbn [fst snd].
  destruct (activeSocketConnections w !! channel_name (ctx w)) as [members|].
  - destruct (payload message) as [data|]; cbn [ret throw fst snd].
    + destruct (for_each_send data members w)
        as (Hfst & Hout & Hctx & Hreg & _).
      cbv zeta in *. destruct (for_each (send data) members w) as [r w'].
      cbn [fst snd] in *. subst r.
      split; [exact Hctx|]. split; [exact Hreg|].
      split; [split; [reflexivity | exact Hout]|].
      intros s members' data' Hsock Hsent [= <-] Hin _.
      assert (Hall : forallb (sendable w) members = false).
      { apply not_true_is_false. intros Hall.
        rewrite forallb_forall in Hall.
        apply list_elem_of_In, Hall in Hin.
        unfold sendable, connecting in Hin.
        rewrite Hsent, bool_decide_eq_true_2 in Hin by exact Hsock.
        rewrite andb_false_r in Hin. discriminate. }
      rewrite Hall. reflexivity.
    + repeat split. intros s members' data' _ _ _ _ [=].
  - cbn. repeat split. intros s members' data' _ _ [=].
Qed.

End ChannelFacts.

(** ** Routing and the error paths of the dispatcher *)

Section DispatchFacts.

Context `{Platform}.

Implicit Types (w : World) (cb : Callback) (routes : list Route).

Lemma getRoute_from_app_found routes routes' method href r :
  getRoute_from routes method href = Some r ->
  getRoute_from (routes ++ routes') method href = Some r.
Proof.
  induction routes as [|[[m p] c] routes IH]; [discriminate|].
  cbn [getRoute_from app].
  destruct (negb (JS.array_includes ["*"; m] method)); [exact IH|].
  destruct (negb (URLPattern_test p href)); [exact IH|].
  intros Hr. exact Hr.
Qed.

Lemma getRoute_from_app_missing routes routes' method href :
  getRoute_from routes method href = None ->
  getRoute_from (routes ++ routes') method href
  = getRoute_from routes' method href.
Proof.
  induction routes as [|[[m p] c] routes IH]; [reflexivity|].
  cbn [getRoute_from app].
  destruct (negb (JS.array_includes ["*"; m] method)); [exact IH|].
  destruct (negb (URLPattern_test p href)); [exact IH|].
  discriminate.
Qed.

Lemma method_test_spec (m method : string) :
  JS.array_includes ["*"; m] method = true <-> method = "*" \/ method = m.
Proof.
  unfold JS.array_includes. cbn [existsb]. rewrite orb_false_r.
  rewrite orb_true_iff, !String.eqb_eq. reflexivity.
Qed.

Lemma getRoute_from_none routes method href :
  (forall m p c, (m, p, c) ∈ routes ->
                 method = "*" \/ method = m ->
                 URLPattern_test p href = false) ->
  getRoute_from routes method href = None.
Proof.
  induction routes as [|[[m p] c] routes IH]; intros Hno; [reflexivity|].
  cbn [getRoute_from].
  destruct (JS.array_includes ["*"; m] method) eqn:Hm; cbn [negb].
  - rewrite (Hno m p c);
      [|apply list_elem_of_here|apply method_test_spec, Hm].
    cbn [negb]. apply IH. intros m' p' c' Hin. apply (Hno m' p' c').
    apply list_elem_of_further, Hin.
  - apply IH. intros m' p' c' Hin. apply (Hno m' p' c').
    apply list_elem_of_further, Hin.
Qed.

(** X6: resolution goes by registration order. When no entry passes
    both the method test (the request method is [*] or the entry's
    method) and the pattern test on the URL without its trailing slash,
    nothing is returned; the first entry that passes both is returned
    with the parameters its pattern extracts, whatever is registered
    after it. *)
Theorem getRoute_registration_order
    routes routes' entry_method pattern cb method href params :
  (forall m p c, (m, p, c) ∈ routes ->
                 method = "*" \/ method = m ->
                 URLPattern_test p (JS.replace_suffix "/" "" href) = false) ->
  getRoute routes method href = None
  /\ (method = "*" \/ method = entry_method ->
      URLPattern_exec pattern (JS.replace_suffix "/" "" href) = Some params ->
      getRoute (routes ++ (entry_method, pattern, cb) :: routes') method href
      = Some {| callback := cb; matchParams := params |}).
Proof.
  intros Hno. split.
  - apply getRoute_from_none, Hno.
  - intros Hm Hexec. unfold getRoute.
    rewrite getRoute_from_app_missing by (apply getRoute_from_none, Hno).
    cbn [getRoute_from]. apply method_test_spec in Hm. rewrite Hm.
    cbn [negb]. unfold URLPattern_test. rewrite Hexec. reflexivity.
Qed.

(** X7: a route registered later never shadows an earlier one: a request
    that resolved before resolves to the same entry afterwards, and a
    request that resolved to nothing can only resolve to the new entry. *)
Theorem handleRoute_never_shadows routes method path cb request_method href :
  match getRoute routes request_method href with
  | Some r =>
      getRoute (handleRoute routes method path cb) request_method href
      = Some r
  | None =>
      getRoute (handleRoute routes method path cb) request_method href
      = getRoute [(method, path, cb)] request_method href
  end.
Proof.
  unfold getRoute, handleRoute.
  destruct (getRoute_from routes request_method _) as [r|] eqn:Hr.
  - apply getRoute_from_app_found, Hr.
  - apply getRoute_from_app_missing, Hr.
Qed.

(** X8: a request with an accepted method whose body decodes and for
    which no route resolves is answered, when no middleware is
    registered, with status 404 and the status line as body; its only
    header is the content type that the [Response] constructor gives a
    string body. No callback runs and the registry is left as it was. *)
Theorem unmatched_route_not_found routes rq connections n :
  JS.array_includes RequestMethods (rq_method rq) = true ->
  decodes rq = true ->
  getRoute routes (rq_method rq) (href (rq_url rq)) = None ->
  fst (listenAndServe routes [] rq connections n)
  = inr (HttpResponse
           (Text (pretty HTTPStatus.NotFound +:+ " "
                  +:+ default "" (HTTPStatusText_get HTTPStatus.NotFound)))
           HTTPStatus.NotFound
           {[ "content-type" := "text/plain;charset=UTF-8" ]})
  /\ invoked (snd (listenAndServe routes [] rq connections n)) = []
  /\ activeSocketConnections (snd (listenAndServe routes [] rq connections n))
     = connections.
Proof.
  intros Hm Hdec Hroute. unfold listenAndServe, handle.
  set (w0 := new_world rq connections n).
  rewrite (bind_inr _ _ w0 (req (ctx w0)) w0) by reflexivity.
  change (method (req (ctx w0))) with (rq_method rq). rewrite Hm.
  unfold try_catch, attempt.
  rewrite (bind_inr _ _ w0 (req (ctx w0)) w0) by reflexivity.
  match goal with
  | |- context [bind (log ?l) ?k w0] =>
      rewrite (bind_inr (log l) k w0 tt (snd (log l w0))) by reflexivity;
      set (wl := snd (log l w0))
  end.
  destruct (decode_body_ok rq wl Hdec) as (f & Hd & Hf).
  rewrite (bind_inr _ _ _ _ _ Hd).
  match goal with
  | |- context [bind (gets ?g) ?k ?w1] =>
      rewrite (bind_inr (gets g) k w1 (g w1) w1) by reflexivity
  end.
  cbn [ctx set_ctx set_req req wl log modify snd].
  destruct (Hf (req (ctx w0))) as (Hfm & Hfu & _). rewrite Hfm, Hfu.
  change (method (req (ctx w0))) with (rq_method rq).
  change (url (req (ctx w0))) with (rq_url rq).
  rewrite Hroute. cbn. split; [|split; reflexivity].
  unfold response_of. cbn.
  rewrite Response_new_string; [rewrite insert_empty; reflexivity|..];
    first [reflexivity | unfold HTTPStatus.NotFound; lia].
Qed.

(** X9: a request with an accepted method whose body cannot be decoded
    is answered with status 500 and the status line as body, with the
    content type of a string body as its only header; no route is
    resolved for it, no callback runs, and the error is logged after the
    request line. *)
Theorem undecodable_body_internal_error routes middleware rq connections n :
  JS.array_includes RequestMethods (rq_method rq) = true ->
  decodes rq = false ->
  let r := listenAndServe routes middleware rq connections n in
  fst r
  = inr (HttpResponse
           (Text
              (pretty HTTPStatus.InternalServerError +:+ " "
               +:+ default ""
                     (HTTPStatusText_get HTTPStatus.InternalServerError)))
           HTTPStatus.InternalServerError
           {[ "content-type" := "text/plain;charset=UTF-8" ]})
  /\ invoked (snd r) = []
  /\ pathParams (req (ctx (snd r))) = ∅
  /\ console (snd r)
     = [Line ("[" +:+ rq_hostname rq +:+ "] " +:+ rq_method rq +:+ " "
              +:+ pathname (rq_url rq));
        ErrorLine ("[" +:+ rq_hostname rq +:+ "]") DecodeError].
Proof.
  intros Hm Hdec. cbv zeta. unfold listenAndServe, handle.
  set (w0 := new_world rq connections n).
  rewrite (bind_inr _ _ w0 (req (ctx w0)) w0) by reflexivity.
  change (method (req (ctx w0))) with (rq_method rq). rewrite Hm.
  unfold try_catch, attempt.
  rewrite (bind_inr _ _ w0 (req (ctx w0)) w0) by reflexivity.
  match goal with
  | |- context [bind (log ?l) ?k w0] =>
      rewrite (bind_inr (log l) k w0 tt (snd (log l w0))) by reflexivity;
      set (wl := snd (log l w0))
  end.
  rewrite (bind_inl _ _ wl DecodeError wl) by (apply decode_body_fails, Hdec).
  cbn. split; [|repeat split].
  unfold response_of. cbn.
  rewrite Response_new_string; [rewrite insert_empty; reflexivity|..];
    first [reflexivity | unfold HTTPStatus.InternalServerError; lia].
Qed.

(** X10: when anything in the [try] block throws, the error is logged
    with the client address and the response is derived anew: the body
    becomes the status line of 500 and the status 500, whatever body and
    status had been set before the error; the headers set before the
    error stay. *)
Theorem thrown_error_rederives_response
    routes middleware rq connections n e :
  JS.array_includes RequestMethods (rq_method rq) = true ->
  fst (attempt routes middleware rq (new_world rq connections n)) = inl e ->
  let w := snd (listenAndServe routes middleware rq connections n) in
  res_body (res (ctx w))
  = BodyString
      (pretty HTTPStatus.InternalServerError +:+ " "
       +:+ default "" (HTTPStatusText_get HTTPStatus.InternalServerError))
  /\ res_status (res (ctx w)) = HTTPStatus.InternalServerError
  /\ res_headers (res (ctx w))
     = res_headers
         (res (ctx (snd (attempt routes middleware rq
                           (new_world rq connections n)))))
  /\ last (console w) = Some (ErrorLine ("[" +:+ rq_hostname rq +:+ "]") e).
Proof.
  intros Hm Hthrow w. subst w. unfold listenAndServe, handle.
  set (w0 := new_world rq connections n) in *.
  rewrite (bind_inr _ _ w0 (req (ctx w0)) w0) by reflexivity.
  change (method (req (ctx w0))) with (rq_method rq). rewrite Hm.
  destruct (attempt_spec routes middleware rq w0) as (_ & _ & Hfr);
    try reflexivity.
  unfold try_catch.
  destruct (attempt routes middleware rq w0) as [[e'|[]] wa];
    cbn [fst snd] in *; [|discriminate].
  injection Hthrow as ->.
  match goal with
  | |- context [bind (log ?l) ?k wa] =>
      rewrite (bind_inr (log l) k wa tt (snd (log l wa))) by reflexivity
  end.
  rewrite sendStatus_unfrozen_eq by exact Hfr.
  cbn. repeat split. apply last_snoc.
Qed.

(** A value that is already as [Headers] keeps it is stored as it is. *)
Lemma headers_set_stored k v w :
  Headers.valid_name k = true ->
  Headers.stored v = true ->
  headers_set k v w
  = (inr tt,
     set_ctx (set_res (fun r =>
       with_headers (<[Headers.lower k := v]> (res_headers r)) r)) w).
Proof.
  intros Hk Hv. unfold Headers.stored in Hv.
  apply andb_prop in Hv as [Hn Hvalid]. apply String.eqb_eq in Hn.
  unfold headers_set. cbv zeta. rewrite Hn, Hk, Hvalid. reflexivity.
Qed.

Lemma inferContentType_spec lookup w :
  inferContentType lookup w
  = (inr tt,
     match contentType lookup with
     | Some t =>
         set_ctx (set_res (fun r =>
           with_headers (<["content-type" := t]> (res_headers r)) r)) w
     | None => w
     end).
Proof.
  unfold inferContentType.
  destruct (contentType lookup) as [t|] eqn:Ht; [|reflexivity].
  destruct (contentType_value lookup t Ht) as [Hne Hstored].
  destruct (String.eqb_spec t "") as [->|_]; [contradiction|].
  rewrite (headers_set_stored "content-type" t w eq_refl Hstored).
  reflexivity.
Qed.

(** X11: before the response is finalized, [sendFile] and
    [sendFileStream] never throw: a file that can be read (opened) becomes
    the body with status 200 and the content type inferred from its base
    name when there is one; a file that cannot is answered with status
    404 and the status line, the headers being left alone. *)
Theorem file_helpers_fall_back_to_not_found filepath w :
  frozen (ctx w) = false ->
  let not_found :=
    BodyString (pretty HTTPStatus.NotFound +:+ " "
                +:+ default "" (HTTPStatusText_get HTTPStatus.NotFound)) in
  let typed :=
    match contentType (basename filepath) with
    | Some t => <["content-type" := t]> (res_headers (res (ctx w)))
    | None => res_headers (res (ctx w))
    end in
  let sent_file := res (ctx (snd (sendFile filepath w))) in
  let sent_stream := res (ctx (snd (sendFileStream filepath w))) in
  fst (sendFile filepath w) = inr tt
  /\ fst (sendFileStream filepath w) = inr tt
  /\ match readTextFile filepath with
     | Some content =>
         res_body sent_file = BodyString content
         /\ res_status sent_file = HTTPStatus.OK
         /\ res_headers sent_file = typed
     | None =>
         res_body sent_file = not_found
         /\ res_status sent_file = HTTPStatus.NotFound
         /\ res_headers sent_file = res_headers (res (ctx w))
     end
  /\ if canOpen filepath
     then res_body sent_stream = BodyStream filepath
          /\ res_status sent_stream = HTTPStatus.OK
          /\ res_headers sent_stream = typed
     else res_body sent_stream = not_found
          /\ res_status sent_stream = HTTPStatus.NotFound
          /\ res_headers sent_stream = res_headers (res (ctx w)).
Proof.
  intros Hf. cbv zeta.
  unfold sendFile, sendFileStream, try_catch, bind, assign, throw, ret.
  destruct (readTextFile filepath) as [content|];
    destruct (canOpen filepath);
    rewrite ?Hf; rewrite ?inferContentType_spec;
    cbn [fst snd ctx set_ctx set_res frozen];
    destruct (contentType (basename filepath)) as [t|];
    cbn [fst snd ctx set_ctx set_res frozen]; rewrite ?Hf;
    rewrite ?(sendStatus_unfrozen_eq _ _ Hf);
    cbn; repeat split.
Qed.

(** X12: [sendJSON] serializes its argument (a [Map] or a [Set] spread
    into an array first). Before the response is finalized it sets the
    body, forces the status to 200 whatever it was, and sets the content
    type inferred for [json]; when serialization throws, it throws
    without having changed anything. *)
Theorem sendJSON_forces_ok data w :
  frozen (ctx w) = false ->
  match JSON_stringify (if isMapOrSet data then spread data else data) with
  | Some s =>
      fst (sendJSON data w) = inr tt
      /\ res_body (res (ctx (snd (sendJSON data w)))) = BodyString s
      /\ res_status (res (ctx (snd (sendJSON data w)))) = HTTPStatus.OK
      /\ res_headers (res (ctx (snd (sendJSON data w))))
         = match contentType "json" with
           | Some t => <["content-type" := t]> (res_headers (res (ctx w)))
           | None => res_headers (res (ctx w))
           end
  | None => sendJSON data w = (inl StringifyError, w)
  end.
Proof.
  intros Hf. unfold sendJSON. cbv zeta.
  destruct (JSON_stringify _) as [s|]; [|reflexivity].
  unfold bind, assign.
  rewrite Hf, inferContentType_spec.
  destruct (contentType "json") as [t|];
    cbn [fst snd ctx set_ctx set_res frozen]; rewrite Hf; cbn;
    repeat split.
Qed.

End DispatchFacts.

(** ** Further properties of the manifest indexer *)

Lemma chars_str (l : list ascii) : JS.chars (JS.str l) = l.
Proof. apply list_ascii_of_string_of_list_ascii. Qed.

Lemma str_chars (s : string) : JS.str (JS.chars s) = s.
Proof. apply string_of_list_ascii_of_string. Qed.

Lemma prefix_slash_str (l : list ascii) :
  String.prefix "/" (JS.str l)
  = match l with
    | c :: _ => Ascii.eqb c "/"
    | [] => false
    end.
Proof.
  destruct l as [|c r]; [reflexivity|].
  cbn [JS.str string_of_list_ascii String.prefix].
  destruct (ascii_dec "/" c) as [<-|Hne].
  - destruct (string_of_list_ascii r); reflexivity.
  - symmetry. apply Ascii.eqb_neq. congruence.
Qed.

Lemma squeeze_true_head (l : list ascii) :
  match Indexer.squeeze true l with
  | c :: _ => Ascii.eqb c "/"
  | [] => false
  end = false.
Proof.
  induction l as [|c r IH]; [reflexivity|]. cbn [Indexer.squeeze].
  destruct (Ascii.eqb c "/") eqn:Hc; [exact IH | exact Hc].
Qed.

Lemma squeeze_no_double_slash (b : bool) (l : list ascii) :
  JS.includes_chars "//" (Indexer.squeeze b l) = false.
Proof.
  revert b. induction l as [|c r IH]; intros b; [reflexivity|].
  cbn [Indexer.squeeze].
  destruct (Ascii.eqb_spec c "/") as [->|Hc].
  - destruct b; [apply IH|].
    cbn [JS.includes_chars JS.str string_of_list_ascii String.prefix].
    destruct (ascii_dec "/" "/") as [_|Hne]; [|contradiction].
    pose proof (prefix_slash_str (Indexer.squeeze true r)) as Hp.
    unfold JS.str in Hp. rewrite Hp, squeeze_true_head, IH. reflexivity.
  - cbn [JS.includes_chars JS.str string_of_list_ascii String.prefix].
    destruct (ascii_dec "/" c) as [<-|_]; [contradiction|].
    rewrite IH. reflexivity.
Qed.

Lemma squeeze_idempotent (b : bool) (l : list ascii) :
  Indexer.squeeze b (Indexer.squeeze b l) = Indexer.squeeze b l.
Proof.
  revert b. induction l as [|c r IH]; intros b; [reflexivity|].
  cbn [Indexer.squeeze].
  destruct (Ascii.eqb c "/") eqn:Hc.
  - destruct b; [apply IH|].
    cbn [Indexer.squeeze]. rewrite Hc, IH. reflexivity.
  - cbn [Indexer.squeeze]. rewrite Hc, IH. reflexivity.
Qed.

(** X14: whatever the path, the pathname that [pathToPattern] builds
    starts with a slash and has no two slashes in a row; and the last
    replacement leaves alone a string it has already produced. *)
Theorem pathToPattern_slashes_normalized (path : string) :
  JS.startsWith "/" (Indexer.pathToPattern path) = true
  /\ JS.includes "//" (Indexer.pathToPattern path) = false
  /\ Indexer.normalize_slashes (Indexer.pathToPattern path)
     = Indexer.pathToPattern path.
Proof.
  unfold Indexer.pathToPattern, Indexer.normalize_slashes.
  set (l := JS.chars _). repeat split.
  - unfold JS.startsWith. cbn [JS.str string_of_list_ascii String.prefix].
    destruct (ascii_dec "/" "/") as [_|Hne]; [|contradiction].
    destruct (string_of_list_ascii _); reflexivity.
  - unfold JS.includes. rewrite chars_str.
    cbn [JS.includes_chars JS.str string_of_list_ascii String.prefix].
    destruct (ascii_dec "/" "/") as [_|Hne]; [|contradiction].
    pose proof (prefix_slash_str (Indexer.squeeze true l)) as Hp.
    unfold JS.str in Hp.
    rewrite Hp, squeeze_true_head, squeeze_no_double_slash. reflexivity.
  - rewrite chars_str. cbn [Indexer.squeeze Ascii.eqb Bool.eqb].
    rewrite squeeze_idempotent. reflexivity.
Qed.

Lemma substring_all (s : string) : String.substring 0 (String.length s) s = s.
Proof.
  induction s as [|c s IH]; [reflexivity|]. cbn. rewrite IH. reflexivity.
Qed.

Lemma endsWith_append_char (s : string) (c : ascii) :
  JS.endsWith (String c EmptyString) (s +:+ String c EmptyString) = true.
Proof.
  unfold JS.endsWith, String.rev. rewrite rev_app_append.
  cbn [String.rev_app String.prefix].
  destruct (ascii_dec c c) as [_|Hne]; [|contradiction].
  destruct (String.rev_app s ""); reflexivity.
Qed.

(** X15: a part [[...name]] is turned into the repeated group
    [:name*], for every name, the empty one included. *)
Theorem map_part_repeated_group (name : string) :
  Indexer.map_part ("[..." +:+ name +:+ "]") = ":" +:+ name +:+ "*".
Proof.
  unfold Indexer.map_part.
  replace (JS.endsWith "]" ("[..." +:+ name +:+ "]")) with true
    by (symmetry; apply (endsWith_append_char ("[..." +:+ name) "]")).
  replace (JS.startsWith "[..." ("[..." +:+ name +:+ "]")) with true.
  2:{ unfold JS.startsWith.
      change ("[..." +:+ name +:+ "]")
        with (String "[" (String "." (String "." (String "."
                (name +:+ "]"))))).
      cbn [String.prefix].
      repeat match goal with
             | |- context [ascii_dec ?a ?a] =>
                 destruct (ascii_dec a a) as [_|Hne]; [|contradiction]
             end.
      destruct (name +:+ "]"); reflexivity. }
  do 2 f_equal. unfold JS.slice, JS.len.
  change ("[..." +:+ name +:+ "]")
    with (String "[" (String "." (String "." (String "."
            (name +:+ "]"))))).
  cbn [String.length]. rewrite length_append. cbn [String.length].
  change (4 <? 0) with false. change (-1 <? 0) with true. cbv iota.
  rewrite Z.min_l by lia.
  replace (Z.max (Z.of_nat (S (S (S (S (String.length name + 1))))) + -1) 0
           - 4)
    with (Z.of_nat (String.length name)) by lia.
  rewrite Z.max_l, Nat2Z.id by lia.
  change (Z.to_nat 4) with 4%nat. cbn [String.substring].
  apply substring_append.
Qed.

Lemma marker_prefix_second_char (marker seg : string) (c : ascii) :
  String.get 0 marker = Some c ->
  JS.startsWith ("_" +:+ marker +:+ ".") seg = true ->
  String.get 1 seg = Some c.
Proof.
  destruct marker as [|m marker]; [discriminate|]. cbn [String.get].
  intros [= ->]. unfold JS.startsWith.
  change ("_" +:+ String c marker +:+ ".")
    with (String "_" (String c (marker +:+ "."))).
  destruct seg as [|a [|b seg]]; cbn [String.prefix]; try discriminate.
  - destruct (ascii_dec "_" a); discriminate.
  - destruct (ascii_dec "_" a); [|discriminate].
    destruct (ascii_dec c b) as [->|]; [|discriminate].
    reflexivity.
Qed.

Lemma data_not_middleware (pathname : string) :
  Indexer.isData pathname = true -> Indexer.isMiddleware pathname = false.
Proof.
  unfold Indexer.isData, Indexer.isMiddleware, Indexer.test_marker.
  destruct (Indexer.last_segment pathname) as [seg|]; [|discriminate].
  intros Hd. apply andb_prop in Hd as [Hd _].
  apply (marker_prefix_second_char "data" seg "d" eq_refl) in Hd.
  destruct (JS.startsWith ("_" +:+ "middleware" +:+ ".") seg) eqn:Hm;
    [|reflexivity].
  apply (marker_prefix_second_char "middleware" seg "m" eq_refl) in Hm.
  congruence.
Qed.

Lemma indexRoute_without_ignore (pathname : string) :
  Indexer.indexRoute None pathname <> None.
Proof.
  unfold Indexer.indexRoute. rewrite andb_false_r.
  destruct (Indexer.isMiddleware pathname); [discriminate|].
  destruct (Indexer.isData pathname); [discriminate|].
  destruct (Indexer.isErrorHandler pathname); discriminate.
Qed.

Lemma indexRoute_marker (ignorePattern : option (string -> bool))
    (pathname : string) :
  (Indexer.isMiddleware pathname = true ->
   Indexer.indexRoute ignorePattern pathname = Some Indexer.AsMiddleware)
  /\ (Indexer.isData pathname = true ->
      Indexer.indexRoute ignorePattern pathname = Some Indexer.AsData).
Proof.
  unfold Indexer.indexRoute. rewrite isErrorHandler_false. split.
  - intros ->. rewrite orb_true_r. reflexivity.
  - intros Hd. rewrite Hd, (data_not_middleware _ Hd). reflexivity.
Qed.

(** X16: a file cannot be both a data file and a middleware file. Such
    a file is never skipped, whatever the ignore pattern says: its
    iteration ends in the data or the middleware hook unless loading the
    file throws (its data or front matter does not parse, or the
    [URLPattern] constructor rejects its default pattern). Any other file
    that the ignore pattern matches is skipped before anything of it is
    loaded, so that it cannot make the indexing throw. Without an ignore
    pattern no file is skipped. *)
Theorem indexRoute_roles `{Indexer.Loader}
    (ignorePattern : option (string -> bool)) (file : Indexer.File) :
  let pathname := Indexer.file_pathname file in
  (Indexer.isData pathname && Indexer.isMiddleware pathname = false)
  /\ (Indexer.isMiddleware pathname = true ->
      Indexer.indexFile ignorePattern file
      = match Indexer.load file with
        | Some e => inl e
        | None => inr (Some Indexer.AsMiddleware)
        end)
  /\ (Indexer.isData pathname = true ->
      Indexer.indexFile ignorePattern file
      = match Indexer.load file with
        | Some e => inl e
        | None => inr (Some Indexer.AsData)
        end)
  /\ (Indexer.isData pathname = false ->
      Indexer.isMiddleware pathname = false ->
      forall test, ignorePattern = Some test -> test pathname = true ->
      Indexer.indexFile ignorePattern file = inr None)
  /\ Indexer.indexFile None file <> inr None.
Proof.
  cbv zeta. unfold Indexer.indexFile.
  destruct (indexRoute_marker ignorePattern (Indexer.file_pathname file))
    as [Hm Hd].
  split; [|split; [|split; [|split]]].
  - destruct (Indexer.isData _) eqn:Hdata; [|reflexivity].
    rewrite (data_not_middleware _ Hdata). reflexivity.
  - intros Hmw. rewrite (Hm Hmw). reflexivity.
  - intros Hdata. rewrite (Hd Hdata). reflexivity.
  - intros Hnd Hnm test -> Htest. unfold Indexer.indexRoute.
    rewrite isErrorHandler_false, Hnd, Hnm, Htest. reflexivity.
  - pose proof (indexRoute_without_ignore (Indexer.file_pathname file))
      as Hs.
    destruct (Indexer.indexRoute None _) as [role|]; [|contradiction].
    destruct (Indexer.load file); discriminate.
Qed.

(** X17: [indexRoutes] visits the files in the order of the walk. It
    stops at the first file whose iteration throws: that file and the
    files after it are not registered, while what was registered before
    stays. The registrations are, in order, those of the visited files
    that were not skipped; when no iteration throws every file is
    visited, and without an ignore pattern every file is then registered
    once. *)
Theorem indexRoutes_keeps_order `{Indexer.Loader}
    (ignorePattern : option (string -> bool)) (files : list Indexer.File) :
  let reached file :=
    match Indexer.indexRoute ignorePattern (Indexer.file_pathname file) with
    | Some _ => true
    | None => false
    end in
  let result := Indexer.indexRoutes ignorePattern files in
  (exists visited,
     map fst (fst result)
     = map Indexer.file_pathname (List.filter reached visited)
     /\ Forall (fun file =>
                  forall e, Indexer.indexFile ignorePattern file <> inl e)
               visited
     /\ match snd result with
        | None => files = visited
        | Some e =>
            exists file rest,
              files = visited ++ file :: rest
              /\ Indexer.indexFile ignorePattern file = inl e
        end)
  /\ (snd (Indexer.indexRoutes None files) = None ->
      map fst (fst (Indexer.indexRoutes None files))
      = map Indexer.file_pathname files).
Proof.
  cbv zeta. split.
  - induction files as [|file files IH].
    + exists []. repeat split. constructor.
    + destruct IH as (visited & Hmap & Hall & Hend).
      cbn [Indexer.indexRoutes].
      destruct (Indexer.indexFile ignorePattern file) as [e|[role|]] eqn:Hf.
      * exists []. split; [reflexivity|]. split; [constructor|].
        exists file, files. split; [reflexivity | exact Hf].
      * assert (Hr : Indexer.indexRoute ignorePattern
                       (Indexer.file_pathname file) <> None).
        { unfold Indexer.indexFile in Hf. intros Hn. rewrite Hn in Hf.
          discriminate. }
        destruct (Indexer.indexRoutes ignorePattern files) as [regs err].
        cbn [fst snd] in *.
        exists (file :: visited). cbn [List.filter].
        destruct (Indexer.indexRoute ignorePattern
                    (Indexer.file_pathname file)); [|contradiction].
        cbn [map fst]. split; [f_equal; exact Hmap|].
        split; [constructor; [intros e; rewrite Hf; discriminate | exact Hall]|].
        destruct err as [e|].
        -- destruct Hend as (f' & rest & -> & Hthrow).
           exists f', rest. split; [reflexivity | exact Hthrow].
        -- rewrite Hend. reflexivity.
      * assert (Hr : Indexer.indexRoute ignorePattern
                       (Indexer.file_pathname file) = None).
        { unfold Indexer.indexFile in Hf.
          destruct (Indexer.indexRoute ignorePattern _); [|reflexivity].
          destruct (Indexer.load file); discriminate. }
        exists (file :: visited). cbn [List.filter]. rewrite Hr.
        split; [exact Hmap|].
        split; [constructor; [intros e; rewrite Hf; discriminate | exact Hall]|].
        destruct (snd (Indexer.indexRoutes ignorePattern files)) as [e|].
        -- destruct Hend as (f' & rest & -> & Hthrow).
           exists f', rest. split; [reflexivity | exact Hthrow].
        -- rewrite Hend. reflexivity.
  - induction files as [|file files IH]; [reflexivity|].
    cbn [Indexer.indexRoutes].
    pose proof (indexRoute_without_ignore (Indexer.file_pathname file)) as Hs.
    unfold Indexer.indexFile.
    destruct (Indexer.indexRoute None (Indexer.file_pathname file));
      [|contradiction].
    destruct (Indexer.load file); [discriminate|].
    destruct (Indexer.indexRoutes None files) as [regs err].
    cbn [fst snd] in *. intros Herr. cbn [map fst]. f_equal. apply IH, Herr.
Qed.

(** X18: for a file without extension ([extname] is empty) the slice
    [pathname.slice(0, -0)] is empty, so that the derived pattern is the
    root [/], whatever the file's path. *)
Theorem route_pattern_without_extension (pathname : string) :
  Indexer.route_pattern pathname "" = "/".
Proof.
  unfold Indexer.route_pattern, JS.slice, JS.len. cbn [String.length].
  change (- Z.of_nat 0) with 0. change (0 <? 0) with false. cbv iota.
  rewrite !Z.min_l by lia. cbn [Z.sub Z.opp Z.add Z.max Z.compare Z.to_nat].
  destruct pathname; reflexivity.
Qed.

Section StaticHeaders.

Variables BUILD_ID INTERNAL_PREFIX : string.

(** X19: a response of the asset handler that is not the redirect
    always carries the asset's content type and [vary: If-None-Match];
    it carries the immutable [cache-control] header exactly when the
    request has a non-empty cache id, which is then the current build id
    (a stale one is redirected), and no [cache-control] header when the
    cache id is absent or empty. *)
Theorem handler_cache_control (file : Indexer.File)
    (req_headers : gmap string string) (url : Indexer.URL) :
  let cacheId :=
    Indexer.searchParams_get (Indexer.cacheKey INTERNAL_PREFIX) url in
  let r := Indexer.handler BUILD_ID INTERNAL_PREFIX file req_headers url in
  (cacheId = None \/ cacheId = Some "" ->
   Indexer.headers r !! "cache-control" = None
   /\ Indexer.headers r !! "content-type" = Some (Indexer.file_type file)
   /\ Indexer.headers r !! "vary" = Some "If-None-Match")
  /\ (cacheId = Some BUILD_ID -> BUILD_ID <> "" ->
      Indexer.headers r !! "cache-control" = Some Indexer.cacheControl
      /\ Indexer.headers r !! "content-type" = Some (Indexer.file_type file)
      /\ Indexer.headers r !! "vary" = Some "If-None-Match").
Proof.
  cbv zeta. unfold Indexer.handler. split.
  - intros Hid.
    assert (Indexer.nonempty
              (Indexer.searchParams_get (Indexer.cacheKey INTERNAL_PREFIX)
                 url) = false) as ->
      by (destruct Hid as [-> | ->]; reflexivity).
    cbn [andb].
    destruct (Indexer.etagsMatch _ _); cbn [Indexer.headers];
      repeat split; reflexivity.
  - intros Hid Hne. rewrite Hid.
    assert (Indexer.nonempty (Some BUILD_ID) = true) as ->.
    { cbn. destruct (String.eqb_spec BUILD_ID ""); [contradiction|].
      reflexivity. }
    rewrite bool_decide_eq_true_2 by reflexivity. cbn [andb negb].
    destruct (Indexer.etagsMatch _ _); cbn [Indexer.headers];
      repeat split; reflexivity.
Qed.

End StaticHeaders.

Lemma strip_weak_marker (tag : string) :
  JS.strip_prefix "W/" ("W/" +:+ tag) = tag.
Proof.
  unfold JS.strip_prefix, JS.startsWith.
  change ("W/" +:+ tag) with (String "W" (String "/" tag)).
  cbn [String.prefix].
  destruct (ascii_dec "W" "W") as [_|Hne]; [|contradiction].
  destruct (ascii_dec "/" "/") as [_|Hne]; [|contradiction].
  replace (String.prefix "" tag) with true by (destruct tag; reflexivity).
  unfold JS.slice_from, JS.slice, JS.len. cbn [String.length].
  change (Z.of_nat 2 <? 0) with false. cbv iota.
  destruct (Z.of_nat (S (S (String.length tag))) <? 0) eqn:Hneg;
    [apply Z.ltb_lt in Hneg; lia|].
  rewrite !Z.min_l by lia.
  replace (Z.max (Z.of_nat (S (S (String.length tag))) - Z.of_nat 2) 0)
    with (Z.of_nat (String.length tag)) by lia.
  rewrite !Nat2Z.id. cbn [String.substring]. apply substring_all.
Qed.

(** X20: the comparison of ETags is an equivalence, and a weak marker
    [W/] put in front of a tag that has none does not change the result
    of a comparison, on either side. *)
Theorem etagsMatch_weak_equivalence (a b c : string) :
  Indexer.etagsMatch a a = true
  /\ Indexer.etagsMatch a b = Indexer.etagsMatch b a
  /\ (Indexer.etagsMatch a b = true -> Indexer.etagsMatch b c = true ->
      Indexer.etagsMatch a c = true)
  /\ (JS.startsWith "W/" a = false ->
      Indexer.etagsMatch ("W/" +:+ a) b = Indexer.etagsMatch a b
      /\ Indexer.etagsMatch b ("W/" +:+ a) = Indexer.etagsMatch b a).
Proof.
  unfold Indexer.etagsMatch. repeat split.
  - apply String.eqb_refl.
  - apply String.eqb_sym.
  - rewrite !String.eqb_eq. congruence.
  - rewrite strip_weak_marker. unfold JS.strip_prefix at 2. rewrite H.
    reflexivity.
  - rewrite strip_weak_marker. unfold JS.strip_prefix at 3. rewrite H.
    reflexivity.
Qed.

(** *** Paths without bracket parts *)

Lemma str_app (l1 l2 : list ascii) : JS.str (l1 ++ l2) = JS.str l1 +:+ JS.str l2.
Proof.
  induction l1 as [|c l1 IH]; [reflexivity|].
  change (String c (JS.str (l1 ++ l2)) = String c (JS.str l1 +:+ JS.str l2)).
  now rewrite IH.
Qed.

Lemma chars_append (s t : string) : JS.chars (s +:+ t) = JS.chars s ++ JS.chars t.
Proof.
  induction s as [|c s IH]; [reflexivity|].
  change (c :: JS.chars (s +:+ t) = c :: (JS.chars s ++ JS.chars t)).
  now rewrite IH.
Qed.

Lemma chars_rev_app (s acc : string) :
  JS.chars (String.rev_app s acc) = rev (JS.chars s) ++ JS.chars acc.
Proof.
  revert acc. induction s as [|c s IH]; intros acc; [reflexivity|].
  cbn [String.rev_app]. rewrite IH.
  change (JS.chars (String c s)) with (c :: JS.chars s).
  change (JS.chars (String c acc)) with (c :: JS.chars acc).
  cbn [rev]. rewrite <- app_assoc. reflexivity.
Qed.

Lemma elem_of_rev (c : ascii) (l : list ascii) : c ∈ rev l <-> c ∈ l.
Proof. rewrite !list_elem_of_In. symmetry. apply in_rev. Qed.

Lemma includes_char_false (c : ascii) (l : list ascii) :
  JS.includes_chars (String c EmptyString) l = false -> c ∉ l.
Proof.
  induction l as [|x l IH]; intros Hinc; [apply not_elem_of_nil|].
  cbn [JS.includes_chars JS.str string_of_list_ascii String.prefix] in Hinc.
  apply orb_false_elim in Hinc as [Hhead Htail].
  intros Hin. apply elem_of_cons in Hin as [->|Hin].
  - destruct (ascii_dec x x) as [_|Hne]; [|contradiction].
    destruct (string_of_list_ascii l); discriminate.
  - exact (IH Htail Hin).
Qed.

Lemma endsWith_char_elem (c : ascii) (s : string) :
  JS.endsWith (String c EmptyString) s = true -> c ∈ JS.chars s.
Proof.
  unfold JS.endsWith, String.rev. cbn [String.rev_app].
  intros Hp.
  assert (Hin : c ∈ JS.chars (String.rev_app s "")).
  { destruct (String.rev_app s "") as [|x r]; [discriminate|].
    cbn [String.prefix] in Hp.
    destruct (ascii_dec c x) as [->|]; [|discriminate].
    apply list_elem_of_here. }
  rewrite chars_rev_app, app_nil_r in Hin.
  apply (proj1 (elem_of_rev _ _)). exact Hin.
Qed.

Lemma map_part_without_bracket (part : string) :
  "]"%char ∉ JS.chars part -> Indexer.map_part part = part.
Proof.
  intros Hno. unfold Indexer.map_part.
  destruct (JS.endsWith "]" part) eqn:He; [|reflexivity].
  destruct (Hno (endsWith_char_elem _ _ He)).
Qed.

Lemma split_chars_nonempty (c : ascii) (cur l : list ascii) :
  JS.split_chars c cur l <> [].
Proof.
  revert cur. induction l as [|x l IH]; intros cur; cbn [JS.split_chars];
    [discriminate|].
  destruct (Ascii.eqb x c); [discriminate | apply IH].
Qed.

Lemma join_map_part_split (cur l : list ascii) :
  "]"%char ∉ cur -> "]"%char ∉ l ->
  JS.join "/" (map Indexer.map_part (JS.split_chars "/" cur l))
  = JS.str (rev cur ++ l).
Proof.
  revert cur. induction l as [|x l IH]; intros cur Hcur Hl;
    cbn [JS.split_chars].
  - cbn [map JS.join]. rewrite app_nil_r.
    apply map_part_without_bracket. rewrite chars_str.
    intros Hin. apply (proj1 (elem_of_rev _ _)) in Hin. exact (Hcur Hin).
  - apply not_elem_of_cons in Hl as [Hx Hl].
    destruct (Ascii.eqb_spec x "/") as [->|Hne].
    + cbn [map].
      pose proof (split_chars_nonempty "/" [] l) as Hne.
      pose proof (IH [] (not_elem_of_nil _) Hl) as IH0.
      cbn [rev app] in IH0.
      destruct (JS.split_chars "/" [] l) as [|p ps]; [contradiction|].
      cbn [map] in *.
      change (JS.join "/" (?a :: ?b :: ?r))
        with (a +:+ "/" +:+ JS.join "/" (b :: r)).
      rewrite IH0, map_part_without_bracket.
      * rewrite str_app. reflexivity.
      * rewrite chars_str. intros Hin.
        apply (proj1 (elem_of_rev _ _)) in Hin. exact (Hcur Hin).
    + rewrite IH.
      * cbn [rev]. rewrite <- app_assoc. reflexivity.
      * apply not_elem_of_cons. split; [congruence | exact Hcur].
      * exact Hl.
Qed.

(** For a path without [[]], the parts are put together again as they
    were. *)
Lemma pathToPattern_without_bracket (path : string) :
  JS.includes "]" path = false ->
  Indexer.pathToPattern path
  = Indexer.normalize_slashes
      (Indexer.replace_marker (JS.replace_suffix "/index" "" path)).
Proof.
  intros Hno. unfold Indexer.pathToPattern, JS.split.
  rewrite join_map_part_split.
  - cbn [rev app]. rewrite str_chars. reflexivity.
  - apply not_elem_of_nil.
  - apply includes_char_false, Hno.
Qed.

Lemma append_assoc (a b c : string) : (a +:+ b) +:+ c = a +:+ (b +:+ c).
Proof.
  induction a as [|x a IH]; [reflexivity|].
  change (String x ((a +:+ b) +:+ c) = String x (a +:+ (b +:+ c))).
  now rewrite IH.
Qed.

Lemma rev_app_acc (s acc : string) :
  String.rev_app s acc = String.rev_app s "" +:+ acc.
Proof.
  revert acc. induction s as [|c s IH]; intros acc; [reflexivity|].
  cbn [String.rev_app]. rewrite (IH (String c acc)), (IH (String c "")).
  rewrite append_assoc. reflexivity.
Qed.

Lemma prefix_append (a b : string) : String.prefix a (a +:+ b) = true.
Proof.
  induction a as [|x a IH]; [destruct b; reflexivity|].
  change (String x a +:+ b) with (String x (a +:+ b)). cbn [String.prefix].
  destruct (ascii_dec x x) as [_|Hne]; [exact IH | contradiction].
Qed.

Lemma endsWith_append (s suffix : string) :
  JS.endsWith suffix (s +:+ suffix) = true.
Proof.
  unfold JS.endsWith, String.rev.
  rewrite rev_app_append, (rev_app_acc suffix (String.rev_app s "")).
  apply prefix_append.
Qed.

Lemma replace_suffix_append (suffix by_ s : string) :
  JS.replace_suffix suffix by_ (s +:+ suffix) = s +:+ by_.
Proof.
  unfold JS.replace_suffix. rewrite endsWith_append. f_equal.
  unfold JS.slice, JS.len. rewrite length_append.
  replace (Z.of_nat (String.length s + String.length suffix)
           - Z.of_nat (String.length suffix))
    with (Z.of_nat (String.length s)) by lia.
  change (0 <? 0) with false. cbv iota.
  destruct (Z.of_nat (String.length s) <? 0) eqn:Hneg;
    [apply Z.ltb_lt in Hneg; lia|].
  rewrite !Z.min_l, Z.sub_0_r, Z.max_l by lia.
  change (Z.to_nat 0) with 0%nat. rewrite Nat2Z.id. apply substring_append.
Qed.

Lemma includes_char_existsb (c : ascii) (l : list ascii) :
  JS.includes_chars (String c EmptyString) l = existsb (Ascii.eqb c) l.
Proof.
  induction l as [|x l IH]; [reflexivity|].
  cbn [JS.includes_chars JS.str string_of_list_ascii String.prefix existsb].
  rewrite IH. f_equal.
  destruct (ascii_dec c x) as [->|Hne].
  - rewrite Ascii.eqb_refl. destruct (string_of_list_ascii l); reflexivity.
  - symmetry. apply Ascii.eqb_neq, Hne.
Qed.

Lemma includes_char_append (c : ascii) (s t : string) :
  JS.includes (String c EmptyString) (s +:+ t)
  = JS.includes (String c EmptyString) s
    || JS.includes (String c EmptyString) t.
Proof.
  unfold JS.includes. rewrite !includes_char_existsb, chars_append.
  apply existsb_app.
Qed.

(** X21: for a directory path without [[]]: the file [index] in it gets
    the pattern of the directory (the [/index] suffix is taken off, once,
    before the marker replacement); the files [_middleware] and [_data]
    get the directory's path followed by the optional wildcard [/*?]. *)
Theorem pathToPattern_index_and_markers (dir : string) :
  JS.includes "]" dir = false ->
  Indexer.pathToPattern (dir +:+ "/index")
  = Indexer.normalize_slashes (Indexer.replace_marker dir)
  /\ Indexer.pathToPattern (dir +:+ "/_middleware")
     = Indexer.normalize_slashes (dir +:+ "/*?")
  /\ Indexer.pathToPattern (dir +:+ "/_data")
     = Indexer.normalize_slashes (dir +:+ "/*?").
Proof.
  intros Hdir.
  assert (Hno : forall name, JS.includes "]" name = false ->
                JS.includes "]" (dir +:+ name) = false).
  { intros name Hname. rewrite includes_char_append, Hdir, Hname.
    reflexivity. }
  assert (Hindex_m : JS.endsWith "/index" (dir +:+ "/_middleware") = false).
  { unfold JS.endsWith, String.rev. rewrite rev_app_append.
    cbn [String.rev_app String.prefix].
    destruct (ascii_dec _ _) as [Heq|_]; [discriminate Heq|reflexivity]. }
  assert (Hindex_d : JS.endsWith "/index" (dir +:+ "/_data") = false).
  { unfold JS.endsWith, String.rev. rewrite rev_app_append.
    cbn [String.rev_app String.prefix].
    destruct (ascii_dec _ _) as [Heq|_]; [discriminate Heq|reflexivity]. }
  assert (Hm_d : JS.endsWith "/_middleware" (dir +:+ "/_data") = false).
  { unfold JS.endsWith, String.rev. rewrite rev_app_append.
    cbn [String.rev_app String.prefix].
    destruct (ascii_dec _ _) as [Heq|_]; [discriminate Heq|reflexivity]. }
  repeat split.
  - rewrite pathToPattern_without_bracket by (apply Hno; reflexivity).
    rewrite replace_suffix_append, append_empty_r. reflexivity.
  - rewrite pathToPattern_without_bracket by (apply Hno; reflexivity).
    unfold JS.replace_suffix. rewrite Hindex_m.
    unfold Indexer.replace_marker. rewrite endsWith_append.
    rewrite replace_suffix_append. reflexivity.
  - rewrite pathToPattern_without_bracket by (apply Hno; reflexivity).
    unfold JS.replace_suffix. rewrite Hindex_d.
    unfold Indexer.replace_marker. rewrite Hm_d.
    rewrite replace_suffix_append. reflexivity.
Qed.

(** *** Header values *)





(** X24: once the response facet is frozen, the helpers that write the
    body are rejected and change nothing: [sendFile] and [sendFileStream]
    throw the [TypeError] (their fallback to 404 is rejected as well),
    whether the file can be read or not, and [sendJSON] throws it unless
    serialization has thrown first. *)
Theorem body_helpers_rejected_once_frozen `{Platform}
    (filepath : string) (data : JSValue) (w : World) :
  frozen (ctx w) = true ->
  sendFile filepath w = (inl TypeError, w)
  /\ sendFileStream filepath w = (inl TypeError, w)
  /\ sendJSON data w
     = (inl match JSON_stringify
                    (if isMapOrSet data then spread data else data) with
            | Some _ => TypeError
            | None => StringifyError
            end, w).
Proof.
  intros Hf.
  unfold sendFile, sendFileStream, sendJSON, try_catch, bind, throw.
  cbv zeta. repeat split.
  - destruct (readTextFile filepath);
      rewrite ?(assign_frozen _ _ Hf), (sendStatus_frozen _ _ Hf);
      reflexivity.
  - destruct (canOpen filepath);
      rewrite ?(assign_frozen _ _ Hf), (sendStatus_frozen _ _ Hf);
      reflexivity.
  - destruct (JSON_stringify _); [|reflexivity].
    rewrite (assign_frozen _ _ Hf). reflexivity.
Qed.

(** X22: one slash at the very end of the URL is dropped before the
    patterns are tried, so that a URL and the same URL followed by a
    slash resolve alike. *)
Theorem getRoute_ignores_one_trailing_slash `{Platform}
    (routes : list Route) (method href : string) :
  JS.endsWith "/" href = false ->
  getRoute routes method (href +:+ "/") = getRoute routes method href.
Proof. apply getRoute_trailing_slash. Qed.

(** X23: a request whose method is not in [RequestMethods] is answered
    with status 501 and the status line as body, with the content type
    of a string body as its only header; its body is not decoded,
    nothing is logged, no route is resolved, no callback runs and the
    registry is left as it was. *)
Theorem unsupported_method_not_implemented `{Platform}
    (routes : list Route) (middleware : list Callback) (rq : Request)
    (connections : gmap string (list WebSocket)) (n : nat) :
  JS.array_includes RequestMethods (rq_method rq) = false ->
  let w := snd (listenAndServe routes middleware rq connections n) in
  fst (listenAndServe routes middleware rq connections n)
  = inr (HttpResponse
           (Text (pretty HTTPStatus.NotImplemented +:+ " "
                  +:+ default ""
                        (HTTPStatusText_get HTTPStatus.NotImplemented)))
           HTTPStatus.NotImplemented
           {[ "content-type" := "text/plain;charset=UTF-8" ]})
  /\ invoked w = []
  /\ console w = []
  /\ body (req (ctx w)) = Undefined
  /\ bodyType (req (ctx w)) = None
  /\ pathParams (req (ctx w)) = ∅
  /\ activeSocketConnections w = connections.
Proof. apply unknown_method_not_implemented. Qed.

(** ** The further properties on concrete inputs *)

Lemma no_upgrade_without_header_witness :
  rq_headers (Examples.request "GET" "/a" ∅) !! "upgrade"
  <> Some "websocket"
  /\ activeSocketConnections
       (snd (run Examples.join_room1
               (snd (listenAndServe Examples.hello_routes []
                       (Examples.request "GET" "/a" ∅) Examples.rooms 9))))
     = Examples.rooms.
Proof.
  assert (Hno : rq_headers (Examples.request "GET" "/a" ∅) !! "upgrade"
                <> Some "websocket") by (vm_compute; discriminate).
  split; [exact Hno|].
  destruct (no_upgrade_without_header Examples.hello_routes []
              (Examples.request "GET" "/a" ∅) Examples.rooms 9
              Examples.join_room1 Hno) as (_ & _ & _ & _ & Hc & _).
  exact Hc.
Defined.

Lemma rooms_registered_before : registered_before Examples.rooms 9.
Proof.
  intros name members s Hm Hin. unfold Examples.rooms in Hm.
  apply lookup_singleton_Some in Hm as [_ <-].
  apply elem_of_cons in Hin as [->|Hin]; [lia|].
  apply list_elem_of_singleton in Hin as ->. lia.
Defined.

Lemma socket_in_current_channel_only_witness :
  registered_before Examples.rooms 9
  /\ in_current_channel_only
       (snd (listenAndServe Examples.join_routes []
               (Examples.request "GET" "/ws" Examples.upgrade_headers)
               Examples.rooms 9)).
Proof.
  split; [exact rooms_registered_before|].
  exact (proj1 (socket_in_current_channel_only Examples.join_routes []
                  (Examples.request "GET" "/ws" Examples.upgrade_headers)
                  Examples.rooms 9 Return rooms_registered_before)).
Defined.

(** The socket of that request is the tenth, and it has moved from the
    default channel to [room1]. *)
Example join_moves_socket :
  activeSocketConnections
    (snd (listenAndServe Examples.join_routes []
            (Examples.request "GET" "/ws" Examples.upgrade_headers)
            Examples.rooms 9))
  = {[ "room1" := [7; 8; 9]%nat; "" := [] ]}.
Proof. reflexivity. Qed.

(** A handler that gets its socket and then broadcasts to its channel:
    the socket is the only member and still connecting, so the broadcast
    throws and nothing is sent. *)
Lemma broadcast_fan_out_witness :
  fst (channel_broadcast (StringMessage "hi")
         (snd (upgrade_socket
                 (new_world
                    (Examples.request "GET" "/ws" Examples.upgrade_headers)
                    ∅ 9))))
  = inl InvalidStateError.
Proof.
  apply (proj2 (proj2 (proj2
           (broadcast_fan_out (StringMessage "hi")
              (snd (upgrade_socket
                      (new_world
                         (Examples.request "GET" "/ws"
                            Examples.upgrade_headers)
                         ∅ 9))))))
         9%nat [9%nat] (TextData "hi"));
    try reflexivity.
  apply list_elem_of_here.
Defined.

(** In a channel whose third member is closed, the first two members get
    the message and the fourth does not. *)
Example broadcast_stops_at_closed_socket :
  channel_broadcast (StringMessage "hi")
    (snd (channel_join "room"
            (new_world (Examples.request "GET" "/a" ∅)
               {[ "room" := [7; 8; 3; 9]%nat ]} 10)))
  = (inl InvalidStateError,
     {| ctx :=
          with_channel_name "room"
            (new_context (Examples.request "GET" "/a" ∅));
        activeSocketConnections := {[ "room" := [7; 8; 3; 9]%nat ]};
        upgrades := 10;
        outbox := [(7%nat, TextData "hi"); (8%nat, TextData "hi")];
        console := []; invoked := []; buffers := ∅ |}).
Proof. reflexivity. Qed.

Lemma channel_registry_add_remove_witness :
  exists members,
    activeSocketConnections
      (snd (addSocketToChannel "room2" 3%nat
              (new_world (Examples.request "GET" "/a" ∅) Examples.rooms 9)))
    !! "room2" = Some members
    /\ 3%nat ∈ members.
Proof.
  exact (proj1 (channel_registry_add_remove "room2" 3%nat
                  (new_world (Examples.request "GET" "/a" ∅)
                     Examples.rooms 9))).
Defined.

Lemma getRoute_registration_order_witness :
  getRoute ([] ++ ("GET", "/a", Examples.hello)
               :: [("GET", "/a", Examples.failing)])
    "GET" "http://localhost:3000/a/"
  = Some {| callback := Examples.hello; matchParams := ∅ |}.
Proof.
  apply (getRoute_registration_order [] [("GET", "/a", Examples.failing)]
           "GET" "/a" Examples.hello "GET" "http://localhost:3000/a/" ∅).
  - intros m p c Hin. apply elem_of_nil in Hin. contradiction.
  - right. reflexivity.
  - reflexivity.
Defined.

Lemma getRoute_ignores_one_trailing_slash_witness :
  JS.endsWith "/" "http://localhost:3000/a" = false
  /\ getRoute Examples.hello_routes "GET" "http://localhost:3000/a/"
     = getRoute Examples.hello_routes "GET" "http://localhost:3000/a".
Proof.
  split; [reflexivity|].
  apply (getRoute_ignores_one_trailing_slash Examples.hello_routes "GET"
           "http://localhost:3000/a").
  reflexivity.
Defined.

Lemma unsupported_method_not_implemented_witness :
  JS.array_includes RequestMethods "TRACE" = false
  /\ invoked (snd (listenAndServe Examples.hello_routes
                     Examples.one_middleware
                     (Examples.request "TRACE" "/a" ∅) ∅ 0))
     = [].
Proof.
  split; [reflexivity|].
  destruct (unsupported_method_not_implemented Examples.hello_routes
              Examples.one_middleware (Examples.request "TRACE" "/a" ∅)
              ∅ 0%nat eq_refl) as (_ & Hinvoked & _).
  exact Hinvoked.
Defined.

Lemma unmatched_route_not_found_witness :
  fst (listenAndServe Examples.hello_routes []
         (Examples.request "GET" "/nope" ∅) ∅ 0)
  = inr (HttpResponse (Text "404 Not Found") 404
           {[ "content-type" := "text/plain;charset=UTF-8" ]}).
Proof.
  exact (proj1 (unmatched_route_not_found Examples.hello_routes
                  (Examples.request "GET" "/nope" ∅) ∅ 0%nat
                  eq_refl eq_refl eq_refl)).
Defined.

Lemma undecodable_body_internal_error_witness :
  @decodes Examples.rejecting_platform Examples.broken_json = false
  /\ fst (@listenAndServe Examples.rejecting_platform [] []
            Examples.broken_json ∅ 0)
     = inr (HttpResponse (Text "500 Internal Server Error") 500
              {[ "content-type" := "text/plain;charset=UTF-8" ]}).
Proof.
  split; [reflexivity|].
  exact (proj1 (@undecodable_body_internal_error
                  Examples.rejecting_platform [] []
                  Examples.broken_json ∅ 0%nat eq_refl eq_refl)).
Defined.

Lemma thrown_error_rederives_response_witness :
  res_body
    (res (ctx (snd (listenAndServe Examples.failing_routes
                      Examples.one_middleware
                      (Examples.request "GET" "/a" ∅) ∅ 0))))
  = BodyString "500 Internal Server Error".
Proof.
  exact (proj1 (thrown_error_rederives_response Examples.failing_routes
                  Examples.one_middleware (Examples.request "GET" "/a" ∅)
                  ∅ 0%nat (Thrown "boom") eq_refl eq_refl)).
Defined.

Lemma file_helpers_fall_back_to_not_found_witness :
  fst (sendFile "missing.txt"
         (new_world (Examples.request "GET" "/a" ∅) ∅ 0))
  = inr tt.
Proof.
  apply (file_helpers_fall_back_to_not_found "missing.txt"
           (new_world (Examples.request "GET" "/a" ∅) ∅ 0)).
  reflexivity.
Defined.

Example sendFile_missing :
  res_status
    (res (ctx (snd (sendFile "missing.txt"
                      (new_world (Examples.request "GET" "/a" ∅) ∅ 0)))))
  = 404.
Proof. reflexivity. Qed.

Lemma sendJSON_forces_ok_witness :
  res_status
    (res (ctx (snd (@sendJSON Examples.platform "[1, 2]"
                      (snd (sendStatus 404
                              (new_world (Examples.request "GET" "/a" ∅)
                                 ∅ 0)))))))
  = 200.
Proof.
  apply (@sendJSON_forces_ok Examples.platform "[1, 2]"
           (snd (sendStatus 404
                   (new_world (Examples.request "GET" "/a" ∅) ∅ 0)))).
  reflexivity.
Defined.


(** A file name with a line feed: the header is rejected. *)
Example markForDownload_rejects_line_feed :
  markForDownload (Some (String "a" (String (ascii_of_nat 10) "b")))
    (new_world (Examples.request "GET" "/a" ∅) ∅ 0)
  = (inl TypeError, new_world (Examples.request "GET" "/a" ∅) ∅ 0).
Proof. reflexivity. Qed.

Lemma indexRoute_roles_witness :
  Indexer.isData "/blog/_data.json" = true
  /\ @Indexer.indexFile Examples.loader (Some (fun _ => true))
       (Examples.route_file "/blog/_data.json" "{}")
     = inr (Some Indexer.AsData).
Proof.
  split; [reflexivity|].
  exact (proj1 (proj2 (proj2
           (@indexRoute_roles Examples.loader (Some (fun _ => true))
              (Examples.route_file "/blog/_data.json" "{}"))))
           eq_refl).
Defined.

(** A data file that does not parse makes its iteration throw, although
    it is never skipped; an ignored page with the same content is
    skipped. *)
Example malformed_data_file :
  @Indexer.indexFile Examples.loader (Some (fun _ => true))
    (Examples.route_file "/blog/_data.json" "{")
  = inl Indexer.DataError
  /\ @Indexer.indexFile Examples.loader (Some (fun _ => true))
       (Examples.route_file "/blog/post.json" "{")
     = inr None.
Proof. split; reflexivity. Qed.

Lemma indexRoutes_keeps_order_witness :
  snd (@Indexer.indexRoutes Examples.loader None
         [Examples.route_file "/a.md" "a";
          Examples.route_file "/blog/_middleware.ts" ""])
  = None
  /\ map fst
       (fst (@Indexer.indexRoutes Examples.loader None
               [Examples.route_file "/a.md" "a";
                Examples.route_file "/blog/_middleware.ts" ""]))
     = ["/a.md"; "/blog/_middleware.ts"].
Proof.
  split; [reflexivity|].
  exact (proj2 (@indexRoutes_keeps_order Examples.loader None
                  [Examples.route_file "/a.md" "a";
                   Examples.route_file "/blog/_middleware.ts" ""])
           eq_refl).
Defined.

(** The file [/[...].md] has the default pattern [/:*], which the
    constructor rejects: the indexing throws at it; the page before it
    is registered, the page after it is not. *)
Example indexRoutes_aborts :
  Indexer.route_pattern "/[...].md" ".md" = "/:*"
  /\ URLPattern.valid "/:*" = false
  /\ @Indexer.indexRoutes Examples.loader None
       [Examples.route_file "/a.md" "a";
        Examples.route_file "/[...].md" "b";
        Examples.route_file "/c.md" "c"]
     = ([("/a.md", Indexer.AsPage)], Some Indexer.PatternError)
  /\ @Indexer.indexRoutes Examples.loader None
       [Examples.route_file "/[...].md" "b";
        Examples.route_file "/c.md" "c"]
     = ([], Some Indexer.PatternError).
Proof. repeat split; reflexivity. Qed.

Lemma handler_cache_control_witness :
  Indexer.headers
    (Indexer.handler "NEW" "_nadder" Examples.style_css ∅
       (Examples.style_url [("_nadder_cache_id", "NEW")]))
  !! "cache-control"
  = Some "public, max-age=31536000, immutable".
Proof.
  apply (handler_cache_control "NEW" "_nadder" Examples.style_css ∅
           (Examples.style_url [("_nadder_cache_id", "NEW")]));
    first [reflexivity | discriminate].
Defined.

Lemma etagsMatch_weak_equivalence_witness :
  JS.startsWith "W/" "abc" = false
  /\ Indexer.etagsMatch ("W/" +:+ "abc") "abc"
     = Indexer.etagsMatch "abc" "abc".
Proof.
  split; [reflexivity|].
  apply (etagsMatch_weak_equivalence "abc" "abc" "abc"). reflexivity.
Defined.

Lemma pathToPattern_index_and_markers_witness :
  JS.includes "]" "/blog" = false
  /\ Indexer.pathToPattern ("/blog" +:+ "/_middleware")
     = Indexer.normalize_slashes ("/blog" +:+ "/*?").
Proof.
  split; [reflexivity|].
  exact (proj1 (proj2 (pathToPattern_index_and_markers "/blog" eq_refl))).
Defined.

Lemma body_helpers_rejected_once_frozen_witness :
  frozen (ctx (snd (listenAndServe Examples.hello_routes []
                      (Examples.request "GET" "/a" ∅) ∅ 0)))
  = true
  /\ fst (sendFile "index.html"
            (snd (listenAndServe Examples.hello_routes []
                    (Examples.request "GET" "/a" ∅) ∅ 0)))
     = inl TypeError.
Proof.
  split; [reflexivity|].
  rewrite (proj1 (@body_helpers_rejected_once_frozen Examples.platform
                    "index.html" "null"
                    (snd (listenAndServe Examples.hello_routes []
                            (Examples.request "GET" "/a" ∅) ∅ 0))
                    eq_refl)).
  reflexivity.
Defined.
